(** * slurmanalyser.utils: column converters for scheduler accounting logs

    A shallow embedding of [src/slurmanalyser/utils.py]: the NA validator
    [util_check_na], the SI-suffix parser [util_norm_si], the memory parser
    [util_memory], the generic coercers, the two duration parsers and the
    duration formatter; then the helpers of the module around the terminal,
    files and processes ([print_progress_bar], [get_file_open],
    [get_find_compressor], [compress], [decompress], [eval_shell_cmd]).

    Conventions of the embedding.
    - A pandas column ([pd.Series]) is a list of cells; a missing cell (NaN,
      NaT, <NA>, None) is [None].
    - Python [str] is [string]; the scalar and batch parsers only ever look at
      ASCII characters of their input, [\d] is read as [0-9].
    - float64 cells are the rational they denote ([Q]); binary rounding of
      float64 is not part of the model.  Int64 and timedelta64[ns] cells are
      [Z] with their 64-bit range checked where the code casts into them.
    - Exceptions and logging are explicit: a call yields the log records it
      emitted and either a value or the exception it raised. *)

From Stdlib Require Import ZArith QArith Qround List String Ascii Bool Lia.
From Stdlib Require Import Decimal DecimalString DecimalN DecimalFacts DecimalPos DecimalZ.
Import ListNotations.

Local Open Scope Z_scope.
Local Open Scope list_scope.
Local Open Scope string_scope.

(** ** Python values, exceptions and the logging side channel *)

(** A cell of a string column; [None] is NaN. *)
Definition cell := option string.

(** The texts of the f-strings the module raises or logs, kept with their
    arguments. *)
Inductive message : Type :=
| NonValidNA (num_of_non_valid : nat) (na_is : list string) (sample : list cell)
    (* "There are {n} non valid NA entries (valid NA: {na_is}).\nNon valid values: {sample}" *)
| IncorrectReturnIn (return_in : string)
    (* "Incorrect return_in values ({return_in})" *)
| UnknownDurationFormat (v : string)
    (* "Unknown format for slurm duration: {v}" *)
| CouldNotConvertToFloat (s : string)
    (* float(): "could not convert string to float: {s}" *)
| InvalidLiteralForInt (s : string)
    (* int(): "invalid literal for int() with base 10: {s}" *)
| CannotSafelyCast
    (* astype("Int64"): "cannot safely cast non-equivalent float64 to int64" *)
| NotOrderable.
    (* sorting a str against a float: "'<' not supported between instances" *)

Inductive exn : Type :=
| ValueError (m : message)
| TypeError (m : message)
| OverflowError
| Exception (m : message).

Inductive result (A : Type) : Type :=
| Return (a : A)
| Raise (e : exn).
Arguments Return {A} a.
Arguments Raise {A} e.

Inductive log_record : Type :=
| LogWarning (m : message)
| LogError (m : message).

(** A computation that may log and may raise. *)
Definition Py (A : Type) : Type := (list log_record * result A)%type.

Definition ret {A} (a : A) : Py A := ([], Return a).
Definition raise {A} (e : exn) : Py A := ([], Raise e).
Definition log (r : log_record) : Py unit := ([r], Return tt).
Definition lift {A} (r : result A) : Py A := ([], r).

Definition bind {A B} (m : Py A) (k : A -> Py B) : Py B :=
  match m with
  | (l, Return a) => let '(l', r) := k a in ((l ++ l')%list, r)
  | (l, Raise e) => (l, Raise e)
  end.

Notation "x <- m ;; k" := (bind m (fun x => k))
  (at level 61, m at next level, right associativity).
Notation "m ;;; k" := (bind m (fun _ => k))
  (at level 61, right associativity).

Definition logs {A} (m : Py A) : list log_record := fst m.
Definition outcome {A} (m : Py A) : result A := snd m.

(** ** Regular expressions

    Every pattern of the module is anchored ([^...$]) and is a sequence of
    character classes under [+] or [?] and literal characters, where no class
    shares a character with what may follow it.  Matching such a pattern is
    deterministic: each [+] takes the longest run of its class.  The
    combinators below consume a pattern piece from the front of the string
    and return what is left. *)

Fixpoint span (cls : ascii -> bool) (s : string) : string * string :=
  match s with
  | EmptyString => ("", "")
  | String c r =>
      if cls c then let '(a, b) := span cls r in (String c a, b) else ("", s)
  end.

(** [cls+], captured. *)
Definition re_plus (cls : ascii -> bool) (s : string) : option (string * string) :=
  match span cls s with
  | (EmptyString, _) => None
  | (a, r) => Some (a, r)
  end.

(** [cls?], captured. *)
Definition re_opt (cls : ascii -> bool) (s : string) : string * string :=
  match s with
  | String c r => if cls c then (String c "", r) else ("", s)
  | EmptyString => ("", "")
  end.

(** A literal character. *)
Definition re_lit (c : ascii) (s : string) : option string :=
  match s with
  | String c' r => if Ascii.eqb c c' then Some r else None
  | EmptyString => None
  end.

Definition newline : string := String (ascii_of_nat 10) "".

(** [$]: the end of the string, or just before a final line feed. *)
Definition re_end (s : string) : bool := (s =? "") || (s =? newline).

Notation "' p <-? m ;; k" := (match m with Some p => k | None => None end)
  (at level 61, p pattern, m at next level, right associativity).

Definition is_digit (c : ascii) : bool :=
  (48 <=? nat_of_ascii c)%nat && (nat_of_ascii c <=? 57)%nat.

(** [[0-9.]] *)
Definition is_digit_or_dot (c : ascii) : bool := is_digit c || Ascii.eqb c ".".

Fixpoint mem_ascii (c : ascii) (s : string) : bool :=
  match s with
  | EmptyString => false
  | String c' r => Ascii.eqb c c' || mem_ascii c r
  end.

(** [[kmgtpeKMGTPE]] *)
Definition is_si_letter (c : ascii) : bool := mem_ascii c "kmgtpeKMGTPE".

(** [[cnCN]] *)
Definition is_cn_letter (c : ascii) : bool := mem_ascii c "cnCN".

Definition is_space (c : ascii) : bool := Ascii.eqb c " ".

(** ** Numbers read from text *)

Definition nonempty (s : string) : bool := negb (s =? "").

Fixpoint all_chars (cls : ascii -> bool) (s : string) : bool :=
  match s with
  | EmptyString => true
  | String c r => cls c && all_chars cls r
  end.

Definition digit_of (c : ascii) : Z := Z.of_nat (nat_of_ascii c) - 48.

(** The number a run of digits spells, read from the left. *)
Fixpoint int_acc (acc : Z) (s : string) : Z :=
  match s with
  | EmptyString => acc
  | String c r => int_acc (10 * acc + digit_of c) r
  end.

Definition digits_value (s : string) : Z := int_acc 0 s.

(** [int(s)] on a run of decimal digits (leading zeros allowed); anything
    else is the ValueError of [int]. *)
Definition py_int (s : string) : option Z :=
  if all_chars is_digit s && nonempty s then Some (digits_value s) else None.

(** [str(n)] of an integer. *)
Definition py_str (n : Z) : string := NilZero.string_of_int (Z.to_int n).

(** Splits at the first dot: the text before it, and the text after it when
    there is one. *)
Fixpoint split_dot (s : string) : string * option string :=
  match s with
  | EmptyString => ("", None)
  | String c r =>
      if Ascii.eqb c "." then ("", Some r)
      else let '(a, b) := split_dot r in (String c a, b)
  end.

Fixpoint pow10 (n : nat) : positive :=
  match n with
  | O => 1%positive
  | S k => (10 * pow10 k)%positive
  end.

(** The number a decimal literal over [[0-9.]] denotes: digits, with at most
    one dot and a digit on one side of it at least ("12", "1.5", "1.", ".5").
    Anything else ( ".", "1.2.3" ) is no number. *)
Definition decimal_literal (s : string) : option Q :=
  match split_dot s with
  | (ip, None) =>
      if all_chars is_digit ip && nonempty ip then Some (inject_Z (digits_value ip))
      else None
  | (ip, Some fp) =>
      if all_chars is_digit ip && all_chars is_digit fp && (nonempty ip || nonempty fp)
      then Some (Qmake (digits_value (ip ++ fp)) (pow10 (String.length fp)))
      else None
  end.

(** [round()] of numpy and of Python: to the nearest integer, a tie to the
    even one. *)
Definition round_half_even (q : Q) : Z :=
  let f := Qfloor q in
  match ((q - inject_Z f) ?= (1 # 2))%Q with
  | Lt => f
  | Gt => f + 1
  | Eq => if Z.even f then f else f + 1
  end.

(** ** Column operations of pandas and numpy *)

Definition isna {A} (x : list (option A)) : list bool :=
  map (fun c => match c with None => true | Some _ => false end) x.

Definition isin (v : list cell) (values : list string) : list bool :=
  map (fun c => match c with
                | None => false
                | Some s => existsb (String.eqb s) values
                end) v.

(** An element-wise binary operation on two columns over the same index. *)
Fixpoint map2 {A B C} (f : A -> B -> C) (a : list A) (b : list B) : list C :=
  match a, b with
  | x :: a', y :: b' => f x y :: map2 f a' b'
  | _, _ => []
  end.

(** [np.sum] of a boolean column. *)
Definition np_sum (m : list bool) : nat := List.length (filter (fun b => b) m).

(** [v[m]]: the cells where the boolean column [m] holds. *)
Fixpoint mask {A} (v : list A) (m : list bool) : list A :=
  match v, m with
  | x :: v', b :: m' => if b then x :: mask v' m' else mask v' m'
  | _, _ => []
  end.

(** [s[m] = y]: the cells where [m] holds are overwritten with [y]. *)
Definition mask_assign {A} (s : list A) (m : list bool) (y : A) : list A :=
  map2 (fun x (b : bool) => if b then y else x) s m.

Fixpoint insert_unique (s : string) (l : list string) : list string :=
  match l with
  | [] => [s]
  | x :: r =>
      if s =? x then l
      else if String.ltb s x then s :: l
      else x :: insert_unique s r
  end.

Definition sort_unique (l : list string) : list string :=
  fold_right insert_unique [] l.

Fixpoint strings_of (v : list cell) : option (list string) :=
  match v with
  | [] => Some []
  | Some s :: r => option_map (cons s) (strings_of r)
  | None :: _ => None
  end.

(** [np.unique] of an object array: sorted, duplicates dropped.  An array of
    strings is ordered as strings; NaN cells alone are left as they are (NaN
    differs from itself); a string cannot be ordered against a NaN. *)
Definition np_unique (v : list cell) : result (list cell) :=
  match strings_of v with
  | Some l => Return (map Some (sort_unique l))
  | None =>
      if forallb (fun c => match c with None => true | Some _ => false end) v
      then Return v
      else Raise (TypeError NotOrderable)
  end.

(** ** The NA validator *)

Definition default_na_is : list string :=
  [""; "Unknown"; "NA"; "NAN"; "NaN"; "NAT"; "NaT"; "nan"].

Definition util_check_na {A} (v : list cell) (x : list (option A))
    (na_is : option (list string)) (check_na : string) : Py (option nat) :=
  if check_na =? "ignore" then ret None
  else
    let na_is := match na_is with None => default_na_is | Some l => l end in
    let non_valid := map2 andb (isna x) (map negb (isin v na_is)) in
    let num_of_non_valid := np_sum non_valid in
    (if (0 <? num_of_non_valid)%nat then
       sample <- lift (np_unique (mask v non_valid)) ;;
       let msg := NonValidNA num_of_non_valid na_is (firstn 20 sample) in
       if check_na =? "warning" then log (LogWarning msg)
       else if check_na =? "error" then log (LogError msg) ;;; raise (ValueError msg)
       else ret tt
     else ret tt) ;;;
    ret (Some num_of_non_valid).

(** ** SI suffixes *)

Definition dict := list (string * Z).

Fixpoint dict_get (d : dict) (k : string) : option Z :=
  match d with
  | [] => None
  | (k', x) :: r => if k =? k' then Some x else dict_get r k
  end.

Definition dict_mem (d : dict) (k : string) : bool :=
  match dict_get d k with Some _ => true | None => false end.

Definition SI_SUFFIXES_binary : dict :=
  [ ("", 1);
    ("k", 1024); ("m", 1024*1024); ("g", 1024*1024*1024); ("t", 1024*1024*1024*1024);
    ("p", 1024*1024*1024*1024*1024); ("e", 1024*1024*1024*1024*1024*1024);
    ("K", 1024); ("M", 1024*1024); ("G", 1024*1024*1024); ("T", 1024*1024*1024*1024);
    ("P", 1024*1024*1024*1024*1024); ("E", 1024*1024*1024*1024*1024*1024) ].

Definition SI_SUFFIXES_decimal : dict :=
  [ ("", 1);
    ("k", 1000); ("m", 1000*1000); ("g", 1000*1000*1000); ("t", 1000*1000*1000*1000);
    ("p", 1000*1000*1000*1000*1000); ("e", 1000*1000*1000*1000*1000*1000);
    ("K", 1000); ("M", 1000*1000); ("G", 1000*1000*1000); ("T", 1000*1000*1000*1000);
    ("P", 1000*1000*1000*1000*1000); ("E", 1000*1000*1000*1000*1000*1000) ].

(** [SI_SUFFIXES['binary']] and [SI_SUFFIXES['decimal']], chosen by [use1024]. *)
Definition SI_SUFFIXES (use1024 : bool) : dict :=
  if use1024 then SI_SUFFIXES_binary else SI_SUFFIXES_decimal.

(** A cell of an object column after [replace]: still text, or the integer
    that took its place. *)
Inductive obj : Type :=
| OStr (s : string)
| OInt (z : Z).

(** [Series.replace(to_replace=d)]: a cell equal to a key becomes that key's
    value. *)
Definition replace (d : dict) (v : list cell) : list (option obj) :=
  map (option_map (fun s => match dict_get d s with
                            | Some z => OInt z
                            | None => OStr s
                            end)) v.

(** [^([0-9.]+) ?([kmgtpeKMGTPE]?)$] *)
Definition re_norm_si (s : string) : option (string * string) :=
  match re_plus is_digit_or_dot s with
  | None => None
  | Some (g1, r) =>
      let '(_, r) := re_opt is_space r in
      let '(g2, r) := re_opt is_si_letter r in
      if re_end r then Some (g1, g2) else None
  end.

(** [^([0-9.]+ ?[kmgtpeKMGTPE]?)([cnCN]?)$] *)
Definition re_memory (s : string) : option (string * string) :=
  match re_plus is_digit_or_dot s with
  | None => None
  | Some (n, r) =>
      let '(sp, r) := re_opt is_space r in
      let '(u, r) := re_opt is_si_letter r in
      let '(g2, r) := re_opt is_cn_letter r in
      if re_end r then Some (n ++ sp ++ u, g2) else None
  end.

(** [v.str.extract(pat)] for a pattern with two groups: the two columns of
    the frame.  A cell that is missing or does not match is missing in both. *)
Definition str_extract (re : string -> option (string * string)) (v : list cell)
  : list cell * list cell :=
  let m := map (fun c => match c with None => None | Some s => re s end) v in
  (map (option_map fst) m, map (option_map snd) m).

(** The dtype of a numeric result column. *)
Inductive series : Type :=
| Float64 (x : list (option Q))
| Int64 (x : list (option Z)).


Definition int64_min : Z := - 2 ^ 63.
Definition int64_max : Z := 2 ^ 63 - 1.
Definition in_int64 (z : Z) : bool := ((int64_min <=? z) && (z <=? int64_max))%Z.

Definition is_integral (q : Q) : bool := Qeq_bool q (inject_Z (Qfloor q)).

(** [x.astype("Int64")] of a float column: allowed when every present value
    is a whole number an int64 holds, a TypeError otherwise. *)
Definition astype_Int64 (x : list (option Q)) : result (list (option Z)) :=
  if forallb (fun c => match c with
                       | None => true
                       | Some q => is_integral q && in_int64 (Qfloor q)
                       end) x
  then Return (map (option_map Qfloor) x)
  else Raise (TypeError CannotSafelyCast).

(** [x.round()] *)
Definition series_round (x : list (option Q)) : list (option Q) :=
  map (option_map (fun q => inject_Z (round_half_even q))) x.

Section Coercers.

(** What [pd.to_numeric(..., errors='coerce')] reads from one string cell:
    [None] when it coerces the cell to NaN. *)
Variable numeric_of_string : string -> option Q.

(** What [pd.to_datetime(..., errors='coerce')] reads from one string cell. *)
Variable datetime : Type.
Variable datetime_of_string : string -> option datetime.

Definition to_numeric_cell (c : option obj) : option Q :=
  match c with
  | None => None
  | Some (OInt z) => Some (inject_Z z)
  | Some (OStr s) => numeric_of_string s
  end.

Definition pd_to_numeric (v : list (option obj)) : list (option Q) :=
  map to_numeric_cell v.

Definition col_mul (a b : list (option Q)) : list (option Q) :=
  map2 (fun x y => match x, y with
                   | Some p, Some q => Some (p * q)%Q
                   | _, _ => None
                   end) a b.

Definition col_div (a : list (option Q)) (d : Z) : list (option Q) :=
  map (option_map (fun p => (p / inject_Z d)%Q)) a.

(** The SI-suffix parser.  ([matches[1].replace(..., inplace=True)] is read
    as replacing the cells of the frame's column.) *)
Definition util_norm_si (v : list cell) (convert_to_int : bool) (return_in : string)
    (check_na : string) (na_is : option (list string)) (use1024 : bool) : Py series :=
  let matches := str_extract re_norm_si v in
  let si_suffixes := SI_SUFFIXES use1024 in
  let matches1 := replace si_suffixes (snd matches) in
  let x := col_mul (pd_to_numeric (map (option_map OStr) (fst matches)))
                   (pd_to_numeric matches1) in
  util_check_na v x na_is check_na ;;;
  x <- (if negb (return_in =? "") then
          match dict_get si_suffixes return_in with
          | None => raise (ValueError (IncorrectReturnIn return_in))
          | Some f => ret (col_div x f)
          end
        else ret x) ;;
  if convert_to_int then
    x <- lift (astype_Int64 (series_round x)) ;;
    ret (Int64 x)
  else ret (Float64 x).

(** The memory parser. *)
Definition util_memory (v : list cell) (convert_to_int : bool) (return_in : string)
    (check_na : string) (na_is : option (list string)) (use1024 : bool)
  : Py (series * list bool) :=
  let matches := str_extract re_memory v in
  x <- util_norm_si (fst matches) convert_to_int return_in check_na na_is use1024 ;;
  let c := isin (snd matches) ["c"; "C"] in
  ret (x, c).

Definition util_to_int (v : list cell) (check_na : string) (na_is : option (list string))
    (round : bool) : Py (list (option Z)) :=
  let x := pd_to_numeric (map (option_map OStr) v) in
  let x := if round then series_round x else x in
  x <- lift (astype_Int64 x) ;;
  util_check_na v x na_is check_na ;;;
  ret x.

Definition util_to_float (v : list cell) (check_na : string) (na_is : option (list string))
  : Py (list (option Q)) :=
  let x := pd_to_numeric (map (option_map OStr) v) in
  util_check_na v x na_is check_na ;;;
  ret x.

Definition util_to_str (v : list cell) (check_na : string) (na_is : option (list string))
  : list cell := v.

Definition util_to_str_unk (v : list cell) (check_na : string) (na_is : option (list string))
  : list cell := v.

(** [v.astype(dtype='category')] keeps every cell's value; only the dtype of
    the column changes. *)
Definition util_factorize (v : list cell) (check_na : string) (na_is : option (list string))
  : Py (list cell) :=
  let x := v in
  util_check_na v x na_is check_na ;;;
  ret x.

Definition util_slurm_datetime_to_datetime (v : list cell) (check_na : string)
    (na_is : option (list string)) : Py (list (option datetime)) :=
  let x := map (fun c => match c with None => None | Some s => datetime_of_string s end) v in
  util_check_na v x na_is check_na ;;;
  ret x.

End Coercers.

(** ** Durations: [datetime.timedelta] *)

(** A [datetime.timedelta], normalised as Python keeps it:
    [0 <= seconds < 86400] and [0 <= microseconds < 1000000]. *)
Record timedelta : Type := mk_timedelta {
  td_days : Z;
  td_seconds : Z;
  td_microseconds : Z
}.

Definition total_microseconds (t : timedelta) : Z :=
  (td_days t * 86400 + td_seconds t) * 1000000 + td_microseconds t.

Definition rbind {A B} (m : result A) (k : A -> result B) : result B :=
  match m with
  | Return a => k a
  | Raise e => Raise e
  end.

Notation "x <~ m ;; k" := (rbind m (fun x => k))
  (at level 61, m at next level, right associativity).

(** [int(s)] *)
Definition int_ (s : string) : result Z :=
  match py_int s with
  | Some z => Return z
  | None => Raise (ValueError (InvalidLiteralForInt s))
  end.

(** [float(s)] on text over [[0-9.]]. *)
Definition float_ (s : string) : result Q :=
  match decimal_literal s with
  | Some q => Return q
  | None => Raise (ValueError (CouldNotConvertToFloat s))
  end.

(** The whole part of a number, towards zero ([math.modf], a C cast). *)
Definition trunc (q : Q) : Z := if Qle_bool 0 q then Qfloor q else Qceiling q.

(** [datetime.timedelta(days=, hours=, minutes=, seconds=)] with integer
    days, hours and minutes and float seconds: the fraction of a second is
    rounded to a whole microsecond (a tie to the even one) and the total is
    normalised; more than 999999999 days either way is an OverflowError. *)
Definition datetime_timedelta (days hours minutes : Z) (seconds : Q) : result timedelta :=
  let whole := trunc seconds in
  let secondsfrac := (seconds - inject_Z whole)%Q in
  let us := round_half_even (secondsfrac * 1000000)%Q in
  let total := (((days * 24 + hours) * 60 + minutes) * 60 + whole) * 1000000 + us in
  let d := total / 86400000000 in
  if (Z.abs d >? 999999999)%Z then Raise OverflowError
  else Return {| td_days := d;
                 td_seconds := (total mod 86400000000) / 1000000;
                 td_microseconds := total mod 1000000 |}.

(** The patterns of the duration parsers.  Each returns its groups and, last,
    the text after the match: nothing, or the final line feed [$] stopped at. *)

(** [^(\d+)-(\d+):(\d+):([0-9.]+)$] *)
Definition re_dhms (v : string) : option (string * string * string * string * string) :=
  '(g1, r) <-? re_plus is_digit v ;;
  'r <-? re_lit "-" r ;;
  '(g2, r) <-? re_plus is_digit r ;;
  'r <-? re_lit ":" r ;;
  '(g3, r) <-? re_plus is_digit r ;;
  'r <-? re_lit ":" r ;;
  '(g4, r) <-? re_plus is_digit_or_dot r ;;
  if re_end r then Some (g1, g2, g3, g4, r) else None.

(** [^(\d+)-(\d+):(\d+)$] *)
Definition re_dhm (v : string) : option (string * string * string * string) :=
  '(g1, r) <-? re_plus is_digit v ;;
  'r <-? re_lit "-" r ;;
  '(g2, r) <-? re_plus is_digit r ;;
  'r <-? re_lit ":" r ;;
  '(g3, r) <-? re_plus is_digit r ;;
  if re_end r then Some (g1, g2, g3, r) else None.

(** [^(\d+)-(\d+)$] *)
Definition re_dh (v : string) : option (string * string * string) :=
  '(g1, r) <-? re_plus is_digit v ;;
  'r <-? re_lit "-" r ;;
  '(g2, r) <-? re_plus is_digit r ;;
  if re_end r then Some (g1, g2, r) else None.

(** [^(\d+):(\d+):([0-9.]+)$] *)
Definition re_hms (v : string) : option (string * string * string * string) :=
  '(g1, r) <-? re_plus is_digit v ;;
  'r <-? re_lit ":" r ;;
  '(g2, r) <-? re_plus is_digit r ;;
  'r <-? re_lit ":" r ;;
  '(g3, r) <-? re_plus is_digit_or_dot r ;;
  if re_end r then Some (g1, g2, g3, r) else None.

(** [^(\d+):([0-9.]+)$] *)
Definition re_ms (v : string) : option (string * string * string) :=
  '(g1, r) <-? re_plus is_digit v ;;
  'r <-? re_lit ":" r ;;
  '(g2, r) <-? re_plus is_digit_or_dot r ;;
  if re_end r then Some (g1, g2, r) else None.

(** [^(\d+)$] *)
Definition re_m (v : string) : option (string * string) :=
  '(g1, r) <-? re_plus is_digit v ;;
  if re_end r then Some (g1, r) else None.

(** The scalar duration parser. *)
Definition util_slurm_duration_to_timedelta (v : string) : result (option timedelta) :=
  (* days-hours:minutes:seconds *)
  match re_dhms v with
  | Some (g1, g2, g3, g4, _) =>
      d <~ int_ g1 ;; h <~ int_ g2 ;; m <~ int_ g3 ;; s <~ float_ g4 ;;
      t <~ datetime_timedelta d h m s ;; Return (Some t)
  | None =>
  (* days-hours:minutes *)
  match re_dhm v with
  | Some (g1, g2, g3, _) =>
      d <~ int_ g1 ;; h <~ int_ g2 ;; m <~ int_ g3 ;;
      t <~ datetime_timedelta d h m 0 ;; Return (Some t)
  | None =>
  (* days-hours *)
  match re_dh v with
  | Some (g1, g2, _) =>
      d <~ int_ g1 ;; h <~ int_ g2 ;;
      t <~ datetime_timedelta d h 0 0 ;; Return (Some t)
  | None =>
  (* hours:minutes:seconds *)
  match re_hms v with
  | Some (g1, g2, g3, _) =>
      h <~ int_ g1 ;; m <~ int_ g2 ;; s <~ float_ g3 ;;
      t <~ datetime_timedelta 0 h m s ;; Return (Some t)
  | None =>
  (* minutes:seconds *)
  match re_ms v with
  | Some (g1, g2, _) =>
      m <~ int_ g1 ;; s <~ float_ g2 ;;
      t <~ datetime_timedelta 0 0 m s ;; Return (Some t)
  | None =>
  (* minutes *)
  match re_m v with
  | Some (g1, _) =>
      m <~ int_ g1 ;;
      t <~ datetime_timedelta 0 0 m 0 ;; Return (Some t)
  | None =>
      if existsb (String.eqb v) default_na_is then Return None
      else Raise (Exception (UnknownDurationFormat v))
  end end end end end end.

(** ** Durations: [timedelta64[ns]] columns

    A cell of a duration column is a signed 64-bit count of nanoseconds;
    [None] is NaT. *)

Definition timedelta64 := option Z.

(** A [datetime.timedelta] placed in a [timedelta64[ns]] column: exact, when
    the count of nanoseconds fits. *)
Definition to_timedelta64 (t : timedelta) : option Z :=
  let ns := total_microseconds t * 1000 in
  if in_int64 ns && negb (ns =? int64_min)%Z then Some ns else None.

(** [pd.to_timedelta(n, unit=u)] for the units the formatter names. *)
Definition pd_to_timedelta_unit (n : Z) (unit : string) : Z :=
  if (unit =? "days") || (unit =? "D") then n * 86400000000000
  else if unit =? "H" then n * 3600000000000
  else if unit =? "min" then n * 60000000000
  else if unit =? "s" then n * 1000000000
  else n.

(** [v // d] and [v % d] of a duration column by one duration: Python's
    floor division and its remainder. *)
Definition td_floordiv (v : list timedelta64) (d : Z) : list (option Z) :=
  map (option_map (fun t => t / d)) v.

Definition td_mod (v : list timedelta64) (d : Z) : list timedelta64 :=
  map (option_map (fun t => t mod d)) v.

(** [x.astype(str)] of an Int64 column. *)
Definition astype_str (x : list (option Z)) : list string :=
  map (fun c => match c with Some z => py_str z | None => "<NA>" end) x.

Fixpoint zeros (n : nat) : string :=
  match n with
  | O => ""
  | S k => String "0" (zeros k)
  end.

(** [s.zfill(width)]: zeros on the left up to [width], after a sign. *)
Definition zfill (width : nat) (s : string) : string :=
  let pad := zeros (width - String.length s) in
  match s with
  | String c r =>
      if Ascii.eqb c "-" || Ascii.eqb c "+" then String c (pad ++ r) else pad ++ s
  | EmptyString => pad
  end.

Definition str_zfill (width : nat) (x : list string) : list string :=
  map (zfill width) x.

(** [a + b] of two string columns, and of a column and one string. *)
Definition str_add (a b : list string) : list string := map2 String.append a b.
Definition str_add_const (a : list string) (b : string) : list string :=
  map (fun x => x ++ b) a.

(** The duration formatter. *)
Definition util_timedelta_to_slurm_duration (v : list timedelta64) : list string :=
  let days := td_floordiv v (pd_to_timedelta_unit 1 "days") in
  let left := td_mod v (pd_to_timedelta_unit 1 "D") in
  let hours := td_floordiv left (pd_to_timedelta_unit 1 "H") in
  let left := td_mod v (pd_to_timedelta_unit 1 "H") in
  let minutes := td_floordiv left (pd_to_timedelta_unit 1 "min") in
  let left := td_mod v (pd_to_timedelta_unit 1 "min") in
  let seconds := td_floordiv left (pd_to_timedelta_unit 1 "s") in
  let days := str_add_const (astype_str days) "-" in
  let days := mask_assign days (map (fun d => d =? "0-") days) "" in
  let s := str_add (str_add_const
             (str_add (str_add_const
               (str_add days (str_zfill 2 (astype_str hours))) ":")
               (str_zfill 2 (astype_str minutes))) ":")
             (str_zfill 2 (astype_str seconds)) in
  mask_assign s (isna v) "NA".

(** ** The batch duration parser *)

(** [re.sub(pat, repl, s)] for an anchored pattern: the match, when there is
    one, starts the string, and what it leaves follows the replacement. *)
Definition re_sub {G} (re : string -> option (G * string)) (repl : G -> string)
    (s : string) : string :=
  match re s with
  | Some (g, rest) => repl g ++ rest
  | None => s
  end.

(** [v.str.replace(pat, repl, regex=True)] *)
Definition str_replace_re {G} (re : string -> option (G * string)) (repl : G -> string)
    (v : list cell) : list cell :=
  map (option_map (re_sub re repl)) v.

(** Every occurrence of the character [c] becomes the text [t]. *)
Fixpoint replace_char (c : ascii) (t : string) (s : string) : string :=
  match s with
  | EmptyString => ""
  | String x r => if Ascii.eqb x c then t ++ replace_char c t r
                  else String x (replace_char c t r)
  end.

(** [v.str.replace(c, t)] for a pattern of one character. *)
Definition str_replace (c : ascii) (t : string) (v : list cell) : list cell :=
  map (option_map (replace_char c t)) v.

(** *** [pd.to_timedelta] on text

    pandas reads a duration literal one character at a time
    ([parse_timedelta_string]): digits build a number and its fraction,
    letters build a unit, a colon closes a field of [hh:mm:ss], blanks are
    skipped.  The reader's variables are the fields of [reader]; the result
    is a count of nanoseconds. *)

Inductive field : Type := field_h | field_m | field_s.

Record reader : Type := mk_reader {
  neg : bool;
  have_dot : bool;
  have_value : bool;
  have_hhmmss : bool;
  current_unit : option field;
  result_ns : Z;
  number : string;
  frac : string;
  unit_ : string
}.

Definition reader_init : reader :=
  mk_reader false false false false None 0 "" "" "".

Definition to_lower (c : ascii) : ascii :=
  let n := nat_of_ascii c in
  if (65 <=? n)%nat && (n <=? 90)%nat then ascii_of_nat (n + 32) else c.

Fixpoint lower (s : string) : string :=
  match s with
  | EmptyString => ""
  | String c r => String (to_lower c) (lower r)
  end.

(** The units a literal may name, as (nanoseconds per unit, decimals kept of
    a fraction of the unit). *)
Definition parse_timedelta_unit (unit : string) : option (Z * Z) :=
  let u := lower unit in
  let among l := existsb (String.eqb u) l in
  if among ["w"] then Some (604800000000000, 9)
  else if among ["d"; "days"; "day"] then Some (86400000000000, 9)
  else if among ["hours"; "hour"; "hr"; "h"] then Some (3600000000000, 9)
  else if among ["m"; "minute"; "min"; "minutes"; "t"] then Some (60000000000, 9)
  else if among ["s"; "seconds"; "sec"; "second"] then Some (1000000000, 9)
  else if among ["ms"; "milliseconds"; "millisecond"; "milli"; "millis"; "l"] then Some (1000000, 6)
  else if among ["us"; "microseconds"; "microsecond"; "micro"; "micros"; "u"] then Some (1000, 3)
  else if among ["ns"; "nanoseconds"; "nano"; "nanos"; "nanosecond"; "n"] then Some (1, 0)
  else None.

(** [round(q, p)] *)
Definition round_digits (p : Z) (q : Q) : Q :=
  (inject_Z (round_half_even (q * inject_Z (10 ^ p))) / inject_Z (10 ^ p))%Q.

(** [cast_from_unit]: whole part and fraction are scaled apart, the fraction
    after rounding it to [p] decimals; both are cut to whole nanoseconds. *)
Definition cast_from_unit (ts : Q) (mp : Z * Z) : Z :=
  let '(m, p) := mp in
  let base := trunc ts in
  let fr := (ts - inject_Z base)%Q in
  let fr := if (p =? 0)%Z then fr else round_digits p fr in
  base * m + trunc (fr * inject_Z m)%Q.

Definition timedelta_from_spec (number frac unit : string) : option Z :=
  if (unit =? "M") || (unit =? "Y") || (unit =? "y") then None
  else
    'mp <-? parse_timedelta_unit unit ;;
    'ts <-? decimal_literal (number ++ "." ++ frac) ;;
    Some (cast_from_unit ts mp).

Definition timedelta_as_neg (r : Z) (neg : bool) : Z := if neg then - r else r.

Definition snoc (s : string) (c : ascii) : string := s ++ String c "".

(** One character of the literal; [None] is the reader's ValueError. *)
Definition reader_step (st : reader) (c : ascii) : option reader :=
  let '(mk_reader neg have_dot have_value have_hhmmss current_unit result number frac unit) := st in
  if Ascii.eqb c " " || Ascii.eqb c "," then Some st
  else if Ascii.eqb c "+" then Some st
  else if Ascii.eqb c "-" then
    if neg || have_value || have_hhmmss then None
    else Some (mk_reader true have_dot have_value have_hhmmss current_unit result number frac unit)
  else if is_digit c then
    if have_dot then
      if nonempty unit
      then Some (mk_reader neg false have_value have_hhmmss current_unit result (snoc number c) frac unit)
      else Some (mk_reader neg have_dot have_value have_hhmmss current_unit result number (snoc frac c) unit)
    else if negb (nonempty unit)
      then Some (mk_reader neg have_dot have_value have_hhmmss current_unit result (snoc number c) frac unit)
    else
      'r <-? timedelta_from_spec number frac unit ;;
      Some (mk_reader neg have_dot have_value have_hhmmss current_unit
              (result + timedelta_as_neg r neg) (String c "") "" "")
  else if Ascii.eqb c ":" then
    let neg := if have_value then false else neg in
    if nonempty number then
      let '(cu, m) := match current_unit with
                      | None => (field_h, 1000000000 * 3600)
                      | Some field_h => (field_m, 1000000000 * 60)
                      | Some _ => (field_s, 1000000000)
                      end in
      'n <-? py_int number ;;
      Some (mk_reader neg have_dot have_value true (Some cu)
              (result + timedelta_as_neg (n * m) neg) "" frac "")
    else None
  else if Ascii.eqb c "." then
    if nonempty number && match current_unit with Some _ => true | None => false end then
      match current_unit with
      | Some field_m =>
          'n <-? py_int number ;;
          Some (mk_reader neg true true have_hhmmss current_unit
                  (result + timedelta_as_neg (n * 1000000000) neg) "" "" "")
      | _ => None
      end
    else Some (mk_reader neg true have_value have_hhmmss current_unit result number frac unit)
  else Some (mk_reader neg false true have_hhmmss current_unit result number frac (snoc unit c)).

Fixpoint reader_run (st : reader) (ts : string) : option reader :=
  match ts with
  | EmptyString => Some st
  | String c r => 'st' <-? reader_step st c ;; reader_run st' r
  end.

Fixpoint string_firstn (n : nat) (s : string) : string :=
  match n, s with
  | S k, String c r => String c (string_firstn k r)
  | _, _ => ""
  end.

(** What is still pending when the literal ends. *)
Definition reader_finish (st : reader) : option Z :=
  let '(mk_reader neg have_dot have_value have_hhmmss current_unit result number frac unit) := st in
  if have_dot && nonempty unit then
    'r <-? timedelta_from_spec number frac unit ;;
    Some (result + timedelta_as_neg r neg)
  else if have_dot then
    if (nonempty number || nonempty frac) && negb (nonempty unit)
       && match current_unit with None => true | Some _ => false end
    then None
    else
      let n := String.length frac in
      let '(m, frac) :=
        if (0 <? n)%nat && (n <=? 3)%nat then (10 ^ (3 - Z.of_nat n) * 1000 * 1000, frac)
        else if (3 <? n)%nat && (n <=? 6)%nat then (10 ^ (6 - Z.of_nat n) * 1000, frac)
        else if (6 <? n)%nat && (n <=? 9)%nat then (10 ^ (9 - Z.of_nat n), frac)
        else (1, string_firstn 9 frac) in
      'f <-? py_int frac ;;
      Some (result + timedelta_as_neg (f * m) neg)
  else match current_unit with
  | Some cu =>
      match cu with
      | field_m =>
          'n <-? py_int number ;;
          Some (result + timedelta_as_neg (n * 1000000000) neg)
      | _ => None
      end
  | None =>
      if nonempty unit then
        if nonempty number then
          'r <-? timedelta_from_spec number frac unit ;;
          Some (result + timedelta_as_neg r neg)
        else None
      else if negb (nonempty number) then None
      else if have_value then None
      else
        'r <-? timedelta_from_spec number frac "ns" ;;
        Some (result + timedelta_as_neg r neg)
  end.

Definition nat_strings : list string := ["NaT"; "nat"; "NAT"; "nan"; "NaN"; "NAN"].

(** One cell of [pd.to_timedelta(v, errors='coerce')]: the nanoseconds the
    literal denotes, NaT for a missing cell, for a NaT marker, for text the
    reader refuses and for a count an int64 does not hold.  (ISO 8601
    literals, which start with [P], are not covered: they read as NaT here.) *)
Definition to_timedelta_cell (c : cell) : timedelta64 :=
  match c with
  | None => None
  | Some ts =>
      if (ts =? "") || existsb (String.eqb ts) nat_strings then None
      else match ts with
      | String "P" _ => None
      | _ =>
          'st <-? reader_run reader_init ts ;;
          'ns <-? reader_finish st ;;
          if in_int64 ns && negb (ns =? int64_min)%Z then Some ns else None
      end
  end.

Definition pd_to_timedelta (v : list cell) : list timedelta64 :=
  map to_timedelta_cell v.

(** The batch duration parser. *)
Definition util_slurm_duration_to_duration (v : list cell) (check_na : string)
    (na_is : option (list string)) : Py (list timedelta64) :=
  let v := str_replace_re re_m (fun g1 => g1 ++ " m") v in
  let v := str_replace_re re_ms (fun '(g1, g2) => g1 ++ " m " ++ g2 ++ " S") v in
  let v := str_replace_re re_dh (fun '(g1, g2) => g1 ++ " D " ++ g2 ++ " h") v in
  let v := str_replace_re re_dhm
             (fun '(g1, g2, g3) => (g1 ++ "-" ++ g2 ++ ":" ++ g3) ++ ":00") v in
  let v := str_replace "-" " days " v in
  let x := pd_to_timedelta v in
  util_check_na v x na_is check_na ;;;
  ret x.

(** * The helpers around the terminal, files and processes

    [print_progress_bar], [get_file_open], the zstd wrappers
    ([get_find_compressor], [compress], [decompress]) and [eval_shell_cmd]
    act on the world outside the program.  What they do to it is kept as a
    list of effects, in the order they happen; what the world answers is
    taken as given (the Variables of the sections below).  The one global
    the module writes, [ZSTD_LOC], is threaded through every call. *)

(** The exceptions these helpers meet.  [LibraryError] stands for what
    Python's libraries or the system raise on their own account. *)
Inductive failure : Type :=
| ZeroDivisionError
| NotImplementedError (msg : string)
| NameError (name : string)
    (* "name '{name}' is not defined" *)
| FileExistsError
| RaisedException (msg : string)
    (* raise Exception(msg) *)
| LibraryError (name : string).

(** An argument of [print]. *)
Inductive printable : Type :=
| PStr (s : string)
| PInt (n : Z)
| PList (l : list string).

(** The levels at which the helpers log. *)
Inductive log_level : Type := DEBUG | ERROR.

(** What a helper does to the world. *)
Inductive effect : Type :=
| Printed (items : list printable) (end_ : string)
    (* print(items..., end=end_) *)
| Logged (level : log_level) (text : string)
    (* log.debug(text), log.error(text) *)
| Removed (path : string)
    (* os.remove(path) *)
| Started (args : list string) (stdin : option nat)
    (* subprocess.Popen(args, stdin=<stdout of process stdin>, stdout=PIPE) *)
| Communicated (p : nat).
    (* p.communicate() *)

(** A computation: from the value of [ZSTD_LOC] to the effects, the new
    value of [ZSTD_LOC], and the exception raised or the value returned. *)
Definition Sys (A : Type) : Type :=
  option string -> list effect * option string * (failure + A).

Definition sys_ret {A} (a : A) : Sys A := fun z => ([], z, inr a).
Definition sys_raise {A} (e : failure) : Sys A := fun z => ([], z, inl e).
Definition sys_bind {A B} (m : Sys A) (k : A -> Sys B) : Sys B :=
  fun z =>
    match m z with
    | (l, z', inr a) => let '(l', z'', r) := k a z' in ((l ++ l')%list, z'', r)
    | (l, z', inl e) => (l, z', inl e)
    end.
Definition emit (e : effect) : Sys unit := fun z => ([e], z, inr tt).
Definition sys_lift {A} (r : failure + A) : Sys A := fun z => ([], z, r).
Definition get_ZSTD_LOC : Sys (option string) := fun z => ([], z, inr z).
Definition set_ZSTD_LOC (loc : string) : Sys unit := fun _ => ([], Some loc, inr tt).

Declare Scope sys_scope.
Notation "x <- m ;; k" := (sys_bind m (fun x => k))
  (at level 61, m at next level, right associativity) : sys_scope.
Notation "m ;;; k" := (sys_bind m (fun _ => k))
  (at level 61, right associativity) : sys_scope.
Local Open Scope sys_scope.

Definition print (items : list printable) (end_ : string) : Sys unit :=
  emit (Printed items end_).
Definition log_debug (text : string) : Sys unit := emit (Logged DEBUG text).
Definition log_error (text : string) : Sys unit := emit (Logged ERROR text).

(** ** The progress bar *)

Fixpoint repeat_string (n : nat) (s : string) : string :=
  match n with
  | O => ""
  | S k => s ++ repeat_string k s
  end.

(** [s * n]: [n] copies of [s], the empty text when [n] is not positive. *)
Definition str_mul (s : string) (n : Z) : string := repeat_string (Z.to_nat n) s.

(** [a // b] of two integers. *)
Definition floordiv (a b : Z) : Sys Z :=
  if (b =? 0)%Z then sys_raise ZeroDivisionError else sys_ret (a / b).

Definition carriage_return : string := String (ascii_of_nat 13) "".

Section Terminal.

(** [("{0:." + str(decimals) + "f}").format(100 * (iteration / float(total)))]:
    the text Python's float arithmetic and formatting give, or what they
    raise (a division by zero, a float out of range, a precision the format
    refuses). *)
Variable percent_text : Z -> Z -> Z -> failure + string.

(** [print_progress_bar], for integers [iteration], [total] and [length]. *)
Definition print_progress_bar (iteration total : Z) (prefix suffix : string)
    (decimals length : Z) (fill print_end : string) : Sys unit :=
  percent <- sys_lift (percent_text decimals iteration total) ;;
  filled_length <- floordiv (length * iteration) total ;;
  let bar := str_mul fill filled_length ++ str_mul "-" (length - filled_length) in
  print [PStr (carriage_return ++ prefix ++ " |" ++ bar ++ "| " ++ percent ++ "% " ++ suffix)]
        print_end ;;;
  (* Print New Line on Complete *)
  if (iteration =? total)%Z then print [] newline else sys_ret tt.

End Terminal.

(** ** Choosing how to open a file *)

Definition SUPPORTED_COMPRESSION : list string :=
  [".bz2"; ".lz4"; ".xz"; ".gz"; ".zstd"; ".zst"].

(** [p.rfind(c)]: the index of the last [c] in [p], -1 when there is none. *)
Fixpoint rfind_from (c : ascii) (p : string) (i : Z) (last : Z) : Z :=
  match p with
  | EmptyString => last
  | String x r => rfind_from c r (i + 1) (if Ascii.eqb x c then i else last)
  end.

Definition rfind (c : ascii) (p : string) : Z := rfind_from c p 0 (-1).

(** [p[a:b]] and [p[a:]] for indices that are not negative. *)
Definition slice (p : string) (a b : Z) : string :=
  substring (Z.to_nat a) (Z.to_nat b - Z.to_nat a) p.

Definition slice_from (p : string) (a : Z) : string :=
  substring (Z.to_nat a) (String.length p - Z.to_nat a) p.

(** The loop of [genericpath._splitext] that skips the leading dots of the
    file name: [n] indices are left before the last dot; the answer is
    whether one of them holds something else than a dot. *)
Fixpoint name_before_dot (p : string) (filenameIndex : Z) (n : nat) : bool :=
  match n with
  | O => false
  | S k =>
      if negb (slice p filenameIndex (filenameIndex + 1) =? ".") then true
      else name_before_dot p (filenameIndex + 1) k
  end.

(** [os.path.splitext(p)] ([posixpath]): the extension runs from the last
    dot of the last path component, unless only dots come before it there. *)
Definition splitext (p : string) : string * string :=
  let sepIndex := rfind "/" p in
  let dotIndex := rfind "." p in
  if (dotIndex >? sepIndex)%Z
     && name_before_dot p (sepIndex + 1) (Z.to_nat (dotIndex - (sepIndex + 1)))
  then (slice p 0 dotIndex, slice_from p dotIndex)
  else (p, slice p 0 0).

(** The open functions [get_file_open] chooses from. *)
Inductive opener : Type :=
| bz2_open
| lz4_frame_open
| lzma_open
| gzip_open
| zstd_open
| builtin_open.

(** [get_file_open].  (The modules it imports are taken to be installed.) *)
Definition get_file_open (filename : string) : opener :=
  if snd (splitext filename) =? ".bz2" then bz2_open
  else if snd (splitext filename) =? ".lz4" then lz4_frame_open
  else if snd (splitext filename) =? ".xz" then lzma_open
  else if snd (splitext filename) =? ".gz" then gzip_open
  else if existsb (String.eqb (snd (splitext filename))) [".zstd"; ".zst"] then zstd_open
  else builtin_open.

(** ** The zstd wrappers *)

(** What [subprocess.run] returns. *)
Record completed_process : Type := mk_completed_process {
  returncode : Z;
  stdout : string
}.

(** The module imports [subprocess] only inside [eval_shell_cmd], and it has
    no [self]: where the wrappers name them, the names are unbound. *)
Definition subprocess_run (args : list (option string)) : Sys completed_process :=
  sys_raise (NameError "subprocess").

(** [self.attr] *)
Definition self_attr (A : Type) (attr : string) : Sys A :=
  sys_raise (NameError "self").

(** The ASCII characters [str.strip] removes. *)
Definition is_whitespace (c : ascii) : bool :=
  let n := nat_of_ascii c in
  ((9 <=? n) && (n <=? 13) || (28 <=? n) && (n <=? 32))%nat.

Fixpoint lstrip (s : string) : string :=
  match s with
  | String c r => if is_whitespace c then lstrip r else s
  | EmptyString => ""
  end.

Fixpoint rstrip (s : string) : string :=
  match s with
  | String c r =>
      match rstrip r with
      | EmptyString => if is_whitespace c then "" else String c ""
      | r' => String c r'
      end
  | EmptyString => ""
  end.

(** [s.strip()] *)
Definition strip (s : string) : string := rstrip (lstrip s).

(** The text of the NotImplementedError. *)
Definition only_zstd : string := "only zstd implemented so far!".

(** [get_find_compressor] *)
Definition get_find_compressor (compression : string) : Sys (option string) :=
  if negb (compression =? "zstd") then
    loc <- get_ZSTD_LOC ;;
    match loc with
    | None =>
        (* detect zstd *)
        out <- subprocess_run [Some "which"; Some "zstd"] ;;
        (if negb (returncode out =? 0)%Z
         then sys_raise (RaisedException "Can not find zstd binary, install it")
         else sys_ret tt) ;;;
        set_ZSTD_LOC (strip (stdout out)) ;;;
        loc <- get_ZSTD_LOC ;;
        log_debug ("zstd in " ++ match loc with Some l => l | None => "None" end)
    | Some _ => sys_ret tt
    end ;;;
    get_ZSTD_LOC
  else sys_raise (NotImplementedError only_zstd).

(** [f"{x}"] of a value that is an integer or [None]. *)
Definition format_opt (x : option Z) : string :=
  match x with
  | Some n => py_str n
  | None => "None"
  end.

Section Files.

(** [os.path.exists] *)
Variable path_exists : string -> bool.

(** The text logged before FileExistsError. *)
Definition both_exist (filename : string) : string :=
  "Both file " ++ filename ++ " and it compressed version " ++ filename ++ ".zst exist."
  ++ "The compressed might be incomplete. Delete it and try again!".

(** [compress] *)
Definition compress (filename : string) (overwrite : bool) (compressor_loc : option string)
    (compression : string) (keep : bool) (threads : option Z) : Sys unit :=
  if negb (compression =? "zstd") then sys_raise (NotImplementedError only_zstd)
  else
    compressor_loc <- match compressor_loc with
                      | None => get_find_compressor compression
                      | Some _ => sys_ret compressor_loc
                      end ;;
    log_debug ("compressing " ++ filename) ;;;
    (if path_exists (filename ++ ".zst") then
       self_overwrite <- self_attr bool "overwrite" ;;
       if self_overwrite : bool then emit (Removed (filename ++ ".zst"))
       else log_error (both_exist filename) ;;; sys_raise FileExistsError
     else sys_ret tt) ;;;
    let args := [compressor_loc; Some "-19"] in
    let args := if negb keep then (args ++ [Some "--rm"])%list else args in
    let args := (args ++ [Some ("-T" ++ format_opt threads)%string])%list in
    let args := (args ++ [Some filename])%list in
    out <- subprocess_run args ;;
    if negb (returncode out =? 0)%Z then
      print [PStr (stdout out)] newline ;;;
      sys_raise (RaisedException ("Can not compress " ++ filename ++ "!"))
    else sys_ret tt.

(** [decompress] *)
Definition decompress (filename : string) (overwrite : bool) (compressor_loc : option string)
    (compression : string) (keep : bool) (threads : option Z) : Sys unit :=
  if negb (compression =? "zstd") then sys_raise (NotImplementedError only_zstd)
  else
    compressor_loc <- match compressor_loc with
                      | None => get_find_compressor compression
                      | Some _ => sys_ret compressor_loc
                      end ;;
    log_debug ("compressing " ++ filename) ;;;
    (if path_exists (filename ++ ".zst") then
       self_overwrite <- self_attr bool "overwrite" ;;
       if self_overwrite : bool then emit (Removed (filename ++ ".zst"))
       else log_error (both_exist filename) ;;; sys_raise FileExistsError
     else sys_ret tt) ;;;
    let args := [compressor_loc; Some "-19"] in
    let args := if negb keep then (args ++ [Some "--rm"])%list else args in
    threads_per_file <- self_attr (option Z) "threads_per_file" ;;
    let args := (args ++ [Some ("-T" ++ format_opt threads_per_file)%string])%list in
    let args := (args ++ [Some filename])%list in
    out <- subprocess_run args ;;
    if negb (returncode out =? 0)%Z then
      print [PStr (stdout out)] newline ;;;
      sys_raise (RaisedException ("Can not compress " ++ filename ++ "!"))
    else sys_ret tt.

End Files.

(** ** Shell pipelines *)

(** [s.split(sep)] for a separator of one character: the pieces between the
    separators, one more than there are separators. *)
Fixpoint str_split (sep : ascii) (s : string) : list string :=
  match s with
  | EmptyString => [""]
  | String c r =>
      if Ascii.eqb c sep then "" :: str_split sep r
      else match str_split sep r with
           | x :: l => String c x :: l
           | [] => [String c ""]
           end
  end.

Section Processes.

(** What [subprocess.Popen] raises when the system does not start the
    program, if it does not. *)
Variable popen_error : list string -> option failure.

(** The output of the last process of a pipeline, decoded as UTF-8, or what
    [communicate] or [decode] raise. *)
Variable piped_output : list (list string) -> failure + string.

(** [subprocess.Popen(args, stdin=..., stdout=subprocess.PIPE)] *)
Definition Popen (args : list string) (stdin : option nat) : Sys unit :=
  match popen_error args with
  | Some e => sys_raise e
  | None => emit (Started args stdin)
  end.

(** The loop of [eval_shell_cmd] from position [index] on; [started] holds
    the argument lists of the processes started so far.  A loop that ends
    without returning leaves the function with [None]. *)
Fixpoint eval_shell_loop (debug : bool) (len : nat) (index : nat) (values : list string)
    (started : list (list string)) : Sys (option (string * option string)) :=
  match values with
  | [] => sys_ret None
  | value :: values' =>
      let args := str_split " " value in
      (if debug then print [PInt (Z.of_nat index); PList args] newline else sys_ret tt) ;;;
      (if (index =? 0)%nat then Popen args None
       else Popen args (Some (index - 1)%nat)) ;;;
      if (Z.of_nat index =? Z.of_nat len - 1)%Z then
        emit (Communicated index) ;;;
        result <- sys_lift (piped_output (started ++ [args])) ;;
        sys_ret (Some (result, None))
      else eval_shell_loop debug len (S index) values' (started ++ [args])
  end.

(** [eval_shell_cmd] *)
Definition eval_shell_cmd (command : string) (debug : bool)
  : Sys (option (string * option string)) :=
  let processes := str_split "|" command in
  (if debug then print [PStr "Processes:"; PList processes] newline else sys_ret tt) ;;;
  eval_shell_loop debug (List.length processes) 0 processes [].

End Processes.

Local Close Scope sys_scope.

(** * Notions the properties are stated with *)

(** What follows a run of [cls] does not continue it. *)
Definition stops (cls : ascii -> bool) (rest : string) : bool :=
  match rest with
  | EmptyString => true
  | String c _ => negb (cls c)
  end.

(** The digits of a decimal numeral, most significant first, folded the way
    [int_acc] folds the characters. *)
Fixpoint horner (d : Decimal.uint) (acc : Z) : Z :=
  match d with
  | Nil => acc
  | D0 d => horner d (10 * acc + 0)
  | D1 d => horner d (10 * acc + 1)
  | D2 d => horner d (10 * acc + 2)
  | D3 d => horner d (10 * acc + 3)
  | D4 d => horner d (10 * acc + 4)
  | D5 d => horner d (10 * acc + 5)
  | D6 d => horner d (10 * acc + 6)
  | D7 d => horner d (10 * acc + 7)
  | D8 d => horner d (10 * acc + 8)
  | D9 d => horner d (10 * acc + 9)
  end.

(** The character of a decimal digit. *)
Definition digit_char (n : Z) : ascii := ascii_of_nat (48 + Z.to_nat n).

(** A number below 100 in two decimal digits. *)
Definition two_digits (n : Z) : string :=
  String (digit_char (n / 10)) (String (digit_char (n mod 10)) "").

(** The canonical form [D-HH:MM:SS] of a duration of [t] nanoseconds, in the
    words of the specification: the whole seconds of [t] split into days,
    hours of the day, minutes of the hour and seconds of the minute; the
    three last in two digits each; the [D-] part left out when there are no
    days. *)
Definition canonical_form (t : Z) : string :=
  let secs := t / 1000000000 in
  let D := secs / 86400 in
  let h := (secs / 3600) mod 24 in
  let m := (secs / 60) mod 60 in
  let s := secs mod 60 in
  (if (D =? 0)%Z then "" else py_str D ++ "-")
  ++ two_digits h ++ ":" ++ two_digits m ++ ":" ++ two_digits s.

(** The text of one cell of a duration column. *)
Definition format_cell (c : timedelta64) : string :=
  match c with
  | None => "NA"
  | Some t => canonical_form t
  end.



(** The thirteen suffixes. *)
Definition si_suffix_list : list string :=
  [""; "k"; "K"; "m"; "M"; "g"; "G"; "t"; "T"; "p"; "P"; "e"; "E"].




Section CellFunctions.

(** What [pd.to_numeric(..., errors='coerce')] reads from one string cell. *)
Variable numeric_of_string : string -> option Q.

(** What the SI parser makes of one cell before validation, rescaling and
    rounding: the product of the number and of the factor its suffix was
    replaced with. *)
Definition si_cell (use1024 : bool) (c : cell) : option Q :=
  let m := match c with None => None | Some s => re_norm_si s end in
  match to_numeric_cell numeric_of_string (option_map OStr (option_map fst m)),
        to_numeric_cell numeric_of_string
          (option_map (fun s => match dict_get (SI_SUFFIXES use1024) s with
                                | Some z => OInt z
                                | None => OStr s
                                end) (option_map snd m))
  with
  | Some p, Some q => Some (p * q)%Q
  | _, _ => None
  end.

(** What [pd.to_numeric] makes of one cell of a string column. *)
Definition numeric_cell (c : cell) : option Q :=
  match c with
  | None => None
  | Some s => numeric_of_string s
  end.

End CellFunctions.







(** What the batch duration parser rewrites one cell to before pandas reads
    it. *)
Definition duration_literal (s : string) : string :=
  replace_char "-" " days "
    (re_sub re_dhm (fun '(g1, g2, g3) => (g1 ++ "-" ++ g2 ++ ":" ++ g3) ++ ":00")
       (re_sub re_dh (fun '(g1, g2) => g1 ++ " D " ++ g2 ++ " h")
          (re_sub re_ms (fun '(g1, g2) => g1 ++ " m " ++ g2 ++ " S")
             (re_sub re_m (fun g1 => g1 ++ " m") s)))).

(** What the batch duration parser makes of one cell. *)
Definition duration_cell (c : cell) : timedelta64 :=
  to_timedelta_cell (option_map duration_literal c).

(** The two groups of the memory pattern on one cell: the text handed to the
    SI parser, and the flag. *)
Definition memory_magnitude (c : cell) : cell :=
  match c with
  | None => None
  | Some s => option_map fst (re_memory s)
  end.


(** A field of digits: one decimal digit or more. *)
Definition digits (s : string) : Prop :=
  all_chars is_digit s = true /\ nonempty s = true.

(** [round_half_even] of the fraction [n/p], in integers. *)
Definition rhe (n : Z) (p : positive) : Z :=
  let f := n / Zpos p in
  match (2 * (n mod Zpos p) ?= Zpos p)%Z with
  | Lt => f
  | Gt => f + 1
  | Eq => if Z.even f then f else f + 1
  end.

(** The microseconds a breakdown into days, hours, minutes and seconds
    amounts to, the seconds rounded to whole microseconds. *)
Definition us_of_fields (d h m : Z) (q : Q) : Z :=
  d * 86400000000 + h * 3600000000 + m * 60000000 + round_half_even (q * 1000000)%Q.

(** The normal form Python keeps a [datetime.timedelta] in. *)
Definition normalised (t : timedelta) : Prop :=
  0 <= td_seconds t < 86400 /\ 0 <= td_microseconds t < 1000000.

(** A duration within what [datetime.timedelta] holds. *)
Definition timedelta_range (us : Z) : Prop :=
  0 <= us < 1000000000 * 86400000000.

(** The duration of a breakdown into fields, as the parser builds it. *)
Definition of_fields (d h m : Z) (q : Q) : result (option timedelta) :=
  t <~ datetime_timedelta d h m q ;; Return (Some t).


(** Character classes of the proofs about the batch parser. *)
Definition not_dash (c : ascii) : bool := negb (Ascii.eqb c "-").

Definition is_letter (c : ascii) : bool :=
  let n := nat_of_ascii c in
  ((65 <=? n) && (n <=? 90) || (97 <=? n) && (n <=? 122))%nat.

(** The whole of the reader: the characters, then what is pending. *)
Definition read (ts : string) : option Z :=
  'st <-? reader_run reader_init ts ;; reader_finish st.

(** A count of nanoseconds a [timedelta64[ns]] cell holds (the least int64
    is NaT). *)
Definition in_timedelta64 (ns : Z) : bool := in_int64 ns && negb (ns =? int64_min)%Z.


(** The markers a call of the validator accepts. *)
Definition markers (na_is : option (list string)) : list string :=
  match na_is with
  | None => default_na_is
  | Some l => l
  end.

(** A row the validator reports: the converted cell is missing and the
    original cell is no marker (a missing original cell is none either). *)
Definition reported {A} (na : list string) (row : cell * option A) : bool :=
  match row with
  | (Some s, None) => negb (existsb (String.eqb s) na)
  | (None, None) => true
  | (_, Some _) => false
  end.

(** The original cells of the rows reported, in the order of the column. *)
Definition reported_cells {A} (na : list string) (v : list cell) (x : list (option A))
  : list cell :=
  map fst (filter (reported na) (combine v x)).

(** Each text is below the next one, in the order of the characters. *)
Fixpoint increasing (l : list string) : bool :=
  match l with
  | a :: r => match r with
              | b :: _ => String.ltb a b && increasing r
              | [] => true
              end
  | [] => true
  end.

(** A pattern matched. *)
Definition is_some {A} (o : option A) : bool :=
  match o with
  | Some _ => true
  | None => false
  end.

(** How many of the six duration patterns match a text. *)
Definition patterns_matching (v : string) : nat :=
  List.length (filter (fun b : bool => b)
    [is_some (re_dhms v); is_some (re_dhm v); is_some (re_dh v);
     is_some (re_hms v); is_some (re_ms v); is_some (re_m v)]).

(** The stages of a pipeline: the pieces of the command between bars, each
    cut at every blank. *)
Definition stages (command : string) : list (list string) :=
  map (str_split " ") (str_split "|" command).

(** How often a character occurs in a text. *)
Fixpoint count_char (c : ascii) (s : string) : nat :=
  match s with
  | EmptyString => O
  | String x r => if Ascii.eqb x c then S (count_char c r) else count_char c r
  end.

(** The processes of a pipeline as they are started: the first reads what
    the caller reads, each next one the output of the one before it. *)
Fixpoint started_from (index : nat) (l : list (list string)) : list effect :=
  match l with
  | [] => []
  | args :: r =>
      Started args (match index with O => None | S i => Some i end)
      :: started_from (S index) r
  end.

(** The extension separator. *)
Definition is_dot (c : ascii) : bool := Ascii.eqb c ".".

(** The opener of an extension, written without its dot. *)
Definition opener_of (e : string) : opener :=
  if e =? "bz2" then bz2_open
  else if e =? "lz4" then lz4_frame_open
  else if e =? "xz" then lzma_open
  else if e =? "gz" then gzip_open
  else if (e =? "zstd") || (e =? "zst") then zstd_open
  else builtin_open.

(** What a run did apart from printing. *)
Definition without_prints (l : list effect) : list effect :=
  filter (fun e => match e with Printed _ _ => false | _ => true end) l.

(** * Properties *)

(** ** Worked calls *)

Example norm_si_12M_decimal :
  util_norm_si decimal_literal [Some "12M"] true "" "ignore" None false
  = ([], Return (Int64 [Some 12000000])).
Proof. vm_compute. reflexivity. Qed.

Example norm_si_12M_binary :
  util_norm_si decimal_literal [Some "12M"] true "" "ignore" None true
  = ([], Return (Int64 [Some 12582912])).
Proof. vm_compute. reflexivity. Qed.

Example memory_examples :
  util_memory decimal_literal [Some "1.5Gc"; Some "2G"] true "" "ignore" None true
  = ([], Return (Int64 [Some 1610612736; Some 2147483648], [true; false])).
Proof. vm_compute. reflexivity. Qed.

Example duration_examples :
  util_slurm_duration_to_timedelta "2-03:04:05" = Return (Some (mk_timedelta 2 11045 0))
  /\ util_slurm_duration_to_timedelta "10" = Return (Some (mk_timedelta 0 600 0))
  /\ util_slurm_duration_to_timedelta "" = Return None
  /\ util_slurm_duration_to_timedelta "bogus" = Raise (Exception (UnknownDurationFormat "bogus")).
Proof. repeat split; vm_compute; reflexivity. Qed.

Example formatter_examples :
  util_timedelta_to_slurm_duration
    [Some 0; None; Some 183845000000000; Some 600000000000; Some (-1000000000)]
  = ["00:00:00"; "NA"; "2-03:04:05"; "00:10:00"; "-1-23:59:59"].
Proof. vm_compute. reflexivity. Qed.

Example batch_examples :
  util_slurm_duration_to_duration
    [Some "10"; Some "5:30.5"; Some "2-03"; Some "2-03:04"; Some "2-03:04:05";
     Some "03:04:05.25"; Some ""; Some "bogus"; None] "ignore" None
  = ([], Return [Some 600000000000; Some 330500000000; Some 183600000000000;
                 Some 183840000000000; Some 183845000000000; Some 11045250000000;
                 None; None; None]).
Proof. vm_compute. reflexivity. Qed.

(** ** Text and the pattern combinators *)

Lemma append_nil_r (s : string) : s ++ "" = s.
Proof. induction s as [|c s IH]; simpl; [reflexivity | now rewrite IH]. Qed.

Lemma append_assoc (a b c : string) : (a ++ b) ++ c = a ++ b ++ c.
Proof. induction a as [|x a IH]; simpl; [reflexivity | now rewrite IH]. Qed.

Lemma length_append (a b : string) :
  String.length (a ++ b) = (String.length a + String.length b)%nat.
Proof. induction a as [|x a IH]; simpl; [reflexivity | now rewrite IH]. Qed.

Lemma nonempty_cons (c : ascii) (s : string) : nonempty (String c s) = true.
Proof. reflexivity. Qed.

Lemma nonempty_append_l (a b : string) : nonempty a = true -> nonempty (a ++ b) = true.
Proof. destruct a; simpl; [discriminate | reflexivity]. Qed.

Lemma all_chars_append cls (a b : string) :
  all_chars cls (a ++ b) = all_chars cls a && all_chars cls b.
Proof.
  induction a as [|x a IH]; simpl; [reflexivity|].
  rewrite IH. now rewrite andb_assoc.
Qed.

Lemma all_chars_weaken (p q : ascii -> bool) (s : string) :
  (forall c, p c = true -> q c = true) ->
  all_chars p s = true -> all_chars q s = true.
Proof.
  intros Hpq. induction s as [|c s IH]; simpl; [reflexivity|].
  intros H. apply andb_true_iff in H as [Hc Hs].
  now rewrite (Hpq c Hc), IH.
Qed.

Lemma digits_are_digit_or_dot (s : string) :
  all_chars is_digit s = true -> all_chars is_digit_or_dot s = true.
Proof.
  apply all_chars_weaken. intros c Hc. unfold is_digit_or_dot. now rewrite Hc.
Qed.

Lemma span_app cls (a rest : string) :
  all_chars cls a = true -> stops cls rest = true ->
  span cls (a ++ rest) = (a, rest).
Proof.
  intros Ha Hr. induction a as [|c a IH]; simpl in *.
  - destruct rest as [|c r]; simpl in *; [reflexivity|].
    apply negb_true_iff in Hr. now rewrite Hr.
  - apply andb_true_iff in Ha as [Hc Ha]. rewrite Hc, (IH Ha). reflexivity.
Qed.

Lemma re_plus_app cls (a rest : string) :
  all_chars cls a = true -> nonempty a = true -> stops cls rest = true ->
  re_plus cls (a ++ rest) = Some (a, rest).
Proof.
  intros Ha Hne Hr. unfold re_plus. rewrite (span_app cls a rest Ha Hr).
  destruct a; [discriminate | reflexivity].
Qed.

Lemma re_plus_all cls (a : string) :
  all_chars cls a = true -> nonempty a = true ->
  re_plus cls a = Some (a, "").
Proof.
  intros Ha Hne. rewrite <- (append_nil_r a) at 1.
  now apply re_plus_app.
Qed.

(** What [span] splits off satisfies the class, what it leaves does not go
    on, and the two parts make up the text. *)
Lemma span_spec cls (s : string) :
  let '(a, b) := span cls s in
  s = a ++ b /\ all_chars cls a = true /\ stops cls b = true.
Proof.
  induction s as [|c s IH]; simpl.
  - repeat split.
  - destruct (cls c) eqn:Hc.
    + destruct (span cls s) as [a b]. destruct IH as (-> & Ha & Hb).
      simpl. rewrite Hc, Ha. repeat split. exact Hb.
    + simpl. rewrite Hc. repeat split.
Qed.

Lemma re_plus_spec cls (s a b : string) :
  re_plus cls s = Some (a, b) ->
  s = a ++ b /\ all_chars cls a = true /\ nonempty a = true /\ stops cls b = true.
Proof.
  unfold re_plus. intros H. pose proof (span_spec cls s) as Hs.
  destruct (span cls s) as [a' b']. destruct Hs as (-> & Ha & Hb).
  destruct a' as [|c a']; [discriminate|]. inversion H; subst.
  repeat split; assumption.
Qed.

(** ** Reading and printing integers *)

Lemma is_digit_range (c : ascii) :
  is_digit c = true -> 0 <= digit_of c <= 9.
Proof.
  unfold is_digit, digit_of. intros H. apply andb_true_iff in H as [H1 H2].
  apply Nat.leb_le in H1, H2. lia.
Qed.


Lemma int_acc_shift (acc : Z) (s : string) :
  int_acc acc s = acc * 10 ^ Z.of_nat (String.length s) + int_acc 0 s.
Proof.
  revert acc. induction s as [|c s IH]; intros acc.
  - simpl. lia.
  - cbn [int_acc String.length]. rewrite IH, (IH (10 * 0 + digit_of c)).
    rewrite Nat2Z.inj_succ, Z.pow_succ_r by lia. ring.
Qed.


Lemma digits_value_bounds (s : string) :
  all_chars is_digit s = true ->
  0 <= digits_value s < 10 ^ Z.of_nat (String.length s).
Proof.
  unfold digits_value. induction s as [|c s IH]; intros H.
  - simpl. lia.
  - cbn [all_chars] in H. apply andb_true_iff in H as [Hc Hs].
    specialize (IH Hs). pose proof (is_digit_range c Hc) as Hd.
    cbn [int_acc String.length]. rewrite int_acc_shift.
    rewrite Nat2Z.inj_succ, Z.pow_succ_r by lia.
    replace (10 * 0 + digit_of c) with (digit_of c) by lia.
    nia.
Qed.

Lemma py_int_digits (s : string) :
  all_chars is_digit s = true -> nonempty s = true ->
  py_int s = Some (digits_value s).
Proof. intros H1 H2. unfold py_int. now rewrite H1, H2. Qed.

Lemma int_digits (s : string) :
  all_chars is_digit s = true -> nonempty s = true ->
  int_ s = Return (digits_value s).
Proof. intros H1 H2. unfold int_. now rewrite py_int_digits. Qed.

Lemma int_acc_string_of_uint (d : Decimal.uint) (acc : Z) :
  int_acc acc (NilEmpty.string_of_uint d) = horner d acc.
Proof.
  revert acc. induction d; intros acc; simpl; try reflexivity;
    rewrite IHd; reflexivity.
Qed.

Lemma string_of_uint_digits (d : Decimal.uint) :
  all_chars is_digit (NilEmpty.string_of_uint d) = true.
Proof. induction d; simpl; auto. Qed.

Lemma horner_of_uint_acc (d : Decimal.uint) (p : positive) :
  horner d (Zpos p) = Zpos (Pos.of_uint_acc d p).
Proof.
  revert p. induction d; intros p; cbn [horner Pos.of_uint_acc]; try reflexivity;
    rewrite <- IHd; f_equal; lia.
Qed.

Lemma horner_of_uint (d : Decimal.uint) :
  horner d 0 = Z.of_N (Pos.of_uint d).
Proof.
  induction d; simpl; try reflexivity; try assumption;
    apply (horner_of_uint_acc d).
Qed.

Lemma py_str_pos (p : positive) :
  py_str (Zpos p) = NilEmpty.string_of_uint (Pos.to_uint p).
Proof.
  unfold py_str. simpl. unfold NilZero.string_of_uint.
  pose proof (DecimalPos.Unsigned.to_uint_nonnil p) as H.
  destruct (Pos.to_uint p); [contradiction | reflexivity ..].
Qed.

Lemma py_str_digits (n : Z) :
  0 <= n -> all_chars is_digit (py_str n) = true /\ nonempty (py_str n) = true.
Proof.
  intros Hn. destruct n as [|p|p]; [split; reflexivity | | lia].
  rewrite py_str_pos. split; [apply string_of_uint_digits|].
  pose proof (DecimalPos.Unsigned.to_uint_nonnil p) as H.
  destruct (Pos.to_uint p); [contradiction | reflexivity ..].
Qed.

Lemma digits_value_py_str (n : Z) : 0 <= n -> digits_value (py_str n) = n.
Proof.
  intros Hn. destruct n as [|p|p]; [reflexivity | | lia].
  rewrite py_str_pos. unfold digits_value.
  rewrite int_acc_string_of_uint, horner_of_uint, DecimalPos.Unsigned.of_to.
  reflexivity.
Qed.

Lemma py_int_py_str (n : Z) : 0 <= n -> py_int (py_str n) = Some n.
Proof.
  intros Hn. destruct (py_str_digits n Hn) as [H1 H2].
  now rewrite py_int_digits, digits_value_py_str.
Qed.

Lemma py_str_zero (n : Z) : (py_str n =? "0") = (n =? 0)%Z.
Proof.
  destruct n as [|p|p]; [reflexivity | | reflexivity].
  destruct (py_str (Z.pos p) =? "0") eqn:E; [|reflexivity].
  apply String.eqb_eq in E.
  pose proof (digits_value_py_str (Z.pos p) ltac:(lia)) as H.
  rewrite E in H. discriminate.
Qed.

(** ** The NA validator *)

(** C2 (the code departs from the claim).  Under the policy [ignore] the
    validator returns before it counts anything: for every pair of columns the
    call yields Python's [None], logging nothing, where the claim (and the
    docstring of the function) promise the number of non-valid cells. *)
Theorem check_na_ignore_returns_nothing :
  forall (A : Type) (v : list cell) (x : list (option A)) (na_is : option (list string)),
    util_check_na v x na_is "ignore" = ([], Return None).
Proof. intros A v x na_is. unfold util_check_na. cbn. reflexivity. Qed.

(** The claim's own column: one cell, "garbage", is missing after conversion
    and is no NA marker.  [warning] and [error] count it; [ignore] does not. *)
Example check_na_on_garbage :
  let v := [Some ""; Some "Unknown"; Some "garbage"] in
  let x : list (option Z) := [None; None; None] in
  let msg := NonValidNA 1 default_na_is [Some "garbage"] in
  util_check_na v x None "ignore" = ([], Return None)
  /\ util_check_na v x None "warning" = ([LogWarning msg], Return (Some 1%nat))
  /\ util_check_na v x None "error" = ([LogError msg], Raise (ValueError msg)).
Proof. repeat split; vm_compute; reflexivity. Qed.

Lemma strings_of_mask (v : list cell) (l : list string) (m : list bool) :
  strings_of v = Some l -> exists l', strings_of (mask v m) = Some l'.
Proof.
  revert l m. induction v as [|c v IH]; intros l m H.
  - exists []. reflexivity.
  - destruct c as [s|]; [|discriminate]. simpl in H.
    destruct (strings_of v) as [l0|] eqn:E; [|discriminate].
    destruct m as [|b m]; [exists []; reflexivity|].
    destruct (IH l0 m eq_refl) as [l' Hl']. simpl.
    destruct b; [|eauto]. simpl. rewrite Hl'. eexists. reflexivity.
Qed.

(** On a column of strings, [warning] logs one record and returns the count,
    [error] logs the same message and raises it; the sample the message
    carries has at most 20 values. *)
Lemma check_na_warning_error (A : Type) (v : list cell) (x : list (option A))
    (na_is : option (list string)) (l : list string) :
  strings_of v = Some l ->
  let n := np_sum (map2 andb (isna x)
             (map negb (isin v (match na_is with None => default_na_is | Some t => t end)))) in
  (0 < n)%nat ->
  exists msg sample,
    msg = NonValidNA n (match na_is with None => default_na_is | Some t => t end) sample
    /\ (List.length sample <= 20)%nat
    /\ util_check_na v x na_is "warning" = ([LogWarning msg], Return (Some n))
    /\ util_check_na v x na_is "error" = ([LogError msg], Raise (ValueError msg)).
Proof.
  intros Hv n Hn. subst n.
  set (na := match na_is with None => default_na_is | Some t => t end) in *.
  set (m := map2 andb (isna x) (map negb (isin v na))) in *.
  destruct (strings_of_mask v l m Hv) as [l' Hl'].
  exists (NonValidNA (np_sum m) na (firstn 20 (map Some (sort_unique l')))).
  exists (firstn 20 (map Some (sort_unique l'))).
  split; [reflexivity|]. split; [apply firstn_le_length|].
  unfold util_check_na. fold na. fold m.
  apply Nat.ltb_lt in Hn.
  split; cbn [String.eqb Ascii.eqb Bool.eqb]; rewrite Hn;
    unfold np_unique; rewrite Hl'; reflexivity.
Qed.

(** ** The duration formatter *)

Lemma map2_map {A B C D} (f : B -> C -> D) (g : A -> B) (h : A -> C) (l : list A) :
  map2 f (map g l) (map h l) = map (fun a => f (g a) (h a)) l.
Proof. induction l as [|a l IH]; simpl; [reflexivity | now rewrite IH]. Qed.

Lemma map2_length {A B C} (f : A -> B -> C) (a : list A) (b : list B) :
  List.length a = List.length b -> List.length (map2 f a b) = List.length a.
Proof.
  revert b. induction a as [|x a IH]; intros [|y b] H; simpl in *; try reflexivity; try discriminate.
  f_equal. apply IH. now injection H.
Qed.

Lemma in_range_100 (n : Z) : 0 <= n < 100 -> In (Z.to_nat n) (seq 0 100).
Proof. intros H. apply in_seq. lia. Qed.

Lemma zfill_two_digits (n : Z) : 0 <= n < 100 -> zfill 2 (py_str n) = two_digits n.
Proof.
  intros H.
  assert (E : forallb (fun k => zfill 2 (py_str (Z.of_nat k)) =? two_digits (Z.of_nat k))
                (seq 0 100) = true) by (vm_compute; reflexivity).
  rewrite forallb_forall in E. specialize (E _ (in_range_100 n H)).
  rewrite Z2Nat.id in E by lia. now apply String.eqb_eq.
Qed.

Lemma two_digits_digits (n : Z) :
  0 <= n < 100 -> all_chars is_digit (two_digits n) = true.
Proof.
  intros H.
  assert (E : forallb (fun k => all_chars is_digit (two_digits (Z.of_nat k)))
                (seq 0 100) = true) by (vm_compute; reflexivity).
  rewrite forallb_forall in E. specialize (E _ (in_range_100 n H)).
  now rewrite Z2Nat.id in E by lia.
Qed.

Lemma two_digits_value (n : Z) : 0 <= n < 100 -> digits_value (two_digits n) = n.
Proof.
  intros H.
  assert (E : forallb (fun k => (digits_value (two_digits (Z.of_nat k)) =? Z.of_nat k)%Z)
                (seq 0 100) = true) by (vm_compute; reflexivity).
  rewrite forallb_forall in E. specialize (E _ (in_range_100 n H)).
  rewrite Z2Nat.id in E by lia. now apply Z.eqb_eq.
Qed.

Lemma mod_mul_div (t a b : Z) : 0 < a -> 0 < b -> (t mod (a * b)) / a = (t / a) mod b.
Proof.
  intros Ha Hb. rewrite Z.rem_mul_r by lia.
  rewrite Z.mul_comm, Z.div_add by lia.
  rewrite (Z.div_small (t mod a) a) by (apply Z.mod_pos_bound; lia). lia.
Qed.

Lemma format_fields (t : Z) :
  let secs := t / 1000000000 in
  t / 86400000000000 = secs / 86400
  /\ (t mod 86400000000000) / 3600000000000 = (secs / 3600) mod 24
  /\ (t mod 3600000000000) / 60000000000 = (secs / 60) mod 60
  /\ (t mod 60000000000) / 1000000000 = secs mod 60.
Proof.
  cbv zeta. repeat split.
  - rewrite Z.div_div by lia. reflexivity.
  - change 86400000000000 with (3600000000000 * 24).
    rewrite mod_mul_div by lia.
    change 3600000000000 with (1000000000 * 3600).
    now rewrite <- Z.div_div by lia.
  - change 3600000000000 with (60000000000 * 60).
    rewrite mod_mul_div by lia.
    change 60000000000 with (1000000000 * 60).
    now rewrite <- Z.div_div by lia.
  - change 60000000000 with (1000000000 * 60).
    now rewrite mod_mul_div by lia.
Qed.

Ltac mod_below_100 :=
  match goal with
  | |- 0 <= ?a mod ?b < 100 => pose proof (Z.mod_pos_bound a b ltac:(lia)); lia
  end.

Lemma formatter_cellwise (v : list timedelta64) :
  util_timedelta_to_slurm_duration v = map format_cell v.
Proof.
  unfold util_timedelta_to_slurm_duration, mask_assign, str_add, str_add_const,
    str_zfill, astype_str, td_floordiv, td_mod, isna.
  repeat (rewrite !map_map || rewrite map2_map).
  apply map_ext. intros [t|]; [|reflexivity].
  cbn [option_map]. unfold format_cell, canonical_form.
  change (pd_to_timedelta_unit 1 "days") with 86400000000000.
  change (pd_to_timedelta_unit 1 "D") with 86400000000000.
  change (pd_to_timedelta_unit 1 "H") with 3600000000000.
  change (pd_to_timedelta_unit 1 "min") with 60000000000.
  change (pd_to_timedelta_unit 1 "s") with 1000000000.
  destruct (format_fields t) as (Hd & Hh & Hm & Hs). cbv zeta in *.
  rewrite Hd, Hh, Hm, Hs.
  rewrite !zfill_two_digits by mod_below_100.
  assert (E : (py_str (t / 1000000000 / 86400) ++ "-" =? "0-")
              = (t / 1000000000 / 86400 =? 0)%Z).
  { rewrite <- py_str_zero.
    destruct (py_str (t / 1000000000 / 86400)) as [|c [|c' r]]; try reflexivity.
    cbn [append String.eqb].
    destruct (Ascii.eqb c "0"), (Ascii.eqb c' "-"), r; reflexivity. }
  rewrite E. destruct (t / 1000000000 / 86400 =? 0)%Z; cbn [append];
    rewrite ?append_assoc; reflexivity.
Qed.


(** ** Calls that log and raise *)

Lemma outcome_bind {A B} (m : Py A) (k : A -> Py B) :
  outcome (bind m k)
  = match outcome m with Return a => outcome (k a) | Raise e => Raise e end.
Proof. destruct m as [l [a|e]]; simpl; [destruct (k a) | ]; reflexivity. Qed.

Lemma logs_bind {A B} (m : Py A) (k : A -> Py B) :
  logs (bind m k)
  = match outcome m with
    | Return a => (logs m ++ logs (k a))%list
    | Raise e => logs m
    end.
Proof. destruct m as [l [a|e]]; simpl; [destruct (k a) | ]; reflexivity. Qed.


(** A validator that finds nothing to report returns, whatever the policy. *)
Lemma check_na_nothing_to_report {A} (v : list cell) (x : list (option A)) na_is check_na :
  np_sum (map2 andb (isna x)
            (map negb (isin v (match na_is with None => default_na_is | Some t => t end)))) = 0%nat ->
  exists r, util_check_na v x na_is check_na = ([], Return r).
Proof.
  intros H. unfold util_check_na. destruct (check_na =? "ignore"); [eexists; reflexivity|].
  rewrite H. cbn. eexists; reflexivity.
Qed.

Lemma astype_Int64_cells (x : list (option Q)) (z : list (option Z)) :
  astype_Int64 x = Return z -> z = map (option_map Qfloor) x.
Proof.
  unfold astype_Int64. destruct (forallb _ x); intros H; inversion H; reflexivity.
Qed.


(** ** The SI-suffix parser *)


(** The table has no other key. *)
Lemma SI_SUFFIXES_keys (use1024 : bool) (suffix : string) :
  dict_mem (SI_SUFFIXES use1024) suffix = existsb (String.eqb suffix) si_suffix_list.
Proof.
  unfold dict_mem.
  destruct use1024; cbn [SI_SUFFIXES SI_SUFFIXES_binary SI_SUFFIXES_decimal dict_get
    si_suffix_list existsb];
  repeat match goal with
  | |- context [suffix =? ?k] =>
      destruct (String.eqb_spec suffix k); [subst suffix; reflexivity|]
  end; reflexivity.
Qed.











Lemma split_dot_spec (s : string) :
  match split_dot s with
  | (ip, None) => s = ip
  | (ip, Some fp) => s = ip ++ "." ++ fp
  end.
Proof.
  induction s as [|c s IH]; [reflexivity|]. cbn [split_dot].
  destruct (Ascii.eqb_spec c "."); [subst; reflexivity|].
  destruct (split_dot s) as [ip [fp|]]; cbn [append]; now rewrite IH.
Qed.

Lemma decimal_literal_chars (s : string) (q : Q) :
  decimal_literal s = Some q ->
  all_chars is_digit_or_dot s = true /\ nonempty s = true.
Proof.
  unfold decimal_literal. pose proof (split_dot_spec s) as Hs.
  destruct (split_dot s) as [ip [fp|]]; subst s.
  - destruct (all_chars is_digit ip) eqn:Hip; [|discriminate].
    destruct (all_chars is_digit fp) eqn:Hfp; [|discriminate].
    intros _. split.
    + rewrite all_chars_append. rewrite (digits_are_digit_or_dot _ Hip).
      cbn [append all_chars]. now rewrite (digits_are_digit_or_dot _ Hfp).
    + destruct ip; reflexivity.
  - destruct (all_chars is_digit ip) eqn:Hip; [|discriminate].
    destruct (nonempty ip) eqn:Hne; [|discriminate].
    intros _. split; [now apply digits_are_digit_or_dot | reflexivity].
Qed.

Lemma decimal_literal_nonneg (s : string) (q : Q) :
  decimal_literal s = Some q -> (0 <= q)%Q.
Proof.
  unfold decimal_literal. destruct (split_dot s) as [ip [fp|]].
  - destruct (all_chars is_digit ip) eqn:Hip; [|discriminate].
    destruct (all_chars is_digit fp) eqn:Hfp; [|discriminate].
    destruct (nonempty ip || nonempty fp); [|discriminate].
    intros H. inversion H; subst q. unfold Qle. cbn.
    assert (Hd : all_chars is_digit (ip ++ fp) = true)
      by (rewrite all_chars_append, Hip, Hfp; reflexivity).
    pose proof (digits_value_bounds _ Hd). lia.
  - destruct (all_chars is_digit ip) eqn:Hip; [|discriminate].
    destruct (nonempty ip); [|discriminate].
    intros H. inversion H; subst q. unfold Qle. cbn.
    pose proof (digits_value_bounds _ Hip). lia.
Qed.

Section CoercerFacts.

Variable numeric_of_string : string -> option Q.

Lemma norm_si_product_cells (v : list cell) (use1024 : bool) :
  col_mul (pd_to_numeric numeric_of_string
             (map (option_map OStr) (fst (str_extract re_norm_si v))))
          (pd_to_numeric numeric_of_string
             (replace (SI_SUFFIXES use1024) (snd (str_extract re_norm_si v))))
  = map (si_cell numeric_of_string use1024) v.
Proof.
  unfold col_mul, pd_to_numeric, replace, str_extract. cbn [fst snd].
  rewrite !map_map, map2_map. apply map_ext. intros c. reflexivity.
Qed.

Lemma util_norm_si_unfold (v : list cell) convert_to_int return_in check_na na_is use1024 :
  util_norm_si numeric_of_string v convert_to_int return_in check_na na_is use1024
  = (util_check_na v (map (si_cell numeric_of_string use1024) v) na_is check_na ;;;
     x <- (if negb (return_in =? "") then
             match dict_get (SI_SUFFIXES use1024) return_in with
             | None => raise (ValueError (IncorrectReturnIn return_in))
             | Some f => ret (col_div (map (si_cell numeric_of_string use1024) v) f)
             end
           else ret (map (si_cell numeric_of_string use1024) v)) ;;
     if convert_to_int then
       x <- lift (astype_Int64 (series_round x)) ;; ret (Int64 x)
     else ret (Float64 x)).
Proof.
  unfold util_norm_si. cbv zeta. rewrite norm_si_product_cells. reflexivity.
Qed.




(** ** The memory parser *)




End CoercerFacts.

(** ** The generic coercers, and rows *)






Lemma batch_unfold (v : list cell) check_na na_is :
  util_slurm_duration_to_duration v check_na na_is
  = (util_check_na (map (option_map duration_literal) v) (map duration_cell v) na_is check_na ;;;
     ret (map duration_cell v)).
Proof.
  unfold util_slurm_duration_to_duration, str_replace, str_replace_re, pd_to_timedelta.
  cbv zeta. rewrite !map_map.
  replace (map (fun x => option_map (replace_char "-" " days ") _) v)
    with (map (option_map duration_literal) v)
    by (apply map_ext; intros [s|]; reflexivity).
  replace (map (fun x => to_timedelta_cell _) v) with (map duration_cell v)
    by (apply map_ext; intros [s|]; reflexivity).
  reflexivity.
Qed.

Section RowFacts.

Variable numeric_of_string : string -> option Q.
Variable datetime : Type.
Variable datetime_of_string : string -> option datetime.

Lemma to_numeric_cells (v : list cell) :
  pd_to_numeric numeric_of_string (map (option_map OStr) v)
  = map (numeric_cell numeric_of_string) v.
Proof.
  unfold pd_to_numeric. rewrite map_map. apply map_ext. intros [s|]; reflexivity.
Qed.




End RowFacts.

(** ** Instances on concrete columns

    [pd.to_numeric] is taken here to read plain decimal literals, as
    [decimal_literal] does. *)








(** ** The six duration grammars *)

Lemma re_lit_hit (c : ascii) (r : string) : re_lit c (String c r) = Some r.
Proof. cbn [re_lit]. now rewrite Ascii.eqb_refl. Qed.

(** After a run of digits taken from text over [[0-9.]] no colon follows. *)
Lemma no_colon_after_digits {A} (s : string) (k : string -> string -> option A) :
  all_chars is_digit_or_dot s = true ->
  ('(g, r) <-? re_plus is_digit s ;; 'r' <-? re_lit ":" r ;; k g r') = None.
Proof.
  intros Hs. destruct (re_plus is_digit s) as [[a b]|] eqn:E; [|reflexivity].
  apply re_plus_spec in E as (-> & _ & _ & Hb).
  rewrite all_chars_append in Hs. apply andb_true_iff in Hs as [_ Hs].
  destruct b as [|c b]; [reflexivity|]. cbn [all_chars] in Hs.
  apply andb_true_iff in Hs as [Hc _]. cbn [stops] in Hb.
  apply negb_true_iff in Hb. unfold is_digit_or_dot in Hc. rewrite Hb in Hc.
  cbn [orb] in Hc. apply Ascii.eqb_eq in Hc. subst c. reflexivity.
Qed.

(** Evaluates a pattern on a text built from fields and separators. *)
Ltac re_side :=
  first [ assumption | reflexivity
        | apply digits_are_digit_or_dot; assumption ].

Ltac re_eval :=
  repeat first
    [ rewrite re_plus_app by re_side
    | rewrite re_plus_all by re_side
    | rewrite re_lit_hit
    | progress cbn [re_lit re_end String.eqb Ascii.eqb Bool.eqb orb andb
                    newline ascii_of_nat Pos.of_succ_nat ascii_of_pos Pos.succ] ].

Section Grammars.

Variables d h m s : string.
Hypothesis Hd : all_chars is_digit d = true.
Hypothesis Hd' : nonempty d = true.
Hypothesis Hh : all_chars is_digit h = true.
Hypothesis Hh' : nonempty h = true.
Hypothesis Hm : all_chars is_digit m = true.
Hypothesis Hm' : nonempty m = true.
Hypothesis Hs : all_chars is_digit_or_dot s = true.
Hypothesis Hs' : nonempty s = true.

Lemma re_dhms_text :
  re_dhms (d ++ "-" ++ h ++ ":" ++ m ++ ":" ++ s) = Some (d, h, m, s, "").
Proof. unfold re_dhms. cbn [append]. re_eval. reflexivity. Qed.



Lemma re_hms_text :
  re_dhms (h ++ ":" ++ m ++ ":" ++ s) = None
  /\ re_dhm (h ++ ":" ++ m ++ ":" ++ s) = None
  /\ re_dh (h ++ ":" ++ m ++ ":" ++ s) = None
  /\ re_hms (h ++ ":" ++ m ++ ":" ++ s) = Some (h, m, s, "").
Proof.
  unfold re_dhms, re_dhm, re_dh, re_hms. cbn [append]. re_eval.
  repeat split; reflexivity.
Qed.

Lemma re_ms_text :
  re_dhms (m ++ ":" ++ s) = None
  /\ re_dhm (m ++ ":" ++ s) = None
  /\ re_dh (m ++ ":" ++ s) = None
  /\ re_hms (m ++ ":" ++ s) = None
  /\ re_ms (m ++ ":" ++ s) = Some (m, s, "").
Proof.
  unfold re_dhms, re_dhm, re_dh, re_hms, re_ms. cbn [append]. re_eval.
  rewrite (re_plus_all is_digit_or_dot s) by assumption.
  repeat split; try reflexivity.
  apply (no_colon_after_digits s); assumption.
Qed.


End Grammars.

(** ** Rounding, on numerators and denominators *)

Lemma round_half_even_frac (n : Z) (p : positive) :
  round_half_even (n # p) = rhe n p.
Proof.
  unfold round_half_even, rhe. cbn [Qfloor].
  replace ((n # p) - inject_Z (n / Z.pos p) ?= 1 # 2)%Q
    with (2 * (n mod Z.pos p) ?= Z.pos p)%Z; [reflexivity|].
  unfold Qcompare, Qminus, Qplus, Qopp, inject_Z. cbn [Qnum Qden].
  rewrite Z.mod_eq by lia. f_equal; lia.
Qed.

Lemma round_half_even_comp (x y : Q) : (x == y)%Q -> round_half_even x = round_half_even y.
Proof.
  intros E. unfold round_half_even. rewrite (Qfloor_comp x y E).
  assert (E' : (x - inject_Z (Qfloor y) == y - inject_Z (Qfloor y))%Q) by now rewrite E.
  now rewrite (Qcompare_comp _ _ E' (1 # 2)%Q (1 # 2)%Q (Qeq_refl _)).
Qed.

Lemma rhe_whole (z : Z) (p : positive) : rhe (z * Zpos p) p = z.
Proof.
  unfold rhe. rewrite Z.mod_mul, Z.div_mul by lia. reflexivity.
Qed.

Lemma round_half_even_inject_Z (z : Z) : round_half_even (inject_Z z) = z.
Proof.
  unfold inject_Z. rewrite round_half_even_frac.
  rewrite <- (rhe_whole z 1) at 2. f_equal. lia.
Qed.

(** Rounding commutes with adding a whole number of even size: the whole
    seconds, in microseconds, can be set apart before the fraction is
    rounded. *)
Lemma rhe_shift (n k : Z) (p : positive) :
  Z.even k = true ->
  rhe (n * k) p = (n / Zpos p) * k + rhe ((n mod Zpos p) * k) p.
Proof.
  intros Hk. unfold rhe.
  assert (E : n * k = (n / Z.pos p * k) * Z.pos p + n mod Z.pos p * k).
  { pose proof (Z.div_mod n (Z.pos p) ltac:(lia)). nia. }
  assert (Hdiv : n * k / Z.pos p = n / Z.pos p * k + n mod Z.pos p * k / Z.pos p).
  { rewrite E at 1. rewrite Z.add_comm, Z.div_add by lia. lia. }
  assert (Hmod : (n * k) mod Z.pos p = (n mod Z.pos p * k) mod Z.pos p).
  { rewrite E at 1. rewrite Z.add_comm, Z.mod_add by lia. reflexivity. }
  rewrite Hdiv, Hmod.
  assert (Hev : Z.even (n / Z.pos p * k + n mod Z.pos p * k / Z.pos p)
                = Z.even (n mod Z.pos p * k / Z.pos p)).
  { rewrite Z.even_add, Z.even_mul, Hk, orb_true_r.
    now destruct (Z.even (n mod Z.pos p * k / Z.pos p)). }
  rewrite Hev.
  destruct (2 * ((n mod Z.pos p * k) mod Z.pos p) ?= Z.pos p)%Z; try lia.
  destruct (Z.even (n mod Z.pos p * k / Z.pos p)); lia.
Qed.

Lemma rhe_nonneg (n : Z) (p : positive) : 0 <= n -> 0 <= rhe n p.
Proof.
  intros H. unfold rhe. pose proof (Z.div_pos n (Z.pos p) H ltac:(lia)).
  destruct (2 * (n mod Z.pos p) ?= Z.pos p)%Z; [destruct (Z.even _)| |]; lia.
Qed.

Lemma trunc_nonneg (n : Z) (p : positive) : 0 <= n -> trunc (n # p) = n / Zpos p.
Proof.
  intros H. unfold trunc.
  replace (Qle_bool 0 (n # p)) with true; [reflexivity|].
  symmetry. apply Qle_bool_iff. unfold Qle. cbn. lia.
Qed.


Lemma trunc_comp (x y : Q) : (x == y)%Q -> trunc x = trunc y.
Proof.
  intros E. unfold trunc.
  rewrite (Qleb_comp 0%Q 0%Q (Qeq_refl _) x y E), (Qfloor_comp x y E), (Qceiling_comp x y E).
  reflexivity.
Qed.

(** ** [datetime.timedelta] *)

Lemma seconds_split (q : Q) :
  (0 <= q)%Q ->
  trunc q * 1000000 + round_half_even ((q - inject_Z (trunc q)) * 1000000)%Q
  = round_half_even (q * 1000000)%Q.
Proof.
  destruct q as [n p]. intros Hq. assert (Hn : 0 <= n) by (unfold Qle in Hq; cbn in Hq; lia).
  rewrite (trunc_nonneg n p Hn).
  unfold Qminus, Qplus, Qopp, Qmult, inject_Z. cbn [Qnum Qden].
  rewrite !round_half_even_frac.
  replace (p * 1 * 1)%positive with p by lia.
  replace (p * 1)%positive with p by lia.
  rewrite (rhe_shift n 1000000 p eq_refl).
  f_equal. f_equal. rewrite Z.mod_eq by lia. lia.
Qed.

Lemma us_of_fields_nonneg (d h m : Z) (q : Q) :
  0 <= d -> 0 <= h -> 0 <= m -> (0 <= q)%Q -> 0 <= us_of_fields d h m q.
Proof.
  intros Hd Hh Hm Hq. unfold us_of_fields.
  destruct q as [n p]. assert (Hn : 0 <= n) by (unfold Qle in Hq; cbn in Hq; lia).
  unfold Qmult. cbn [Qnum Qden]. rewrite round_half_even_frac.
  pose proof (rhe_nonneg (n * 1000000) (p * 1) ltac:(lia)). lia.
Qed.

Lemma timedelta_total (d h m : Z) (q : Q) :
  (0 <= q)%Q ->
  (((d * 24 + h) * 60 + m) * 60 + trunc q) * 1000000
  + round_half_even ((q - inject_Z (trunc q)) * 1000000)%Q
  = us_of_fields d h m q.
Proof.
  intros Hq. unfold us_of_fields. rewrite <- (seconds_split q Hq). lia.
Qed.

Lemma normal_form (total : Z) :
  let t := {| td_days := total / 86400000000;
              td_seconds := (total mod 86400000000) / 1000000;
              td_microseconds := total mod 1000000 |} in
  total_microseconds t = total /\ normalised t.
Proof.
  cbv zeta. unfold total_microseconds, normalised. cbn [td_days td_seconds td_microseconds].
  pose proof (Z.div_mod total 86400000000 ltac:(lia)) as H1.
  pose proof (Z.div_mod (total mod 86400000000) 1000000 ltac:(lia)) as H2.
  pose proof (Z.mod_pos_bound total 86400000000 ltac:(lia)) as H3.
  pose proof (Z.mod_pos_bound total 1000000 ltac:(lia)) as H4.
  assert (H5 : (total mod 86400000000) mod 1000000 = total mod 1000000).
  { apply Z.mod_mod_divide. exists 86400. reflexivity. }
  rewrite H5 in H2.
  assert (H6 : 0 <= total mod 86400000000 / 1000000 < 86400).
  { split; [apply Z.div_pos; lia|]. apply Z.div_lt_upper_bound; lia. }
  repeat split; lia.
Qed.

Lemma normalised_inj (t t' : timedelta) :
  normalised t -> normalised t' ->
  total_microseconds t = total_microseconds t' -> t = t'.
Proof.
  destruct t as [d s u], t' as [d' s' u']. unfold normalised, total_microseconds.
  cbn [td_days td_seconds td_microseconds]. intros [Hs Hu] [Hs' Hu'] E.
  assert (u = u') by lia. subst u'.
  assert (s = s') by lia. subst s'.
  assert (d = d') by lia. now subst d'.
Qed.

(** What the constructor returns has the microseconds of its fields, in
    normal form. *)
Lemma datetime_timedelta_fields (d h m : Z) (q : Q) (t : timedelta) :
  (0 <= q)%Q ->
  datetime_timedelta d h m q = Return t ->
  total_microseconds t = us_of_fields d h m q /\ normalised t.
Proof.
  intros Hq. unfold datetime_timedelta. cbv zeta. rewrite (timedelta_total d h m q Hq).
  destruct (Z.abs _ >? 999999999)%Z; [discriminate|].
  intros H. inversion H. apply normal_form.
Qed.

(** Fields that do not run past 999999999 days make a duration. *)
Lemma datetime_timedelta_returns (d h m : Z) (q : Q) :
  (0 <= q)%Q -> timedelta_range (us_of_fields d h m q) ->
  exists t, datetime_timedelta d h m q = Return t.
Proof.
  intros Hq [H0 H1]. unfold datetime_timedelta. cbv zeta.
  rewrite (timedelta_total d h m q Hq).
  assert (Hd : 0 <= us_of_fields d h m q / 86400000000 <= 999999999).
  { split; [apply Z.div_pos; lia|].
    apply Z.lt_succ_r. apply Z.div_lt_upper_bound; lia. }
  replace (Z.abs _ >? 999999999)%Z with false; [eexists; reflexivity|].
  symmetry. rewrite Z.gtb_ltb. apply Z.ltb_ge. lia.
Qed.

(** ** The scalar duration parser *)

Lemma parse_dhms (d h m s : string) (q : Q) :
  digits d -> digits h -> digits m -> decimal_literal s = Some q ->
  util_slurm_duration_to_timedelta (d ++ "-" ++ h ++ ":" ++ m ++ ":" ++ s)
  = of_fields (digits_value d) (digits_value h) (digits_value m) q.
Proof.
  intros [Hd Hd'] [Hh Hh'] [Hm Hm'] Hq.
  destruct (decimal_literal_chars s q Hq) as [Hs Hs'].
  unfold util_slurm_duration_to_timedelta.
  rewrite (re_dhms_text d h m s Hd Hd' Hh Hh' Hm Hm' Hs Hs').
  rewrite !int_digits by assumption. unfold float_. rewrite Hq. reflexivity.
Qed.



Lemma parse_hms (h m s : string) (q : Q) :
  digits h -> digits m -> decimal_literal s = Some q ->
  util_slurm_duration_to_timedelta (h ++ ":" ++ m ++ ":" ++ s)
  = of_fields 0 (digits_value h) (digits_value m) q.
Proof.
  intros [Hh Hh'] [Hm Hm'] Hq.
  destruct (decimal_literal_chars s q Hq) as [Hs Hs'].
  destruct (re_hms_text h m s Hh Hh' Hm Hm' Hs Hs') as (E1 & E2 & E3 & E4).
  unfold util_slurm_duration_to_timedelta. rewrite E1, E2, E3, E4.
  rewrite !int_digits by assumption. unfold float_. rewrite Hq. reflexivity.
Qed.



Lemma of_fields_returns (d h m : Z) (q : Q) :
  (0 <= q)%Q -> timedelta_range (us_of_fields d h m q) ->
  exists t, of_fields d h m q = Return (Some t)
            /\ total_microseconds t = us_of_fields d h m q /\ normalised t.
Proof.
  intros Hq Hr. destruct (datetime_timedelta_returns d h m q Hq Hr) as [t Ht].
  exists t. unfold of_fields. rewrite Ht. split; [reflexivity|].
  now apply datetime_timedelta_fields.
Qed.




(** ** Parse, format, parse again *)

Lemma int_nonneg (g : string) (z : Z) : int_ g = Return z -> 0 <= z.
Proof.
  unfold int_, py_int. destruct (all_chars is_digit g) eqn:Hg; [|discriminate].
  destruct (nonempty g); [|discriminate]. cbn. intros H. inversion H; subst z.
  pose proof (digits_value_bounds g Hg). lia.
Qed.

Lemma float_nonneg (g : string) (q : Q) : float_ g = Return q -> (0 <= q)%Q.
Proof.
  unfold float_. destruct (decimal_literal g) as [p|] eqn:E; [|discriminate].
  intros H. inversion H; subst q. exact (decimal_literal_nonneg g p E).
Qed.

(** Whatever the parser returns was built from fields that are not negative. *)
Lemma parse_inv (v : string) (t : timedelta) :
  util_slurm_duration_to_timedelta v = Return (Some t) ->
  exists d h m q, 0 <= d /\ 0 <= h /\ 0 <= m /\ (0 <= q)%Q
                  /\ datetime_timedelta d h m q = Return t.
Proof.
  unfold util_slurm_duration_to_timedelta. intros H.
  repeat match type of H with
  | context [match ?re v with _ => _ end] => destruct (re v) as [?|]
  end;
  repeat match goal with
  | p : (_ * _)%type |- _ => destruct p
  end;
  repeat match type of H with
  | context [int_ ?g] =>
      let E := fresh "E" in
      destruct (int_ g) eqn:E; cbn [rbind] in H; [apply int_nonneg in E | discriminate H]
  | context [float_ ?g] =>
      let E := fresh "E" in
      destruct (float_ g) eqn:E; cbn [rbind] in H; [apply float_nonneg in E | discriminate H]
  end;
  try match type of H with
  | context [datetime_timedelta ?d ?h ?m ?q] =>
      let E := fresh "E" in
      destruct (datetime_timedelta d h m q) eqn:E; cbn [rbind] in H;
      [inversion H; subst; exists d, h, m, q; repeat split;
       first [assumption | lia | apply Qle_refl] | discriminate H]
  end.
  destruct (existsb _ _); discriminate H.
Qed.

Lemma parse_nonneg (v : string) (t : timedelta) :
  util_slurm_duration_to_timedelta v = Return (Some t) ->
  0 <= total_microseconds t /\ normalised t.
Proof.
  intros H. destruct (parse_inv v t H) as (d & h & m & q & Hd & Hh & Hm & Hq & E).
  destruct (datetime_timedelta_fields d h m q t Hq E) as [-> Hn].
  split; [now apply us_of_fields_nonneg | exact Hn].
Qed.

Lemma split_dot_digits (g : string) :
  all_chars is_digit g = true -> split_dot g = (g, None).
Proof.
  induction g as [|c g IH]; [reflexivity|]. cbn [all_chars split_dot].
  intros H. apply andb_true_iff in H as [Hc Hg]. rewrite (IH Hg).
  destruct (Ascii.eqb_spec c "."); [subst c; discriminate Hc | reflexivity].
Qed.

Lemma decimal_literal_digits (g : string) :
  digits g -> decimal_literal g = Some (inject_Z (digits_value g)).
Proof.
  intros [Hg Hg']. unfold decimal_literal. now rewrite (split_dot_digits g Hg), Hg, Hg'.
Qed.

Lemma us_of_whole_fields (d h m s : Z) :
  us_of_fields d h m (inject_Z s) = (((d * 24 + h) * 60 + m) * 60 + s) * 1000000.
Proof.
  unfold us_of_fields.
  rewrite (round_half_even_comp _ (inject_Z (s * 1000000))).
  - rewrite round_half_even_inject_Z. lia.
  - unfold Qeq, Qmult, inject_Z. cbn [Qnum Qden]. lia.
Qed.

Lemma two_digits_field (n : Z) : 0 <= n < 100 -> digits (two_digits n).
Proof. intros H. split; [now apply two_digits_digits | reflexivity]. Qed.

(** The canonical form of a duration that is not negative parses back to the
    whole seconds of that duration. *)
Lemma parse_canonical (ns : Z) :
  0 <= ns -> timedelta_range (ns / 1000000000 * 1000000) ->
  exists t, util_slurm_duration_to_timedelta (canonical_form ns) = Return (Some t)
            /\ total_microseconds t = ns / 1000000000 * 1000000
            /\ normalised t.
Proof.
  intros Hns Hr. unfold canonical_form. cbv zeta.
  set (secs := ns / 1000000000) in *.
  assert (Hsecs : 0 <= secs) by (apply Z.div_pos; lia).
  set (hh := (secs / 3600) mod 24). set (mm := (secs / 60) mod 60). set (ss := secs mod 60).
  assert (Hhh : 0 <= hh < 100) by (subst hh; mod_below_100).
  assert (Hmm : 0 <= mm < 100) by (subst mm; mod_below_100).
  assert (Hss : 0 <= ss < 100) by (subst ss; mod_below_100).
  assert (Hsum : secs = ((secs / 86400 * 24 + hh) * 60 + mm) * 60 + ss).
  { subst hh mm ss.
    pose proof (Z.div_mod secs 60 ltac:(lia)).
    pose proof (Z.div_mod (secs / 60) 60 ltac:(lia)).
    pose proof (Z.div_mod (secs / 3600) 24 ltac:(lia)).
    assert (secs / 60 / 60 = secs / 3600) by (rewrite Z.div_div by lia; reflexivity).
    assert (secs / 3600 / 24 = secs / 86400) by (rewrite Z.div_div by lia; reflexivity).
    lia. }
  pose proof (decimal_literal_digits _ (two_digits_field ss Hss)) as Hlit.
  rewrite (two_digits_value ss Hss) in Hlit.
  assert (Hq : (0 <= inject_Z ss)%Q) by (unfold Qle; cbn; lia).
  destruct (secs / 86400 =? 0)%Z eqn:HD.
  - apply Z.eqb_eq in HD. cbn [append].
    change (two_digits hh ++ String ":" (two_digits mm ++ String ":" (two_digits ss)))
      with (two_digits hh ++ ":" ++ two_digits mm ++ ":" ++ two_digits ss).
    rewrite (parse_hms _ _ _ _ (two_digits_field hh Hhh) (two_digits_field mm Hmm) Hlit).
    rewrite !two_digits_value by assumption.
    assert (E : us_of_fields 0 hh mm (inject_Z ss) = secs * 1000000).
    { rewrite us_of_whole_fields. rewrite HD in Hsum. now rewrite <- Hsum. }
    rewrite <- E in Hr |- *. now apply of_fields_returns.
  - apply Z.eqb_neq in HD.
    assert (HDpos : 0 <= secs / 86400) by (apply Z.div_pos; lia).
    rewrite append_assoc.
    rewrite (parse_dhms _ _ _ _ _ (py_str_digits _ HDpos)
               (two_digits_field hh Hhh) (two_digits_field mm Hmm) Hlit).
    rewrite !two_digits_value, digits_value_py_str by assumption.
    assert (E : us_of_fields (secs / 86400) hh mm (inject_Z ss) = secs * 1000000).
    { rewrite us_of_whole_fields. now rewrite <- Hsum. }
    rewrite <- E in Hr |- *. now apply of_fields_returns.
Qed.

(** C1 (as amended).  Whatever the scalar parser reads from a string, once
    placed in a duration column and formatted, parses back to the same
    duration cut down to whole seconds: to the very same duration when it has
    no fraction of a second.  (The duration has to fit the 64-bit nanosecond
    count of the column.) *)
Theorem duration_round_trip :
  forall (v : string) (t : timedelta) (ns : Z),
    util_slurm_duration_to_timedelta v = Return (Some t) ->
    to_timedelta64 t = Some ns ->
    exists (s' : string) (t' : timedelta),
      util_timedelta_to_slurm_duration [Some ns] = [s']
      /\ util_slurm_duration_to_timedelta s' = Return (Some t')
      /\ total_microseconds t' = total_microseconds t / 1000000 * 1000000
      /\ (td_microseconds t = 0 -> t' = t).
Proof.
  intros v t ns Hparse Hns.
  destruct (parse_nonneg v t Hparse) as [Htot Hnorm].
  unfold to_timedelta64 in Hns. cbv zeta in Hns.
  destruct (in_int64 (total_microseconds t * 1000)) eqn:Hin; [|discriminate].
  cbn [andb] in Hns. destruct (negb _); [|discriminate]. inversion Hns; subst ns. clear Hns.
  unfold in_int64 in Hin. apply andb_true_iff in Hin as [_ Hmax]. apply Z.leb_le in Hmax.
  unfold int64_max in Hmax.
  assert (Hsecs : total_microseconds t * 1000 / 1000000000 = total_microseconds t / 1000000).
  { change 1000000000 with (1000000 * 1000). apply Z.div_mul_cancel_r; lia. }
  destruct (parse_canonical (total_microseconds t * 1000)) as (t' & Ht' & Htot' & Hnorm').
  - lia.
  - rewrite Hsecs. unfold timedelta_range.
    pose proof (Z.div_pos (total_microseconds t) 1000000 Htot ltac:(lia)).
    pose proof (Z.mul_div_le (total_microseconds t) 1000000 ltac:(lia)). lia.
  - exists (canonical_form (total_microseconds t * 1000)), t'.
    rewrite formatter_cellwise. split; [reflexivity|]. split; [exact Ht'|].
    rewrite Hsecs in Htot'. split; [exact Htot'|].
    intros Hus. apply normalised_inj; try assumption. rewrite Htot'.
    unfold total_microseconds. rewrite Hus, Z.add_0_r. now rewrite Z.div_mul by lia.
Qed.

Lemma duration_round_trip_witness :
  exists (s' : string) (t' : timedelta),
    util_timedelta_to_slurm_duration [Some 183845000000000] = [s']
    /\ util_slurm_duration_to_timedelta s' = Return (Some t')
    /\ total_microseconds t'
       = total_microseconds (mk_timedelta 2 11045 0) / 1000000 * 1000000
    /\ (td_microseconds (mk_timedelta 2 11045 0) = 0 -> t' = mk_timedelta 2 11045 0).
Proof.
  exact (duration_round_trip "2-03:04:05" (mk_timedelta 2 11045 0) 183845000000000
           eq_refl eq_refl).
Defined.

(** C1, the claim as stated fails: "0:1.5" parses to one second and a half,
    is formatted as "00:00:01" and parses back to one second. *)
Lemma round_trip_drops_fraction :
  util_slurm_duration_to_timedelta "0:1.5" = Return (Some (mk_timedelta 0 1 500000))
  /\ to_timedelta64 (mk_timedelta 0 1 500000) = Some 1500000000
  /\ util_timedelta_to_slurm_duration [Some 1500000000] = ["00:00:01"]
  /\ util_slurm_duration_to_timedelta "00:00:01" = Return (Some (mk_timedelta 0 1 0))
  /\ total_microseconds (mk_timedelta 0 1 0) <> total_microseconds (mk_timedelta 0 1 500000).
Proof. repeat split; try (vm_compute; reflexivity). vm_compute. discriminate. Qed.

(** ** The batch duration parser: rewriting *)

Lemma replace_char_app (t a b : string) :
  all_chars not_dash a = true ->
  replace_char "-" t (a ++ b) = a ++ replace_char "-" t b.
Proof.
  induction a as [|c a IH]; [reflexivity|]. cbn [all_chars append replace_char].
  intros H. apply andb_true_iff in H as [Hc Ha]. unfold not_dash in Hc.
  apply negb_true_iff in Hc. now rewrite Hc, (IH Ha).
Qed.

Lemma replace_char_none (t a : string) :
  all_chars not_dash a = true -> replace_char "-" t a = a.
Proof.
  intros H. rewrite <- (append_nil_r a) at 1.
  rewrite (replace_char_app t a "" H). cbn [replace_char]. apply append_nil_r.
Qed.

Lemma digit_or_dot_not_dash (s : string) :
  all_chars is_digit_or_dot s = true -> all_chars not_dash s = true.
Proof.
  apply all_chars_weaken. intros c.
  destruct c as [[] [] [] [] [] [] [] []]; intros H; try discriminate H; reflexivity.
Qed.

Lemma digits_not_dash (s : string) :
  all_chars is_digit s = true -> all_chars not_dash s = true.
Proof. intros H. now apply digit_or_dot_not_dash, digits_are_digit_or_dot. Qed.


Lemma re_sub_miss {G} (re : string -> option (G * string)) (repl : G -> string)
    (s : string) :
  re s = None -> re_sub re repl s = s.
Proof. intros H. unfold re_sub. now rewrite H. Qed.

Section Literals.

Variables d h m s : string.
Hypothesis Hd : all_chars is_digit d = true.
Hypothesis Hd' : nonempty d = true.
Hypothesis Hh : all_chars is_digit h = true.
Hypothesis Hh' : nonempty h = true.
Hypothesis Hm : all_chars is_digit m = true.
Hypothesis Hm' : nonempty m = true.
Hypothesis Hs : all_chars is_digit_or_dot s = true.
Hypothesis Hs' : nonempty s = true.

Ltac no_dash :=
  repeat first
    [ rewrite replace_char_app by (first [apply digits_not_dash; assumption
                                         | apply digit_or_dot_not_dash; assumption])
    | rewrite replace_char_none by (first [apply digits_not_dash; assumption
                                          | apply digit_or_dot_not_dash; assumption
                                          | reflexivity])
    | progress cbn [replace_char append Ascii.eqb Bool.eqb] ].

Ltac re_fact :=
  unfold re_m, re_ms, re_dh, re_dhm; cbn [append]; re_eval;
  try rewrite (re_plus_all is_digit_or_dot s) by assumption;
  try rewrite (re_plus_app is_digit_or_dot s) by re_side;
  re_eval; reflexivity.

Ltac miss re := rewrite (re_sub_miss re) by re_fact.





Lemma literal_dhms :
  duration_literal (d ++ "-" ++ h ++ ":" ++ m ++ ":" ++ s)
  = d ++ " days " ++ h ++ ":" ++ m ++ ":" ++ s.
Proof.
  unfold duration_literal. miss re_m. miss re_ms. miss re_dh. miss re_dhm.
  no_dash. reflexivity.
Qed.

Lemma literal_hms :
  duration_literal (h ++ ":" ++ m ++ ":" ++ s) = h ++ ":" ++ m ++ ":" ++ s.
Proof.
  unfold duration_literal. miss re_m. miss re_ms. miss re_dh. miss re_dhm.
  no_dash. reflexivity.
Qed.

End Literals.

(** ** Decimal literals with a fraction *)


Lemma split_dot_point (ip fp : string) :
  all_chars is_digit ip = true -> split_dot (ip ++ "." ++ fp) = (ip, Some fp).
Proof.
  induction ip as [|c ip IH]; [reflexivity|]. cbn [all_chars append split_dot].
  intros H. apply andb_true_iff in H as [Hc Hip]. cbn [append] in IH. rewrite (IH Hip).
  destruct (Ascii.eqb_spec c "."); [subst c; discriminate Hc | reflexivity].
Qed.

Lemma decimal_literal_point (ip fp : string) :
  digits ip -> all_chars is_digit fp = true ->
  decimal_literal (ip ++ "." ++ fp)
  = Some (digits_value (ip ++ fp) # pow10 (String.length fp)).
Proof.
  intros [Hip Hip'] Hfp. unfold decimal_literal.
  now rewrite (split_dot_point ip fp Hip), Hip, Hfp, Hip'.
Qed.





(** [cast_from_unit] on a whole number of units. *)
Lemma cast_from_unit_whole (A m p : Z) :
  0 <= A -> cast_from_unit (A # 1) (m, p) = A * m.
Proof.
  intros HA. unfold cast_from_unit.
  rewrite trunc_nonneg by assumption. rewrite Z.div_1_r.
  assert (E0 : ((A # 1) - inject_Z A == 0)%Q).
  { unfold Qeq, Qminus, Qplus, Qopp, inject_Z. cbn [Qnum Qden]. ring. }
  assert (E : ((if (p =? 0)%Z then (A # 1) - inject_Z A
                else round_digits p ((A # 1) - inject_Z A)) == 0)%Q).
  { destruct (p =? 0)%Z; [exact E0|]. unfold round_digits.
    rewrite (round_half_even_comp _ 0%Q).
    - unfold Qdiv. apply Qmult_0_l.
    - rewrite E0. apply Qmult_0_l. }
  rewrite (trunc_comp _ 0%Q).
  - change (trunc 0) with 0. lia.
  - rewrite E. apply Qmult_0_l.
Qed.


Lemma from_spec_whole (g u : string) (m p : Z) :
  digits g ->
  parse_timedelta_unit u = Some (m, p) ->
  (u =? "M") || (u =? "Y") || (u =? "y") = false ->
  timedelta_from_spec g "" u = Some (digits_value g * m).
Proof.
  intros Hg Hu Hx. unfold timedelta_from_spec. rewrite Hx, Hu.
  rewrite (decimal_literal_point g "" Hg eq_refl), append_nil_r.
  cbn [String.length pow10]. rewrite cast_from_unit_whole; [reflexivity|].
  destruct Hg as [Hg _]. pose proof (digits_value_bounds g Hg). lia.
Qed.


(** ** The batch duration parser: reading the literal *)

Section ReaderSteps.

Variables (neg hd hv hh : bool) (cu : option field) (res : Z) (num fr unit : string).

Lemma step_blank (st : reader) : reader_step st " " = Some st.
Proof. destruct st. reflexivity. Qed.

Lemma step_letter (c : ascii) :
  is_letter c = true ->
  reader_step (mk_reader neg hd hv hh cu res num fr unit) c
  = Some (mk_reader neg false true hh cu res num fr (snoc unit c)).
Proof.
  destruct c as [[] [] [] [] [] [] [] []]; intros H; try discriminate H; reflexivity.
Qed.

Lemma step_digit_number (c : ascii) :
  is_digit c = true ->
  reader_step (mk_reader neg false hv hh cu res num fr "") c
  = Some (mk_reader neg false hv hh cu res (snoc num c) fr "").
Proof.
  destruct c as [[] [] [] [] [] [] [] []]; intros H; try discriminate H; reflexivity.
Qed.

Lemma step_digit_frac (c : ascii) :
  is_digit c = true ->
  reader_step (mk_reader neg true hv hh cu res num fr "") c
  = Some (mk_reader neg true hv hh cu res num (snoc fr c) "").
Proof.
  destruct c as [[] [] [] [] [] [] [] []]; intros H; try discriminate H; reflexivity.
Qed.

Lemma step_digit_unit (c : ascii) (r : Z) :
  is_digit c = true -> nonempty unit = true ->
  timedelta_from_spec num fr unit = Some r ->
  reader_step (mk_reader neg false hv hh cu res num fr unit) c
  = Some (mk_reader neg false hv hh cu (res + timedelta_as_neg r neg) (String c "") "" "").
Proof.
  intros Hc Hu Hr.
  destruct c as [[] [] [] [] [] [] [] []]; try discriminate Hc;
    unfold reader_step; cbn [Ascii.eqb Bool.eqb orb andb];
    change (is_digit _) with true; cbv iota; rewrite Hu; cbn [negb]; rewrite Hr;
    reflexivity.
Qed.

Lemma step_colon (n : Z) :
  nonempty num = true -> py_int num = Some n ->
  reader_step (mk_reader neg hd hv hh cu res num fr unit) ":"
  = Some (mk_reader (if hv then false else neg) hd hv true
            (Some match cu with None => field_h | Some field_h => field_m | Some _ => field_s end)
            (res + timedelta_as_neg
                     (n * match cu with
                          | None => 1000000000 * 3600
                          | Some field_h => 1000000000 * 60
                          | Some _ => 1000000000
                          end) (if hv then false else neg))
            "" fr "").
Proof.
  intros Hn Hi. unfold reader_step. cbn [Ascii.eqb Bool.eqb orb andb].
  change (is_digit ":") with false. cbv iota. rewrite Hn.
  destruct cu as [[| |]|]; rewrite Hi; reflexivity.
Qed.



End ReaderSteps.

Lemma run_number neg hv hh cu res fr (g rest num : string) :
  all_chars is_digit g = true ->
  reader_run (mk_reader neg false hv hh cu res num fr "") (g ++ rest)
  = reader_run (mk_reader neg false hv hh cu res (num ++ g) fr "") rest.
Proof.
  revert num. induction g as [|c g IH]; intros num H.
  - now rewrite append_nil_r.
  - cbn [all_chars] in H. apply andb_true_iff in H as [Hc Hg].
    cbn [append reader_run]. rewrite (step_digit_number _ _ _ _ _ _ _ c Hc).
    rewrite (IH _ Hg). unfold snoc. rewrite append_assoc. reflexivity.
Qed.

Lemma run_frac neg hv hh cu res num (g rest fr : string) :
  all_chars is_digit g = true ->
  reader_run (mk_reader neg true hv hh cu res num fr "") (g ++ rest)
  = reader_run (mk_reader neg true hv hh cu res num (fr ++ g) "") rest.
Proof.
  revert fr. induction g as [|c g IH]; intros fr H.
  - now rewrite append_nil_r.
  - cbn [all_chars] in H. apply andb_true_iff in H as [Hc Hg].
    cbn [append reader_run]. rewrite (step_digit_frac _ _ _ _ _ _ _ c Hc).
    rewrite (IH _ Hg). unfold snoc. rewrite append_assoc. reflexivity.
Qed.

Lemma run_unit_number neg hv hh cu res num fr unit (g rest : string) (r : Z) :
  all_chars is_digit g = true -> nonempty g = true ->
  nonempty unit = true -> timedelta_from_spec num fr unit = Some r ->
  reader_run (mk_reader neg false hv hh cu res num fr unit) (g ++ rest)
  = reader_run (mk_reader neg false hv hh cu (res + timedelta_as_neg r neg) g "" "") rest.
Proof.
  intros Hg Hne Hu Hr. destruct g as [|c g]; [discriminate Hne|].
  cbn [all_chars] in Hg. apply andb_true_iff in Hg as [Hc Hg].
  cbn [append reader_run].
  rewrite (step_digit_unit neg hv hh cu res num fr unit c r Hc Hu Hr).
  rewrite (run_number _ _ _ _ _ _ g rest (String c "") Hg). reflexivity.
Qed.

Lemma to_timedelta_cell_digits (g rest : string) :
  all_chars is_digit g = true -> nonempty g = true ->
  to_timedelta_cell (Some (g ++ rest))
  = 'ns <-? read (g ++ rest) ;; if in_timedelta64 ns then Some ns else None.
Proof.
  intros Hg Hne. destruct g as [|c g]; [discriminate Hne|].
  cbn [all_chars] in Hg. apply andb_true_iff in Hg as [Hc _].
  unfold to_timedelta_cell, read, in_timedelta64. cbn [append].
  destruct c as [[] [] [] [] [] [] [] []]; try discriminate Hc;
    cbn [String.eqb Ascii.eqb Bool.eqb existsb nat_strings orb andb];
    destruct (reader_run reader_init _); reflexivity.
Qed.

Lemma run_number_end neg hv hh cu res fr (g num : string) :
  all_chars is_digit g = true ->
  reader_run (mk_reader neg false hv hh cu res num fr "") g
  = Some (mk_reader neg false hv hh cu res (num ++ g) fr "").
Proof.
  intros H. rewrite <- (append_nil_r g) at 1. now rewrite run_number.
Qed.

Lemma run_frac_end neg hv hh cu res num (g fr : string) :
  all_chars is_digit g = true ->
  reader_run (mk_reader neg true hv hh cu res num fr "") g
  = Some (mk_reader neg true hv hh cu res num (fr ++ g) "").
Proof.
  intros H. rewrite <- (append_nil_r g) at 1. now rewrite run_frac.
Qed.

Ltac rd :=
  repeat first
    [ rewrite run_number by assumption
    | rewrite run_frac by assumption
    | rewrite run_number_end by assumption
    | rewrite run_frac_end by assumption
    | rewrite step_blank
    | rewrite step_letter by reflexivity
    | progress cbn [reader_run append snoc] ].


(** What is pending after [hh:mm:ss]: the whole seconds. *)
Lemma finish_seconds neg hv hh res (num fr : string) :
  all_chars is_digit num = true -> nonempty num = true ->
  reader_finish (mk_reader neg false hv hh (Some field_m) res num fr "")
  = Some (res + timedelta_as_neg (digits_value num * 1000000000) neg).
Proof.
  intros Hn Hne. unfold reader_finish. cbn [andb]. now rewrite (py_int_digits num Hn Hne).
Qed.

(** What is pending after [<number> <unit>]. *)
Lemma finish_unit neg hv hh res (num fr unit : string) (r : Z) :
  nonempty unit = true -> nonempty num = true ->
  timedelta_from_spec num fr unit = Some r ->
  reader_finish (mk_reader neg false hv hh None res num fr unit)
  = Some (res + timedelta_as_neg r neg).
Proof.
  intros Hu Hn Hr. unfold reader_finish. cbn [andb]. now rewrite Hu, Hn, Hr.
Qed.

Section Reading.

Variables d h m ip fp : string.
Hypothesis Hd : all_chars is_digit d = true.
Hypothesis Hd' : nonempty d = true.
Hypothesis Hh : all_chars is_digit h = true.
Hypothesis Hh' : nonempty h = true.
Hypothesis Hm : all_chars is_digit m = true.
Hypothesis Hm' : nonempty m = true.
Hypothesis Hip : all_chars is_digit ip = true.
Hypothesis Hip' : nonempty ip = true.
Hypothesis Hfp : all_chars is_digit fp = true.
Hypothesis Hfp' : nonempty fp = true.
Hypothesis Hk : (String.length fp <= 9)%nat.

Let D := digits_value d.
Let H := digits_value h.
Let M := digits_value m.
Let A := digits_value ip.
Let B := digits_value fp * 10 ^ (9 - Z.of_nat (String.length fp)).






Lemma read_hms_whole :
  read (h ++ ":" ++ m ++ ":" ++ ip)
  = Some (H * (1000000000 * 3600) + M * (1000000000 * 60) + A * 1000000000).
Proof.
  unfold read, reader_init. cbn [append]. rd.
  rewrite (step_colon _ _ _ _ _ _ _ _ _ H Hh' (py_int_digits h Hh Hh')). rd.
  rewrite (step_colon _ _ _ _ _ _ _ _ _ M Hm' (py_int_digits m Hm Hm')). rd.
  rewrite finish_seconds by assumption. reflexivity.
Qed.


Lemma read_dhms_whole :
  read (d ++ " days " ++ h ++ ":" ++ m ++ ":" ++ ip)
  = Some (D * 86400000000000 + H * (1000000000 * 3600) + M * (1000000000 * 60)
          + A * 1000000000).
Proof.
  unfold read, reader_init. cbn [append]. rd.
  erewrite run_unit_number;
    [ | assumption | assumption | reflexivity
      | apply (from_spec_whole d "days" _ _ (conj Hd Hd') eq_refl eq_refl)].
  rd. rewrite (step_colon _ _ _ _ _ _ _ _ _ H Hh' (py_int_digits h Hh Hh')). rd.
  rewrite (step_colon _ _ _ _ _ _ _ _ _ M Hm' (py_int_digits m Hm Hm')). rd.
  rewrite finish_seconds by assumption. reflexivity.
Qed.


End Reading.

(** ** The batch parser against the scalar parser *)

Lemma batch_single (text : string) (ns : Z) check_na na_is :
  duration_cell (Some text) = Some ns ->
  util_slurm_duration_to_duration [Some text] check_na na_is = ([], Return [Some ns]).
Proof.
  intros H. rewrite batch_unfold. cbn [map]. rewrite H.
  destruct (check_na_nothing_to_report
              [option_map duration_literal (Some text)]
              (@cons timedelta64 (Some ns) nil) na_is check_na eq_refl)
    as [r Hr].
  unfold timedelta64 in *. rewrite Hr. reflexivity.
Qed.








(** A duration past what 64 bits of nanoseconds hold (about 106751 days):
    the scalar parser returns it, the batch parser has no value for it. *)
Lemma batch_out_of_range :
  util_slurm_duration_to_timedelta "200000-00" = Return (Some (mk_timedelta 200000 0 0))
  /\ to_timedelta64 (mk_timedelta 200000 0 0) = None
  /\ util_slurm_duration_to_duration [Some "200000-00"] "ignore" None = ([], Return [None]).
Proof. repeat split; vm_compute; reflexivity. Qed.

(** * Further properties of the converters *)

(** ** More on the NA validator *)

Lemma non_valid_rows {A} (na : list string) (v : list cell) (x : list (option A)) :
  map2 andb (isna x) (map negb (isin v na)) = map (reported na) (combine v x).
Proof.
  revert x. induction v as [|c v IH]; intros [|y x]; try reflexivity.
  cbn [isna isin map map2 combine]. f_equal; [|apply IH].
  destruct c, y; reflexivity.
Qed.

Lemma np_sum_map {B} (f : B -> bool) (l : list B) :
  np_sum (map f l) = List.length (filter f l).
Proof.
  unfold np_sum. induction l as [|b l IH]; [reflexivity|].
  cbn [map filter]. destruct (f b); cbn [List.length]; now rewrite IH.
Qed.

Lemma mask_rows {A} (na : list string) (v : list cell) (x : list (option A)) :
  mask v (map (reported na) (combine v x)) = reported_cells na v x.
Proof.
  unfold reported_cells. revert x. induction v as [|c v IH]; intros [|y x]; try reflexivity.
  cbn [combine map mask filter]. destruct (reported na (c, y)); cbn [map fst]; now rewrite IH.
Qed.

Lemma check_na_unfold {A} (v : list cell) (x : list (option A)) na_is check_na :
  util_check_na v x na_is check_na
  = if check_na =? "ignore" then ret None
    else
      let n := List.length (reported_cells (markers na_is) v x) in
      (if (0 <? n)%nat then
         sample <- lift (np_unique (reported_cells (markers na_is) v x)) ;;
         let msg := NonValidNA n (markers na_is) (firstn 20 sample) in
         if check_na =? "warning" then log (LogWarning msg)
         else if check_na =? "error" then log (LogError msg) ;;; raise (ValueError msg)
         else ret tt
       else ret tt) ;;;
      ret (Some n).
Proof.
  unfold util_check_na. fold (markers na_is).
  rewrite non_valid_rows, np_sum_map, mask_rows.
  unfold reported_cells. rewrite length_map. reflexivity.
Qed.

Lemma strings_of_spec (w : list cell) (l : list string) :
  strings_of w = Some l <-> w = map Some l.
Proof.
  revert l. induction w as [|c w IH]; intros l.
  - cbn. split; [intros H; inversion H; reflexivity | intros H; destruct l; [reflexivity|discriminate]].
  - destruct c as [s|]; cbn [strings_of].
    + destruct (strings_of w) as [l0|] eqn:E; cbn [option_map].
      * split.
        -- intros H. inversion H. cbn. f_equal. now apply IH.
        -- intros H. destruct l as [|s' l]; [discriminate|]. cbn in H. inversion H. subst.
           f_equal. f_equal. assert (Some l0 = Some l) by now apply IH. congruence.
      * split; [discriminate|]. intros H. destruct l as [|s' l]; [discriminate|].
        cbn in H. inversion H. subst. assert (None = Some l) by now apply IH. discriminate.
    + split; [discriminate|]. destruct l; discriminate.
Qed.

Lemma reported_cells_strings {A} na (v : list cell) (x : list (option A)) (l : list string) :
  strings_of v = Some l ->
  exists l', reported_cells na v x = map Some l'.
Proof.
  intros H. apply strings_of_spec in H. subst v. unfold reported_cells.
  revert x. induction l as [|s l IH]; intros x; [exists []; reflexivity|].
  destruct x as [|y x]; [exists []; reflexivity|].
  cbn [map combine filter]. destruct (IH x) as [l' Hl'].
  match goal with |- context [if ?b then _ else _] => destruct b end;
    cbn [map fst]; rewrite Hl'; [exists (s :: l')|exists l']; reflexivity.
Qed.

Lemma string_lt_total (a b : string) : a = b \/ String.ltb a b = true \/ String.ltb b a = true.
Proof.
  unfold String.ltb. rewrite (String.compare_antisym b a).
  destruct (String.compare a b) eqn:E; cbn; auto.
  left. now apply String.compare_eq_iff.
Qed.

Lemma insert_unique_in (s : string) (l : list string) (t : string) :
  In t (insert_unique s l) <-> t = s \/ In t l.
Proof.
  induction l as [|x l IH]; cbn [insert_unique In].
  - intuition congruence.
  - destruct (String.eqb_spec s x) as [->|Hsx]; [cbn [In]; intuition congruence|].
    destruct (String.ltb s x); cbn [In]; [intuition congruence|].
    rewrite IH. intuition congruence.
Qed.

Lemma sort_unique_in (l : list string) (t : string) : In t (sort_unique l) <-> In t l.
Proof.
  unfold sort_unique. induction l as [|x l IH]; cbn [fold_right In]; [tauto|].
  rewrite insert_unique_in, IH. intuition congruence.
Qed.

Lemma insert_unique_head (s : string) (l : list string) :
  exists h r, insert_unique s l = h :: r /\ (h = s \/ exists r', l = h :: r').
Proof.
  destruct l as [|x l]; cbn [insert_unique]; [eauto|].
  destruct (s =? x); [eauto 6|]. destruct (String.ltb s x); eauto 6.
Qed.

Lemma insert_unique_increasing (s : string) (l : list string) :
  increasing l = true -> increasing (insert_unique s l) = true.
Proof.
  induction l as [|x l IH]; intros H; [reflexivity|].
  cbn [insert_unique].
  destruct (String.eqb_spec s x) as [->|Hsx]; [exact H|].
  destruct (String.ltb s x) eqn:Hlt.
  - cbn [increasing]. rewrite Hlt. exact H.
  - assert (Hxs : String.ltb x s = true).
    { destruct (string_lt_total s x) as [E|[E|E]]; [contradiction | congruence | exact E]. }
    assert (Hl : increasing l = true).
    { cbn [increasing] in H. destruct l; [reflexivity|]. now apply andb_true_iff in H. }
    specialize (IH Hl).
    destruct (insert_unique_head s l) as (h & r & E & Hh). rewrite E in *.
    cbn [increasing]. cbn [increasing] in IH. rewrite andb_true_iff. split; [|exact IH].
    destruct Hh as [->|[r' ->]]; [exact Hxs|].
    cbn [increasing] in H. now apply andb_true_iff in H.
Qed.

Lemma sort_unique_increasing (l : list string) : increasing (sort_unique l) = true.
Proof.
  unfold sort_unique. induction l as [|x l IH]; [reflexivity|].
  cbn [fold_right]. now apply insert_unique_increasing.
Qed.

Lemma increasing_firstn (n : nat) (l : list string) :
  increasing l = true -> increasing (firstn n l) = true.
Proof.
  revert l. induction n as [|n IH]; intros l H; [reflexivity|].
  destruct l as [|a l]; [reflexivity|]. cbn [firstn].
  assert (Hl : increasing l = true).
  { cbn [increasing] in H. destruct l; [reflexivity|]. now apply andb_true_iff in H. }
  specialize (IH l Hl). destruct l as [|b l]; [destruct n; reflexivity|].
  destruct n as [|n]; [reflexivity|]. cbn [firstn] in *. cbn [increasing] in *.
  apply andb_true_iff in H as [Hab _]. now rewrite Hab.
Qed.

Lemma np_unique_strings (l : list string) :
  np_unique (map Some l) = Return (map Some (sort_unique l)).
Proof.
  unfold np_unique. now rewrite (proj2 (strings_of_spec (map Some l) l) eq_refl).
Qed.

(** X1.  On a column of texts, [warning] and [error] count the rows whose
    converted cell is missing while the original text is no marker.  When
    there are such rows, [warning] logs one record and returns the count, and
    [error] logs the same message and raises it as a ValueError; the message
    carries the count, the markers and a sample: the distinct texts of those
    rows in increasing order, cut after the first 20.  When there is no such
    row, nothing is logged and the count 0 is returned. *)
Theorem check_na_report :
  forall (A : Type) (v : list cell) (x : list (option A)) (na_is : option (list string))
         (l : list string),
    strings_of v = Some l ->
    let cells := reported_cells (markers na_is) v x in
    let n := List.length cells in
    exists sample : list string,
      increasing sample = true
      /\ (forall s, In s sample <-> In (Some s) cells)
      /\ let msg := NonValidNA n (markers na_is) (map Some (firstn 20 sample)) in
         util_check_na v x na_is "warning"
         = ((if (0 <? n)%nat then [LogWarning msg] else []), Return (Some n))
         /\ util_check_na v x na_is "error"
            = (if (0 <? n)%nat then ([LogError msg], Raise (ValueError msg))
               else ([], Return (Some n))).
Proof.
  intros A v x na_is l Hv cells n.
  destruct (reported_cells_strings (markers na_is) v x l Hv) as [l' Hl'].
  exists (sort_unique l'). split; [apply sort_unique_increasing|]. split.
  - intros s. rewrite sort_unique_in. unfold cells. rewrite Hl'. rewrite in_map_iff.
    split; [intros H; exists s; auto | intros (t & E & H); now inversion E; subst].
  - subst n cells. cbv zeta. rewrite !check_na_unfold. cbv zeta.
    rewrite Hl', np_unique_strings.
    cbn [String.eqb Ascii.eqb Bool.eqb]. unfold bind, lift, ret, log, raise.
    rewrite firstn_map.
    destruct (0 <? _)%nat; split; reflexivity.
Qed.

Lemma check_na_report_witness :
  exists sample : list string,
    increasing sample = true
    /\ (forall s, In s sample
                  <-> In (Some s) (reported_cells default_na_is
                                     [Some ""; Some "zz"; Some "garbage"; Some "zz"]
                                     [@None Z; None; None; None]))
    /\ util_check_na [Some ""; Some "zz"; Some "garbage"; Some "zz"] [@None Z; None; None; None]
         None "warning"
       = ([LogWarning (NonValidNA 3 default_na_is (map Some (firstn 20 sample)))],
          Return (Some 3%nat))
    /\ util_check_na [Some ""; Some "zz"; Some "garbage"; Some "zz"] [@None Z; None; None; None]
         None "error"
       = ([LogError (NonValidNA 3 default_na_is (map Some (firstn 20 sample)))],
          Raise (ValueError (NonValidNA 3 default_na_is (map Some (firstn 20 sample))))).
Proof.
  exact (check_na_report Z [Some ""; Some "zz"; Some "garbage"; Some "zz"]
           [None; None; None; None] None [""; "zz"; "garbage"; "zz"] eq_refl).
Defined.

(** X2.  A policy the validator does not know (anything but [ignore],
    [warning] and [error]; "warn" is one) is not refused: on a column of texts
    the rows are counted and the count is returned, nothing is logged and
    nothing is raised. *)
Theorem check_na_unknown_policy :
  forall (A : Type) (v : list cell) (x : list (option A)) (na_is : option (list string))
         (l : list string) (check_na : string),
    strings_of v = Some l ->
    check_na <> "ignore" -> check_na <> "warning" -> check_na <> "error" ->
    util_check_na v x na_is check_na
    = ([], Return (Some (List.length (reported_cells (markers na_is) v x)))).
Proof.
  intros A v x na_is l check_na Hv Hi Hw He.
  destruct (reported_cells_strings (markers na_is) v x l Hv) as [l' Hl'].
  rewrite check_na_unfold.
  apply String.eqb_neq in Hi, Hw, He. rewrite Hi. cbv zeta.
  rewrite Hl', np_unique_strings, Hw, He.
  unfold bind, lift, ret. destruct (0 <? _)%nat; reflexivity.
Qed.

Lemma check_na_unknown_policy_witness :
  util_check_na [Some ""; Some "Unknown"; Some "garbage"] [@None Z; None; None] None "warn"
  = ([], Return (Some 1%nat)).
Proof.
  exact (check_na_unknown_policy Z [Some ""; Some "Unknown"; Some "garbage"]
           [None; None; None] None [""; "Unknown"; "garbage"] "warn" eq_refl
           ltac:(discriminate) ltac:(discriminate) ltac:(discriminate)).
Defined.

Lemma reported_cells_in {A} (na : list string) (v : list cell) (x : list (option A))
    (c : cell) (y : option A) :
  In (c, y) (combine v x) -> reported na (c, y) = true -> In c (reported_cells na v x).
Proof.
  intros Hin Hr. unfold reported_cells. apply in_map_iff. exists (c, y). split; [reflexivity|].
  apply filter_In. auto.
Qed.

Lemma np_unique_mixed (w : list cell) (s : string) :
  In None w -> In (Some s) w -> np_unique w = Raise (TypeError NotOrderable).
Proof.
  intros Hn Hs. unfold np_unique.
  destruct (strings_of w) as [l|] eqn:E.
  - apply strings_of_spec in E. subst w. apply in_map_iff in Hn as (t & Ht & _). discriminate.
  - match goal with |- context [forallb ?f w] => destruct (forallb f w) eqn:F end;
      [|reflexivity].
    rewrite forallb_forall in F. specialize (F _ Hs). discriminate.
Qed.

(** X3.  When the rows to report hold a missing original cell as well as a
    text, sorting the sample fails: under every policy but [ignore] the call
    raises the TypeError of comparing a text with NaN, and logs nothing. *)
Theorem check_na_mixed_cells :
  forall (A : Type) (v : list cell) (x : list (option A)) (na_is : option (list string))
         (check_na s : string),
    check_na <> "ignore" ->
    In (None, None) (combine v x) ->
    In (Some s, None) (combine v x) -> existsb (String.eqb s) (markers na_is) = false ->
    util_check_na v x na_is check_na = ([], Raise (TypeError NotOrderable)).
Proof.
  intros A v x na_is check_na s Hi Hnone Hsome Hs.
  rewrite check_na_unfold. apply String.eqb_neq in Hi. rewrite Hi. cbv zeta.
  assert (H1 : In None (reported_cells (markers na_is) v x))
    by (apply (reported_cells_in _ _ _ None None); [assumption | reflexivity]).
  assert (H2 : In (Some s) (reported_cells (markers na_is) v x))
    by (apply (reported_cells_in _ _ _ (Some s) None); [assumption | cbn; now rewrite Hs]).
  rewrite (np_unique_mixed _ s H1 H2).
  destruct (reported_cells (markers na_is) v x); [contradiction|]. reflexivity.
Qed.

Lemma check_na_mixed_cells_witness :
  util_check_na [None; Some "garbage"] [@None Z; None] None "warning"
  = ([], Raise (TypeError NotOrderable)).
Proof.
  exact (check_na_mixed_cells Z [None; Some "garbage"] [None; None] None "warning" "garbage"
           ltac:(discriminate) (or_introl eq_refl) (or_intror (or_introl eq_refl)) eq_refl).
Defined.

(** ** The coercers *)

Lemma reported_cells_self (na : list string) (v : list cell) :
  reported_cells na v v = repeat None (np_sum (isna v)).
Proof.
  unfold reported_cells, np_sum, isna. induction v as [|[s|] v IH]; [reflexivity| |].
  - cbn [combine filter reported map]. exact IH.
  - cbn [combine filter reported map fst List.length repeat]. now rewrite IH.
Qed.

Lemma forallb_missing (n : nat) :
  forallb (fun c : cell => match c with None => true | Some _ => false end)
    (repeat None n) = true.
Proof. induction n as [|n IH]; [reflexivity | exact IH]. Qed.

Lemma np_unique_missing (k : nat) : np_unique (repeat None (S k)) = Return (repeat None (S k)).
Proof. unfold np_unique. rewrite forallb_missing. reflexivity. Qed.

(** X4.  [util_factorize] keeps every cell, so its validator reports exactly
    the cells that were missing to begin with, whatever the markers are.
    With no missing cell the column is returned under every policy; with [k]
    missing cells [warning] logs the count [k] and returns the column, and
    [error] logs and raises. *)
Theorem factorize_reports_missing_cells :
  forall (v : list cell) (check_na : string) (na_is : option (list string)),
    let k := np_sum (isna v) in
    let msg := NonValidNA k (markers na_is) (firstn 20 (repeat None k)) in
    util_factorize v check_na na_is
    = if (check_na =? "ignore") || (k =? 0)%nat then ([], Return v)
      else if check_na =? "warning" then ([LogWarning msg], Return v)
      else if check_na =? "error" then ([LogError msg], Raise (ValueError msg))
      else ([], Return v).
Proof.
  intros v check_na na_is k msg. subst msg. unfold util_factorize.
  rewrite check_na_unfold. rewrite reported_cells_self. fold k. rewrite repeat_length.
  destruct (check_na =? "ignore"); [reflexivity|]. cbn [orb]. cbv zeta.
  destruct k as [|k]; [reflexivity|].
  rewrite np_unique_missing. cbn [Nat.ltb Nat.leb Nat.eqb].
  destruct (check_na =? "warning"); [reflexivity|].
  destruct (check_na =? "error"); reflexivity.
Qed.

(** ** The memory parser and the validator *)

Lemma check_na_error_raises {A} (v : list cell) (x : list (option A)) na_is :
  In (None, None) (combine v x) ->
  exists e, outcome (util_check_na v x na_is "error") = Raise e
            /\ (e = TypeError NotOrderable
                \/ exists n sample, e = ValueError (NonValidNA n (markers na_is) sample)).
Proof.
  intros Hin. rewrite check_na_unfold. cbn [String.eqb Ascii.eqb Bool.eqb]. cbv zeta.
  pose proof (reported_cells_in (markers na_is) v x None None Hin eq_refl) as Hc.
  destruct (reported_cells (markers na_is) v x) as [|c cells] eqn:E; [contradiction|].
  cbn [List.length Nat.ltb Nat.leb].
  unfold np_unique.
  destruct (strings_of (c :: cells)) as [l|].
  - eexists. split; [reflexivity|]. right. eauto.
  - match goal with |- context [forallb ?f ?w] => destruct (forallb f w) end.
    + eexists. split; [reflexivity|]. right. eauto.
    + eexists. split; [reflexivity|]. now left.
Qed.

Lemma in_combine_map {A B} (f : A -> B) (l : list A) (a : A) :
  In a l -> In (a, f a) (combine l (map f l)).
Proof.
  induction l as [|b l IH]; [contradiction|]. intros [->|H]; [now left|].
  right. now apply IH.
Qed.

Lemma memory_raises_on_unmatched (numeric_of_string : string -> option Q) (v : list cell)
    (convert_to_int : bool) (return_in : string) (na_is : option (list string))
    (use1024 : bool) (c : cell) :
  In c v -> memory_magnitude c = None ->
  exists e,
    outcome (util_memory numeric_of_string v convert_to_int return_in "error" na_is use1024)
    = Raise e
    /\ (e = TypeError NotOrderable
        \/ exists n sample, e = ValueError (NonValidNA n (markers na_is) sample)).
Proof.
  intros Hc Hm.
  unfold util_memory. cbv zeta. rewrite outcome_bind, util_norm_si_unfold, outcome_bind.
  assert (Hfst : fst (str_extract re_memory v) = map memory_magnitude v).
  { unfold str_extract. cbn [fst]. rewrite map_map. apply map_ext. intros [s|]; reflexivity. }
  rewrite Hfst.
  destruct (check_na_error_raises (map memory_magnitude v)
              (map (si_cell numeric_of_string use1024) (map memory_magnitude v)) na_is)
    as (e & He & Hk).
  - apply (in_combine_map (si_cell numeric_of_string use1024) _ None).
    rewrite <- Hm. now apply in_map.
  - exists e. rewrite He. auto.
Qed.

(** X5.  The memory parser hands the validator the text its pattern
    extracted, not the cell.  A cell the pattern does not match (each default
    marker, and a missing cell) reaches the validator as a missing value,
    which no list of markers accepts.  So under the policy [error] the memory
    parser raises on every column with such a cell: the ValueError of the
    validator, or the TypeError of sorting its sample. *)
Theorem memory_error_policy_rejects_markers :
  (forall s, In s default_na_is -> memory_magnitude (Some s) = None)
  /\ memory_magnitude None = None
  /\ forall (numeric_of_string : string -> option Q) (v : list cell) (convert_to_int : bool)
            (return_in : string) (na_is : option (list string)) (use1024 : bool),
       (exists c, In c v /\ memory_magnitude c = None) ->
       exists e,
         outcome (util_memory numeric_of_string v convert_to_int return_in "error" na_is use1024)
         = Raise e
         /\ (e = TypeError NotOrderable
             \/ exists n sample, e = ValueError (NonValidNA n (markers na_is) sample)).
Proof.
  split; [|split; [reflexivity|]].
  - intros s Hs. cbn [In default_na_is] in Hs.
    repeat (destruct Hs as [<-|Hs]; [reflexivity|]). contradiction.
  - intros numeric_of_string v convert_to_int return_in na_is use1024 (c & Hc & Hm).
    now apply (memory_raises_on_unmatched numeric_of_string v convert_to_int return_in na_is
                 use1024 c).
Qed.

Lemma memory_error_policy_rejects_markers_witness :
  exists e,
    outcome (util_memory decimal_literal [Some "2G"; Some ""] true "" "error" None true)
    = Raise e
    /\ (e = TypeError NotOrderable
        \/ exists n sample, e = ValueError (NonValidNA n default_na_is sample)).
Proof.
  exact (proj2 (proj2 memory_error_policy_rejects_markers) decimal_literal
           [Some "2G"; Some ""] true "" None true
           (ex_intro _ (Some "") (conj (or_intror (or_introl eq_refl)) eq_refl))).
Defined.

(** ** The SI parser and the 64-bit range *)




(** ** The policy error as a strict mode *)

Lemma check_na_error_outcome {A} (v : list cell) (x : list (option A)) na_is :
  match reported_cells (markers na_is) v x with
  | [] => util_check_na v x na_is "error" = ([], Return (Some 0%nat))
  | _ :: _ => exists e, outcome (util_check_na v x na_is "error") = Raise e
  end.
Proof.
  rewrite check_na_unfold. cbn [String.eqb Ascii.eqb Bool.eqb]. cbv zeta.
  destruct (reported_cells (markers na_is) v x) as [|c cells]; [reflexivity|].
  cbn [List.length Nat.ltb Nat.leb].
  destruct (np_unique (c :: cells)) as [sample|e]; eexists; reflexivity.
Qed.

Lemma reported_cells_nil {A} (na : list string) (f : cell -> option A) (v : list cell) :
  reported_cells na v (map f v) = []
  <-> forall c, In c v -> reported na (c, f c) = false.
Proof.
  unfold reported_cells. induction v as [|c v IH]; cbn [map combine filter In].
  - split; [intros _ c [] | reflexivity].
  - destruct (reported na (c, f c)) eqn:E; cbn [map].
    + split; [discriminate|]. intros H. specialize (H c (or_introl eq_refl)). congruence.
    + rewrite IH. split.
      * intros H c' [<-|Hc']; [exact E | now apply H].
      * intros H c' Hc'. apply H. now right.
Qed.

Lemma check_error_accepted {A} (f : cell -> option A) (v : list cell)
    (na_is : option (list string)) :
  let accepted :=
    forall c, In c v -> f c = None ->
              exists s, c = Some s /\ existsb (String.eqb s) (markers na_is) = true in
  (accepted -> util_check_na v (map f v) na_is "error" = ([], Return (Some 0%nat)))
  /\ ((exists r, outcome (util_check_na v (map f v) na_is "error") = Return r) -> accepted).
Proof.
  intros accepted. subst accepted.
  pose proof (check_na_error_outcome v (map f v) na_is) as Hc.
  pose proof (reported_cells_nil (markers na_is) f v) as Hnil.
  split.
  - intros Hacc.
    destruct (reported_cells (markers na_is) v (map f v)) as [|c cells]; [exact Hc|].
    exfalso. assert (Hn : c :: cells = []); [|discriminate].
    apply Hnil. intros c' Hc'. specialize (Hacc c' Hc').
    cbn [reported]. destruct (f c') eqn:E.
    + destruct c'; reflexivity.
    + destruct (Hacc eq_refl) as (s & -> & Hs). now rewrite Hs.
  - intros [r Hr].
    destruct (reported_cells (markers na_is) v (map f v)) as [|c cells].
    + intros c Hc' Hnum. pose proof (proj1 Hnil eq_refl c Hc') as Hrep.
      cbn [reported] in Hrep. rewrite Hnum in Hrep.
      destruct c as [s|]; [|discriminate]. exists s. split; [reflexivity|].
      now apply negb_false_iff in Hrep.
    + destruct Hc as [e He]. rewrite He in Hr. discriminate.
Qed.

(** X7.  Under the policy [error], [util_to_float] returns exactly when every
    cell that does not read as a number is the text of a marker (a missing
    cell is not one); it then returns the numbers read and logs nothing. *)
Theorem to_float_strict :
  forall (numeric_of_string : string -> option Q) (v : list cell)
         (na_is : option (list string)),
    let x := map (numeric_cell numeric_of_string) v in
    let accepted :=
      forall c, In c v -> numeric_cell numeric_of_string c = None ->
                exists s, c = Some s /\ existsb (String.eqb s) (markers na_is) = true in
    (accepted -> util_to_float numeric_of_string v "error" na_is = ([], Return x))
    /\ ((exists r, outcome (util_to_float numeric_of_string v "error" na_is) = Return r)
        -> accepted).
Proof.
  intros numeric_of_string v na_is x accepted. subst accepted.
  assert (Hx : util_to_float numeric_of_string v "error" na_is
               = (util_check_na v x na_is "error" ;;; ret x)).
  { unfold util_to_float. now rewrite to_numeric_cells. }
  destruct (check_error_accepted (numeric_cell numeric_of_string) v na_is) as [Hyes Hno].
  fold x in Hyes, Hno. rewrite Hx. split.
  - intros Hacc. now rewrite (Hyes Hacc).
  - intros [r Hr]. apply Hno. rewrite outcome_bind in Hr.
    destruct (outcome (util_check_na v x na_is "error")) as [n|e]; [eauto | discriminate].
Qed.

Lemma to_float_strict_witness :
  util_to_float decimal_literal [Some "1.5"; Some "Unknown"; Some "2"] "error" None
  = ([], Return [Some (15 # 10)%Q; None; Some (2 # 1)%Q]).
Proof.
  refine (proj1 (to_float_strict decimal_literal [Some "1.5"; Some "Unknown"; Some "2"] None) _).
  intros c [<-|[<-|[<-|[]]]] H; try discriminate H.
  exists "Unknown". split; reflexivity.
Defined.



(** ** The six patterns *)

Lemma digits_then_colon (s g r : string) :
  re_plus is_digit s = Some (g, String ":" r) ->
  re_plus is_digit_or_dot s = Some (g, String ":" r).
Proof.
  intros H. apply re_plus_spec in H as (-> & Hg & Hne & _).
  apply re_plus_app; [now apply digits_are_digit_or_dot | exact Hne | reflexivity].
Qed.

Lemma re_end_colon (r : string) : re_end (String ":" r) = false.
Proof. reflexivity. Qed.

Lemma re_end_dash (r : string) : re_end (String "-" r) = false.
Proof. reflexivity. Qed.

Ltac re_cbn :=
  rewrite ?re_end_colon, ?re_end_dash;
  cbn [re_lit Ascii.eqb Bool.eqb is_some].

Ltac one_left :=
  re_cbn; cbn [filter List.length];
  repeat match goal with
  | |- context [is_some ?o] => destruct (is_some o)
  end; cbn [filter List.length]; lia.

(** X9.  No text matches two of the six patterns of the scalar duration
    parser: the order in which the parser tries them decides nothing. *)
Theorem duration_patterns_exclusive :
  forall v : string, (patterns_matching v <= 1)%nat.
Proof.
  intros v. unfold patterns_matching, re_dhms, re_dhm, re_dh, re_hms, re_ms, re_m.
  destruct (re_plus is_digit v) as [[g1 r]|]; [|cbn; lia].
  destruct r as [|c r]; [cbn; lia|].
  cbn [re_lit].
  destruct (Ascii.eqb_spec "-" c) as [<-|Hdash].
  - (* days first *)
    re_cbn.
    destruct (re_plus is_digit r) as [[g2 r2]|]; [|cbn; lia].
    destruct r2 as [|c2 r2]; [cbn; lia|]. cbn [re_lit].
    destruct (Ascii.eqb_spec ":" c2) as [<-|Hcolon].
    + re_cbn.
      destruct (re_plus is_digit r2) as [[g3 r3]|]; [|cbn; lia].
      destruct r3 as [|c3 r3]; [cbn; lia|]. cbn [re_lit].
      destruct (Ascii.eqb_spec ":" c3) as [<-|Hcolon'].
      * one_left.
      * one_left.
    + one_left.
  - destruct (Ascii.eqb_spec ":" c) as [<-|Hcolon].
    + (* hours or minutes first *)
      re_cbn.
      destruct (re_plus is_digit r) as [[g2 r2]|] eqn:E2; [|one_left].
      destruct r2 as [|c2 r2]; [one_left|]. cbn [re_lit].
      destruct (Ascii.eqb_spec ":" c2) as [<-|Hcolon'].
      * rewrite (digits_then_colon r g2 r2 E2). one_left.
      * one_left.
    + one_left.
Qed.

(** ** The formatter, read backwards *)

Lemma append_same_length_inj (a a' b b' : string) :
  String.length b = String.length b' -> a ++ b = a' ++ b' -> a = a' /\ b = b'.
Proof.
  revert a'. induction a as [|c a IH]; intros [|c' a'] Hlen H; cbn [append] in H.
  - auto.
  - exfalso. subst b. cbn [String.length] in Hlen. rewrite length_append in Hlen. lia.
  - exfalso. subst b'. cbn [String.length] in Hlen. rewrite length_append in Hlen. lia.
  - inversion H; subst. destruct (IH a' Hlen H2) as [-> ->]. auto.
Qed.

Lemma py_str_inj (a b : Z) : py_str a = py_str b -> a = b.
Proof.
  unfold py_str. intros H.
  assert (Hi : forall n, NilZero.int_of_string (NilZero.string_of_int (Z.to_int n))
                         = Some (Z.to_int n)).
  { intros n. apply NilZero.isi; destruct n; cbn; try discriminate;
      intros E; inversion E as [E']; now apply Unsigned.to_uint_nonnil in E'. }
  pose proof (Hi a) as Ha. rewrite H, Hi in Ha. inversion Ha as [E].
  rewrite <- (DecimalZ.of_to a), <- (DecimalZ.of_to b). now rewrite E.
Qed.

Lemma two_digits_inj (n n' : Z) :
  0 <= n < 100 -> 0 <= n' < 100 -> two_digits n = two_digits n' -> n = n'.
Proof.
  intros Hn Hn' H. rewrite <- (two_digits_value n Hn), <- (two_digits_value n' Hn').
  now rewrite H.
Qed.

Lemma seconds_of_fields (secs : Z) :
  secs = ((secs / 86400 * 24 + (secs / 3600) mod 24) * 60 + (secs / 60) mod 60) * 60
         + secs mod 60.
Proof.
  pose proof (Z.div_mod secs 60 ltac:(lia)).
  pose proof (Z.div_mod (secs / 60) 60 ltac:(lia)).
  pose proof (Z.div_mod (secs / 3600) 24 ltac:(lia)).
  assert (secs / 60 / 60 = secs / 3600) by (rewrite Z.div_div by lia; reflexivity).
  assert (secs / 3600 / 24 = secs / 86400) by (rewrite Z.div_div by lia; reflexivity).
  lia.
Qed.

Lemma canonical_form_inj (a b : Z) :
  canonical_form a = canonical_form b -> a / 1000000000 = b / 1000000000.
Proof.
  unfold canonical_form. cbv zeta.
  set (sa := a / 1000000000). set (sb := b / 1000000000). intros H.
  apply append_same_length_inj in H as [HD H]; [|reflexivity].
  assert (Hh : two_digits ((sa / 3600) mod 24) = two_digits ((sb / 3600) mod 24)).
  { unfold two_digits in *. cbn [append] in H. inversion H. reflexivity. }
  assert (Hm : two_digits ((sa / 60) mod 60) = two_digits ((sb / 60) mod 60)).
  { unfold two_digits in *. cbn [append] in H. inversion H. reflexivity. }
  assert (Hs : two_digits (sa mod 60) = two_digits (sb mod 60)).
  { unfold two_digits in *. cbn [append] in H. inversion H. reflexivity. }
  apply two_digits_inj in Hh; [|mod_below_100|mod_below_100].
  apply two_digits_inj in Hm; [|mod_below_100|mod_below_100].
  apply two_digits_inj in Hs; [|mod_below_100|mod_below_100].
  assert (Hdays : sa / 86400 = sb / 86400).
  { destruct (Z.eqb_spec (sa / 86400) 0) as [Ea|Ea], (Z.eqb_spec (sb / 86400) 0) as [Eb|Eb].
    - congruence.
    - exfalso. destruct (py_str (sb / 86400)); discriminate HD.
    - exfalso. destruct (py_str (sa / 86400)); discriminate HD.
    - apply append_same_length_inj in HD as [HD _]; [|reflexivity]. now apply py_str_inj. }
  rewrite (seconds_of_fields sa), (seconds_of_fields sb). congruence.
Qed.

(** X10.  Two cells the formatter writes alike are both null or have the same
    whole seconds: the text [D-HH:MM:SS] determines the duration up to the
    fraction of a second that the formatter drops, negative durations
    included. *)
Theorem formatter_injective :
  forall c c' : timedelta64,
    util_timedelta_to_slurm_duration [c] = util_timedelta_to_slurm_duration [c'] ->
    option_map (fun t => t / 1000000000) c = option_map (fun t => t / 1000000000) c'.
Proof.
  intros c c' H. rewrite !formatter_cellwise in H. cbn [map] in H.
  inversion H as [E]. clear H.
  assert (Hna : forall t, canonical_form t <> "NA").
  { intros t Ht. apply (f_equal String.length) in Ht. unfold canonical_form in Ht.
    cbv zeta in Ht. rewrite length_append in Ht. cbn in Ht. lia. }
  destruct c as [t|], c' as [t'|]; cbn [format_cell option_map] in *.
  - f_equal. now apply canonical_form_inj.
  - now apply Hna in E.
  - symmetry in E. now apply Hna in E.
  - reflexivity.
Qed.

Lemma formatter_injective_witness :
  option_map (fun t => t / 1000000000) (Some 1500000000)
  = option_map (fun t => t / 1000000000) (Some 1000000000).
Proof.
  exact (formatter_injective (Some 1500000000) (Some 1000000000) eq_refl).
Defined.

Lemma canonical_form_seconds (ns : Z) :
  canonical_form (ns / 1000000000 * 1000000000) = canonical_form ns.
Proof. unfold canonical_form. now rewrite Z.div_mul by lia. Qed.

Lemma parse_after_dash (rest : string) :
  util_slurm_duration_to_timedelta (String "-" rest)
  = Raise (Exception (UnknownDurationFormat (String "-" rest))).
Proof. reflexivity. Qed.

(** X11.  The text the formatter writes for a duration of the column that is
    not negative is read by the scalar parser as the whole seconds of that
    duration, and the formatter writes those as the same text again.  The
    text of a negative duration starts with a minus sign and is refused by
    the scalar parser. *)
Theorem formatter_output_parses :
  forall (ns : Z) (s : string),
    in_int64 ns = true ->
    util_timedelta_to_slurm_duration [Some ns] = [s] ->
    (0 <= ns ->
     exists t ns',
       util_slurm_duration_to_timedelta s = Return (Some t)
       /\ to_timedelta64 t = Some ns'
       /\ ns' = ns / 1000000000 * 1000000000
       /\ util_timedelta_to_slurm_duration [Some ns'] = [s])
    /\ (ns < 0 ->
        util_slurm_duration_to_timedelta s = Raise (Exception (UnknownDurationFormat s))).
Proof.
  intros ns s Hr Hs. rewrite formatter_cellwise in Hs. cbn [map format_cell] in Hs.
  inversion Hs as [E]. clear Hs.
  unfold in_int64, int64_min, int64_max in Hr.
  apply andb_true_iff in Hr as [Hlo Hhi]. apply Z.leb_le in Hlo, Hhi.
  split.
  - intros Hns.
    assert (Hsecs : 0 <= ns / 1000000000) by (apply Z.div_pos; lia).
    assert (Hup : ns / 1000000000 * 1000000000 <= ns).
    { pose proof (Z.mul_div_le ns 1000000000 ltac:(lia)). lia. }
    destruct (parse_canonical ns Hns) as (t & Ht & Htot & _).
    { unfold timedelta_range. split; [lia|].
      assert (ns / 1000000000 <= 2 ^ 63) by (apply Z.div_le_upper_bound; lia). lia. }
    exists t, (ns / 1000000000 * 1000000000). split; [exact Ht|]. split; [|split].
    + unfold to_timedelta64. rewrite Htot.
      replace (ns / 1000000000 * 1000000 * 1000) with (ns / 1000000000 * 1000000000) by ring.
      assert (Hin : in_int64 (ns / 1000000000 * 1000000000)
                    && negb (ns / 1000000000 * 1000000000 =? int64_min)%Z = true).
      { unfold in_int64, int64_min, int64_max. apply andb_true_iff. split.
        - apply andb_true_iff. split; apply Z.leb_le; lia.
        - apply negb_true_iff. apply Z.eqb_neq. lia. }
      now rewrite Hin.
    + reflexivity.
    + rewrite formatter_cellwise. cbn [map format_cell]. now rewrite canonical_form_seconds.
  - intros Hns. unfold canonical_form. cbv zeta.
    assert (Hsecs : ns / 1000000000 < 0) by (apply Z.div_lt_upper_bound; lia).
    assert (Hdays : ns / 1000000000 / 86400 < 0) by (apply Z.div_lt_upper_bound; lia).
    destruct (ns / 1000000000 / 86400) as [|p|p] eqn:ED; try lia.
    cbn [Z.eqb]. unfold py_str. cbn [Z.to_int NilZero.string_of_int append].
    apply parse_after_dash.
Qed.

Lemma formatter_output_parses_witness :
  exists t ns',
    util_slurm_duration_to_timedelta "2-03:04:05" = Return (Some t)
    /\ to_timedelta64 t = Some ns'
    /\ ns' = 183845500000000 / 1000000000 * 1000000000
    /\ util_timedelta_to_slurm_duration [Some ns'] = ["2-03:04:05"].
Proof.
  exact (proj1 (formatter_output_parses 183845500000000 "2-03:04:05" eq_refl eq_refl)
           ltac:(lia)).
Defined.

(** ** What the scalar parser returns *)

(** X12.  A duration the scalar parser returns is never negative: it is in
    the normal form of [datetime.timedelta], with at least 0 and at most
    999999999 days. *)
Theorem scalar_parser_range :
  forall (v : string) (t : timedelta),
    util_slurm_duration_to_timedelta v = Return (Some t) ->
    0 <= td_days t <= 999999999
    /\ 0 <= td_seconds t < 86400
    /\ 0 <= td_microseconds t < 1000000.
Proof.
  intros v t H.
  destruct (parse_nonneg v t H) as [Htot [Hs Hu]].
  destruct (parse_inv v t H) as (d & h & m & q & _ & _ & _ & _ & E).
  unfold total_microseconds in Htot.
  assert (Hd : 0 <= td_days t) by nia.
  repeat split; try lia.
  unfold datetime_timedelta in E. cbv zeta in E.
  match type of E with
  | (if (Z.abs ?x >? _)%Z then _ else _) = _ =>
      destruct (Z.abs x >? 999999999)%Z eqn:Habs; [discriminate|];
      inversion E; subst t; cbn [td_days] in *;
      rewrite Z.gtb_ltb in Habs; apply Z.ltb_ge in Habs; lia
  end.
Qed.

Lemma scalar_parser_range_witness :
  0 <= td_days (mk_timedelta 2 11045 500000) <= 999999999
  /\ 0 <= td_seconds (mk_timedelta 2 11045 500000) < 86400
  /\ 0 <= td_microseconds (mk_timedelta 2 11045 500000) < 1000000.
Proof.
  exact (scalar_parser_range "2-03:04:05.5" (mk_timedelta 2 11045 500000) eq_refl).
Defined.


(** ** The batch parser and the markers *)

Lemma batch_markers_cells (v : list cell) :
  (forall c, In c v -> exists s, c = Some s /\ In s default_na_is) ->
  map (option_map duration_literal) v = v
  /\ map duration_cell v = map (fun _ => None) v.
Proof.
  induction v as [|c v IH]; intros H; [split; reflexivity|].
  destruct (H c (or_introl eq_refl)) as (s & -> & Hs).
  destruct IH as [IH1 IH2]; [intros c Hc; apply H; now right|].
  cbn [map]. rewrite IH1, IH2.
  cbn [In default_na_is] in Hs.
  repeat (destruct Hs as [<-|Hs]; [split; reflexivity|]). contradiction.
Qed.

Lemma markers_not_reported {A} (v : list cell) (x : list (option A)) :
  (forall c, In c v -> exists s, c = Some s /\ In s default_na_is) ->
  reported_cells default_na_is v x = [].
Proof.
  revert x. induction v as [|c v IH]; intros x H; [reflexivity|].
  destruct x as [|y x]; [reflexivity|].
  destruct (H c (or_introl eq_refl)) as (s & -> & Hs).
  unfold reported_cells in *. cbn [combine filter].
  assert (E : @reported A default_na_is (@pair cell (option A) (Some s) y) = false).
  { cbn [In default_na_is] in Hs.
    repeat (destruct Hs as [<-|Hs]; [destruct y; reflexivity|]). contradiction. }
  rewrite E. apply IH. intros c Hc. apply H. now right.
Qed.

(** X13.  On a column of default markers the batch parser returns a null
    duration for every cell and neither logs nor raises, under every policy;
    the scalar parser returns a null duration for each of these texts. *)
Theorem batch_markers :
  forall (v : list cell) (check_na : string),
    (forall c, In c v -> exists s, c = Some s /\ In s default_na_is) ->
    util_slurm_duration_to_duration v check_na None = ([], Return (map (fun _ => None) v))
    /\ forall s, In (Some s) v -> util_slurm_duration_to_timedelta s = Return None.
Proof.
  intros v check_na H. split.
  - rewrite batch_unfold. destruct (batch_markers_cells v H) as [-> ->].
    rewrite check_na_unfold. cbn [markers].
    rewrite (markers_not_reported v _ H).
    destruct (check_na =? "ignore"); reflexivity.
  - intros s Hs. destruct (H _ Hs) as (s' & E & Hs'). inversion E; subst s'.
    cbn [In default_na_is] in Hs'.
    repeat (destruct Hs' as [<-|Hs']; [reflexivity|]). contradiction.
Qed.

Lemma batch_markers_witness :
  util_slurm_duration_to_duration [Some "Unknown"; Some ""; Some "NaT"] "error" None
  = ([], Return [None; None; None]).
Proof.
  refine (proj1 (batch_markers [Some "Unknown"; Some ""; Some "NaT"] "error" _)).
  intros c [<-|[<-|[<-|[]]]]; eexists; (split; [reflexivity|]); cbn; tauto.
Defined.

Lemma no_dash_left (s : string) : mem_ascii "-" (replace_char "-" " days " s) = false.
Proof.
  induction s as [|c s IH]; [reflexivity|]. cbn [replace_char].
  destruct (Ascii.eqb_spec c "-") as [->|Hc].
  - cbn [append mem_ascii Ascii.eqb Bool.eqb orb andb]. exact IH.
  - cbn [mem_ascii]. rewrite IH, orb_false_r. apply Ascii.eqb_neq. congruence.
Qed.

(** X14.  The batch parser validates the rewritten text, in which every dash
    has become [ days ], so a marker that holds a dash is never met.  With a
    list of such markers, a cell that reads as no duration is reported under
    [error], be it one of the markers: the call logs and raises the
    ValueError, whose sample shows the rewritten text. *)
Theorem batch_dash_markers :
  forall (s : string) (na_is : list string),
    (forall m, In m na_is -> mem_ascii "-" m = true) ->
    duration_cell (Some s) = None ->
    let msg := NonValidNA 1 na_is [Some (duration_literal s)] in
    util_slurm_duration_to_duration [Some s] "error" (Some na_is)
    = ([LogError msg], Raise (ValueError msg)).
Proof.
  intros s na_is Hna Hcell msg. subst msg. rewrite batch_unfold. cbn [map option_map].
  rewrite Hcell. rewrite check_na_unfold. cbn [markers String.eqb Ascii.eqb Bool.eqb].
  assert (E : existsb (String.eqb (duration_literal s)) na_is = false).
  { destruct (existsb _ na_is) eqn:Ex; [|reflexivity].
    apply existsb_exists in Ex as (m & Hm & Heq). apply String.eqb_eq in Heq. subst m.
    specialize (Hna _ Hm). unfold duration_literal in Hna. now rewrite no_dash_left in Hna. }
  unfold reported_cells. cbn [combine filter reported]. rewrite E. reflexivity.
Qed.

Lemma batch_dash_markers_witness :
  util_slurm_duration_to_duration [Some "-"] "error" (Some ["-"; "--"])
  = ([LogError (NonValidNA 1 ["-"; "--"] [Some " days "])],
     Raise (ValueError (NonValidNA 1 ["-"; "--"] [Some " days "]))).
Proof.
  refine (batch_dash_markers "-" ["-"; "--"] _ eq_refl).
  intros m [<-|[<-|[]]]; reflexivity.
Defined.


(** ** A line feed after the text *)

Lemma span_line_feed cls (s : string) :
  cls (ascii_of_nat 10) = false ->
  span cls (s ++ newline) = let '(a, b) := span cls s in (a, b ++ newline).
Proof.
  intros H. induction s as [|c s IH].
  - cbn [append span newline]. now rewrite H.
  - cbn [append span]. destruct (cls c); [|reflexivity].
    rewrite IH. now destruct (span cls s).
Qed.

Lemma re_plus_line_feed cls (s : string) :
  cls (ascii_of_nat 10) = false ->
  re_plus cls (s ++ newline)
  = match re_plus cls s with
    | Some (a, b) => Some (a, b ++ newline)
    | None => None
    end.
Proof.
  intros H. unfold re_plus. rewrite (span_line_feed cls s H).
  destruct (span cls s) as [[|c a] b]; reflexivity.
Qed.

Lemma re_lit_line_feed (c : ascii) (s : string) :
  Ascii.eqb c (ascii_of_nat 10) = false ->
  re_lit c (s ++ newline)
  = match re_lit c s with
    | Some r => Some (r ++ newline)
    | None => None
    end.
Proof.
  intros H. destruct s as [|x s]; cbn [append re_lit newline].
  - now rewrite H.
  - now destruct (Ascii.eqb c x).
Qed.

Lemma re_end_line_feed (b : string) :
  mem_ascii (ascii_of_nat 10) b = false -> re_end (b ++ newline) = re_end b.
Proof.
  destruct b as [|c b]; [reflexivity|]. cbn [mem_ascii]. intros H.
  apply orb_false_iff in H as [Hc _]. rewrite Ascii.eqb_sym in Hc.
  unfold re_end, newline. cbn [append String.eqb]. now rewrite Hc.
Qed.

Lemma mem_ascii_append (c : ascii) (a b : string) :
  mem_ascii c (a ++ b) = mem_ascii c a || mem_ascii c b.
Proof.
  induction a as [|x a IH]; [reflexivity|].
  cbn [append mem_ascii]. rewrite IH. now rewrite orb_assoc.
Qed.

Lemma re_plus_rest cls (c : ascii) (s a b : string) :
  mem_ascii c s = false -> re_plus cls s = Some (a, b) -> mem_ascii c b = false.
Proof.
  intros H E. apply re_plus_spec in E as (-> & _). rewrite mem_ascii_append in H.
  now apply orb_false_iff in H.
Qed.

Lemma re_lit_rest (c x : ascii) (s r : string) :
  mem_ascii c s = false -> re_lit x s = Some r -> mem_ascii c r = false.
Proof.
  destruct s as [|y s]; [discriminate|]. cbn [re_lit mem_ascii]. intros H E.
  destruct (Ascii.eqb x y); [|discriminate]. inversion E; subst.
  now apply orb_false_iff in H.
Qed.

Ltac line_feed_step :=
  match goal with
  | |- context [re_plus ?cls (?s ++ newline)] =>
      rewrite (re_plus_line_feed cls s) by reflexivity;
      let E := fresh "E" in
      destruct (re_plus cls s) as [[? ?]|] eqn:E; [|reflexivity];
      match goal with
      | H : mem_ascii (ascii_of_nat 10) s = false |- _ =>
          pose proof (re_plus_rest cls _ _ _ _ H E)
      end
  | |- context [re_lit ?c (?s ++ newline)] =>
      rewrite (re_lit_line_feed c s) by reflexivity;
      let E := fresh "E" in
      destruct (re_lit c s) eqn:E; [|reflexivity];
      match goal with
      | H : mem_ascii (ascii_of_nat 10) s = false |- _ =>
          pose proof (re_lit_rest _ c _ _ H E)
      end
  | |- context [re_end (?s ++ newline)] =>
      rewrite (re_end_line_feed s) by assumption;
      destruct (re_end s); reflexivity
  end.

Section LineFeed.

Variable v : string.
Hypothesis Hv : mem_ascii (ascii_of_nat 10) v = false.

Lemma re_dhms_line_feed :
  re_dhms (v ++ newline)
  = match re_dhms v with
    | Some (g1, g2, g3, g4, r) => Some (g1, g2, g3, g4, r ++ newline)
    | None => None
    end.
Proof. unfold re_dhms. repeat line_feed_step. Qed.

Lemma re_dhm_line_feed :
  re_dhm (v ++ newline)
  = match re_dhm v with
    | Some (g1, g2, g3, r) => Some (g1, g2, g3, r ++ newline)
    | None => None
    end.
Proof. unfold re_dhm. repeat line_feed_step. Qed.

Lemma re_dh_line_feed :
  re_dh (v ++ newline)
  = match re_dh v with
    | Some (g1, g2, r) => Some (g1, g2, r ++ newline)
    | None => None
    end.
Proof. unfold re_dh. repeat line_feed_step. Qed.

Lemma re_hms_line_feed :
  re_hms (v ++ newline)
  = match re_hms v with
    | Some (g1, g2, g3, r) => Some (g1, g2, g3, r ++ newline)
    | None => None
    end.
Proof. unfold re_hms. repeat line_feed_step. Qed.

Lemma re_ms_line_feed :
  re_ms (v ++ newline)
  = match re_ms v with
    | Some (g1, g2, r) => Some (g1, g2, r ++ newline)
    | None => None
    end.
Proof. unfold re_ms. repeat line_feed_step. Qed.

Lemma re_m_line_feed :
  re_m (v ++ newline)
  = match re_m v with
    | Some (g1, r) => Some (g1, r ++ newline)
    | None => None
    end.
Proof. unfold re_m. repeat line_feed_step. Qed.

End LineFeed.

(** X15.  The scalar parser reads a duration followed by one line feed as it
    reads the duration alone (the [$] of its patterns stops before a final
    line feed).  A default marker followed by a line feed is no marker any
    more: the parser raises the exception naming the text. *)
Theorem scalar_parser_line_feed :
  (forall (v : string) (t : timedelta),
      mem_ascii (ascii_of_nat 10) v = false ->
      util_slurm_duration_to_timedelta v = Return (Some t) ->
      util_slurm_duration_to_timedelta (v ++ newline) = Return (Some t))
  /\ (forall s : string,
         In s default_na_is ->
         util_slurm_duration_to_timedelta s = Return None
         /\ util_slurm_duration_to_timedelta (s ++ newline)
            = Raise (Exception (UnknownDurationFormat (s ++ newline)))).
Proof.
  split.
  - intros v t Hv H. unfold util_slurm_duration_to_timedelta in *.
    rewrite (re_dhms_line_feed v Hv), (re_dhm_line_feed v Hv), (re_dh_line_feed v Hv),
      (re_hms_line_feed v Hv), (re_ms_line_feed v Hv), (re_m_line_feed v Hv).
    destruct (re_dhms v) as [[[[[? ?] ?] ?] ?]|]; [exact H|].
    destruct (re_dhm v) as [[[[? ?] ?] ?]|]; [exact H|].
    destruct (re_dh v) as [[[? ?] ?]|]; [exact H|].
    destruct (re_hms v) as [[[[? ?] ?] ?]|]; [exact H|].
    destruct (re_ms v) as [[[? ?] ?]|]; [exact H|].
    destruct (re_m v) as [[? ?]|]; [exact H|].
    destruct (existsb _ _); discriminate H.
  - intros s Hs. cbn [In default_na_is] in Hs.
    repeat (destruct Hs as [<-|Hs]; [split; reflexivity|]). contradiction.
Qed.

Lemma scalar_parser_line_feed_witness :
  util_slurm_duration_to_timedelta ("2-03:04:05" ++ newline)
  = Return (Some (mk_timedelta 2 11045 0)).
Proof.
  exact (proj1 scalar_parser_line_feed "2-03:04:05" (mk_timedelta 2 11045 0) eq_refl eq_refl).
Defined.

(** ** Literals of pandas the scalar parser refuses *)

Lemma marker_starts_with_no_digit (c : ascii) (r s : string) :
  In s default_na_is -> is_digit c = true -> (String c r =? s) = false.
Proof.
  intros Hs Hc. cbn [In default_na_is] in Hs.
  repeat (destruct Hs as [<-|Hs];
          [first [ reflexivity
                 | cbn [String.eqb];
                   match goal with
                   | |- (if Ascii.eqb c ?x then _ else _) = false =>
                       destruct (Ascii.eqb_spec c x) as [->|_];
                       [discriminate Hc | reflexivity]
                   end ]|]).
  contradiction.
Qed.

Lemma digits_no_marker (g rest : string) :
  digits g -> existsb (String.eqb (g ++ rest)) default_na_is = false.
Proof.
  intros [Hg Hne]. destruct g as [|c g]; [discriminate|].
  cbn [all_chars] in Hg. apply andb_true_iff in Hg as [Hc _].
  destruct (existsb _ default_na_is) eqn:E; [|reflexivity].
  apply existsb_exists in E as (s & Hs & Heq). cbn [append] in Heq.
  now rewrite (marker_starts_with_no_digit c (g ++ rest) s Hs Hc) in Heq.
Qed.

Lemma after_digits_a_letter (u : ascii) :
  is_letter u = true ->
  stops is_digit (String u "") = true
  /\ re_lit "-" (String u "") = None
  /\ re_lit ":" (String u "") = None
  /\ re_end (String u "") = false
  /\ not_dash u = true.
Proof.
  destruct u as [[] [] [] [] [] [] [] []]; intros Hu; try discriminate Hu;
    repeat split; reflexivity.
Qed.

Lemma scalar_refuses_unit (g : string) (u : ascii) :
  digits g -> is_letter u = true ->
  util_slurm_duration_to_timedelta (g ++ String u "")
  = Raise (Exception (UnknownDurationFormat (g ++ String u ""))).
Proof.
  intros Hg Hu. pose proof Hg as [Hd Hne].
  destruct (after_digits_a_letter u Hu) as (Hstop & Hdash & Hcolon & Hend & Hnot).
  unfold util_slurm_duration_to_timedelta, re_dhms, re_dhm, re_dh, re_hms, re_ms, re_m.
  rewrite (re_plus_app is_digit g (String u "") Hd Hne Hstop).
  rewrite Hdash, Hcolon, Hend. now rewrite digits_no_marker.
Qed.

Lemma literal_of_unit (g : string) (u : ascii) :
  digits g -> is_letter u = true ->
  duration_literal (g ++ String u "") = g ++ String u "".
Proof.
  intros [Hd Hne] Hu.
  destruct (after_digits_a_letter u Hu) as (Hstop & Hdash & Hcolon & Hend & Hnot).
  assert (Hnd : all_chars not_dash (g ++ String u "") = true).
  { rewrite all_chars_append, (digits_not_dash g Hd). cbn [all_chars andb].
    now rewrite andb_true_r. }
  unfold duration_literal.
  rewrite (re_sub_miss re_m);
    [|unfold re_m; now rewrite (re_plus_app is_digit g _ Hd Hne Hstop), Hend].
  rewrite (re_sub_miss re_ms);
    [|unfold re_ms; now rewrite (re_plus_app is_digit g _ Hd Hne Hstop), Hcolon].
  rewrite (re_sub_miss re_dh);
    [|unfold re_dh; now rewrite (re_plus_app is_digit g _ Hd Hne Hstop), Hdash].
  rewrite (re_sub_miss re_dhm);
    [|unfold re_dhm; now rewrite (re_plus_app is_digit g _ Hd Hne Hstop), Hdash].
  now apply replace_char_none.
Qed.

Lemma read_unit (g : string) (u : ascii) (m p : Z) :
  digits g -> is_letter u = true ->
  parse_timedelta_unit (String u "") = Some (m, p) ->
  (String u "" =? "M") || (String u "" =? "Y") || (String u "" =? "y") = false ->
  read (g ++ String u "") = Some (digits_value g * m).
Proof.
  intros Hg Hu Hunit Hx. pose proof Hg as [Hd Hne].
  unfold read, reader_init. rewrite run_number by assumption.
  cbn [reader_run append]. rewrite step_letter by assumption. cbn [snoc append].
  erewrite finish_unit; [reflexivity | reflexivity | assumption |].
  now apply (from_spec_whole g (String u "") m p).
Qed.

(** X16.  The batch parser reads more than the six grammars.  A run of digits
    followed by one of the unit letters d, h, m, s (as in "36h") is read by
    pandas as that many days, hours, minutes or seconds, so the batch parser
    returns that duration, logging and raising nothing under every policy;
    the scalar parser refuses the same text with the exception naming it. *)
Theorem batch_reads_unit_literals :
  forall (g : string) (u : ascii) (ns_per_unit : Z) (check_na : string)
         (na_is : option (list string)),
    digits g ->
    In (u, ns_per_unit)
       [("d"%char, 86400000000000); ("h"%char, 3600000000000);
        ("m"%char, 60000000000); ("s"%char, 1000000000)] ->
    in_timedelta64 (digits_value g * ns_per_unit) = true ->
    util_slurm_duration_to_timedelta (g ++ String u "")
    = Raise (Exception (UnknownDurationFormat (g ++ String u "")))
    /\ util_slurm_duration_to_duration [Some (g ++ String u "")] check_na na_is
       = ([], Return [Some (digits_value g * ns_per_unit)]).
Proof.
  intros g u m check_na na_is Hg Hu Hr.
  assert (Hletter : is_letter u = true).
  { cbn [In] in Hu. repeat (destruct Hu as [E|Hu]; [inversion E; reflexivity|]). contradiction. }
  split; [now apply scalar_refuses_unit|].
  apply batch_single. unfold duration_cell. cbn [option_map].
  rewrite (literal_of_unit g u Hg Hletter).
  destruct Hg as [Hd Hne].
  rewrite (to_timedelta_cell_digits g _ Hd Hne).
  assert (Hread : read (g ++ String u "") = Some (digits_value g * m)).
  { cbn [In] in Hu.
    repeat (destruct Hu as [E|Hu];
            [injection E as <- <-;
             eapply read_unit; [split; assumption | reflexivity | reflexivity | reflexivity]|]).
    contradiction. }
  rewrite Hread. now rewrite Hr.
Qed.

Lemma batch_reads_unit_literals_witness :
  util_slurm_duration_to_timedelta "36h" = Raise (Exception (UnknownDurationFormat "36h"))
  /\ util_slurm_duration_to_duration [Some "36h"] "error" None
     = ([], Return [Some 129600000000000]).
Proof.
  refine (batch_reads_unit_literals "36" "h" 3600000000000 "error" None
            (conj eq_refl eq_refl) _ eq_refl).
  cbn. tauto.
Defined.

(** ** Missing cells and the policy error *)

Lemma in_combine_maps {A B C} (g : A -> B) (h : A -> C) (l : list A) (a : A) :
  In a l -> In (g a, h a) (combine (map g l) (map h l)).
Proof.
  induction l as [|b l IH]; [contradiction|]. intros [->|H]; [now left|].
  right. now apply IH.
Qed.

Lemma check_error_on_missing {A B} (f : cell -> option A) (v : list cell) na_is (y : B) :
  f None = None -> In None v ->
  exists e, outcome (util_check_na v (map f v) na_is "error" ;;; ret y) = Raise e.
Proof.
  intros Hf Hin. rewrite outcome_bind.
  destruct (check_na_error_raises v (map f v) na_is) as (e & He & _).
  - rewrite <- (map_id v) at 1. rewrite <- Hf. now apply (in_combine_maps (fun c => c) f v None).
  - exists e. now rewrite He.
Qed.

Section MissingCells.

Variable numeric_of_string : string -> option Q.
Variable datetime : Type.
Variable datetime_of_string : string -> option datetime.

(** X17.  Under the policy [error] no converter accepts a column with a
    missing cell (NaN): a missing cell is in no list of markers, so the
    validator reports it.  [util_to_float], [util_to_int], [util_factorize],
    [util_slurm_datetime_to_datetime], [util_slurm_duration_to_duration],
    [util_norm_si] and [util_memory] all raise on such a column. *)
Theorem missing_cell_fails_strict :
  forall (v : list cell) (na_is : option (list string)),
    In None v ->
    (exists e, outcome (util_to_float numeric_of_string v "error" na_is) = Raise e)
    /\ (forall round,
           exists e, outcome (util_to_int numeric_of_string v "error" na_is round) = Raise e)
    /\ (exists e, outcome (util_factorize v "error" na_is) = Raise e)
    /\ (exists e,
           outcome (util_slurm_datetime_to_datetime datetime datetime_of_string v "error" na_is)
           = Raise e)
    /\ (exists e, outcome (util_slurm_duration_to_duration v "error" na_is) = Raise e)
    /\ (forall convert_to_int return_in use1024,
           exists e,
             outcome (util_norm_si numeric_of_string v convert_to_int return_in "error"
                        na_is use1024) = Raise e)
    /\ (forall convert_to_int return_in use1024,
           exists e,
             outcome (util_memory numeric_of_string v convert_to_int return_in "error"
                        na_is use1024) = Raise e).
Proof.
  intros v na_is Hin. repeat split.
  - unfold util_to_float. rewrite to_numeric_cells.
    now apply (check_error_on_missing (numeric_cell numeric_of_string)).
  - intros round. unfold util_to_int. rewrite to_numeric_cells. rewrite outcome_bind.
    cbn [lift outcome snd].
    destruct (astype_Int64 _) as [zs|e] eqn:E; [|eauto].
    apply astype_Int64_cells in E. subst zs.
    destruct round.
    + unfold series_round. rewrite !map_map.
      now apply (check_error_on_missing
                   (fun c => option_map Qfloor
                               (option_map (fun q => inject_Z (round_half_even q))
                                  (numeric_cell numeric_of_string c)))).
    + rewrite map_map.
      now apply (check_error_on_missing
                   (fun c => option_map Qfloor (numeric_cell numeric_of_string c))).
  - unfold util_factorize.
    pose proof (check_error_on_missing (fun c : cell => c) v na_is v eq_refl Hin) as H.
    rewrite map_id in H. exact H.
  - unfold util_slurm_datetime_to_datetime.
    now apply (check_error_on_missing
                 (fun c => match c with None => None | Some s => datetime_of_string s end)).
  - rewrite batch_unfold. rewrite outcome_bind.
    destruct (check_na_error_raises (map (option_map duration_literal) v)
                (map duration_cell v) na_is) as (e & He & _).
    + now apply (in_combine_maps (option_map duration_literal) duration_cell v None).
    + exists e. now rewrite He.
  - intros convert_to_int return_in use1024. rewrite util_norm_si_unfold, outcome_bind.
    destruct (check_na_error_raises v (map (si_cell numeric_of_string use1024) v) na_is)
      as (e & He & _).
    + rewrite <- (map_id v) at 1.
      now apply (in_combine_maps (fun c => c) (si_cell numeric_of_string use1024) v None).
    + exists e. now rewrite He.
  - intros convert_to_int return_in use1024.
    destruct (memory_raises_on_unmatched numeric_of_string v convert_to_int return_in na_is
                use1024 None Hin eq_refl) as (e & He & _).
    eauto.
Qed.

End MissingCells.

Lemma missing_cell_fails_strict_witness :
  exists e, outcome (util_to_float decimal_literal [Some "1"; None] "error" None) = Raise e.
Proof.
  exact (proj1 (missing_cell_fails_strict decimal_literal unit (fun _ => None)
                  [Some "1"; None] None (or_intror (or_introl eq_refl)))).
Defined.

(** ** Errors of the scalar parser *)

(** X18.  A seconds field the patterns let through although it is no number
    (over digits and dots, such as "4.5.6" or ".") makes the scalar parser
    raise the ValueError of [float], naming the field, in each of the three
    grammars that have seconds; the exception about the format is not what
    is raised. *)
Theorem scalar_parser_bad_seconds :
  forall d h m s : string,
    digits d -> digits h -> digits m ->
    all_chars is_digit_or_dot s = true -> nonempty s = true ->
    decimal_literal s = None ->
    util_slurm_duration_to_timedelta (d ++ "-" ++ h ++ ":" ++ m ++ ":" ++ s)
    = Raise (ValueError (CouldNotConvertToFloat s))
    /\ util_slurm_duration_to_timedelta (h ++ ":" ++ m ++ ":" ++ s)
       = Raise (ValueError (CouldNotConvertToFloat s))
    /\ util_slurm_duration_to_timedelta (m ++ ":" ++ s)
       = Raise (ValueError (CouldNotConvertToFloat s)).
Proof.
  intros d h m s [Hd Hd'] [Hh Hh'] [Hm Hm'] Hs Hs' Hq.
  unfold util_slurm_duration_to_timedelta. repeat split.
  - rewrite (re_dhms_text d h m s Hd Hd' Hh Hh' Hm Hm' Hs Hs').
    rewrite !int_digits by assumption. unfold float_. now rewrite Hq.
  - destruct (re_hms_text h m s Hh Hh' Hm Hm' Hs Hs') as (E1 & E2 & E3 & E4).
    rewrite E1, E2, E3, E4.
    rewrite !int_digits by assumption. unfold float_. now rewrite Hq.
  - destruct (re_ms_text m s Hm Hm' Hs Hs') as (E1 & E2 & E3 & E4 & E5).
    rewrite E1, E2, E3, E4, E5.
    rewrite !int_digits by assumption. unfold float_. now rewrite Hq.
Qed.

Lemma scalar_parser_bad_seconds_witness :
  util_slurm_duration_to_timedelta "1-02:03:4.5.6"
  = Raise (ValueError (CouldNotConvertToFloat "4.5.6"))
  /\ util_slurm_duration_to_timedelta "02:03:4.5.6"
     = Raise (ValueError (CouldNotConvertToFloat "4.5.6"))
  /\ util_slurm_duration_to_timedelta "03:4.5.6"
     = Raise (ValueError (CouldNotConvertToFloat "4.5.6")).
Proof.
  exact (scalar_parser_bad_seconds "1" "02" "03" "4.5.6"
           (conj eq_refl eq_refl) (conj eq_refl eq_refl) (conj eq_refl eq_refl)
           eq_refl eq_refl eq_refl).
Defined.




(** ** Formatting, then the batch parser *)

Lemma duration_cell_canonical (ns : Z) :
  0 <= ns -> in_int64 ns = true ->
  duration_cell (Some (canonical_form ns)) = Some (ns / 1000000000 * 1000000000).
Proof.
  intros Hns Hr. unfold in_int64, int64_min, int64_max in Hr.
  apply andb_true_iff in Hr as [_ Hhi]. apply Z.leb_le in Hhi.
  unfold canonical_form. cbv zeta.
  set (secs := ns / 1000000000) in *.
  assert (Hsecs : 0 <= secs) by (apply Z.div_pos; lia).
  assert (Hup : secs * 1000000000 <= ns).
  { pose proof (Z.mul_div_le ns 1000000000 ltac:(lia)). lia. }
  set (hh := (secs / 3600) mod 24). set (mm := (secs / 60) mod 60). set (ss := secs mod 60).
  assert (Hhh : 0 <= hh < 100) by (subst hh; mod_below_100).
  assert (Hmm : 0 <= mm < 100) by (subst mm; mod_below_100).
  assert (Hss : 0 <= ss < 100) by (subst ss; mod_below_100).
  pose proof (seconds_of_fields secs) as Hsum. fold hh mm ss in Hsum.
  destruct (two_digits_field hh Hhh) as [Hh Hh'].
  destruct (two_digits_field mm Hmm) as [Hm Hm'].
  destruct (two_digits_field ss Hss) as [Hs Hs'].
  assert (Hin : in_timedelta64 (secs * 1000000000) = true).
  { unfold in_timedelta64, in_int64, int64_min, int64_max.
    apply andb_true_iff. split.
    - apply andb_true_iff. split; apply Z.leb_le; lia.
    - apply negb_true_iff. apply Z.eqb_neq. lia. }
  unfold duration_cell. cbn [option_map].
  destruct (secs / 86400 =? 0)%Z eqn:HD.
  - apply Z.eqb_eq in HD. cbn [append].
    change (two_digits hh ++ String ":" (two_digits mm ++ String ":" (two_digits ss)))
      with (two_digits hh ++ ":" ++ two_digits mm ++ ":" ++ two_digits ss).
    rewrite (literal_hms _ _ _ Hh Hh' Hm Hm' (digits_are_digit_or_dot _ Hs)).
    rewrite (to_timedelta_cell_digits _ _ Hh Hh').
    pose proof (read_hms_whole _ _ _ Hh Hh' Hm Hm' Hs Hs') as Hread. cbv zeta in Hread.
    rewrite Hread. rewrite !two_digits_value by assumption.
    replace (hh * (1000000000 * 3600) + mm * (1000000000 * 60) + ss * 1000000000)
      with (secs * 1000000000) by lia.
    now rewrite Hin.
  - apply Z.eqb_neq in HD.
    assert (HDpos : 0 <= secs / 86400) by (apply Z.div_pos; lia).
    destruct (py_str_digits _ HDpos) as [Hd Hd'].
    rewrite append_assoc.
    rewrite (literal_dhms _ _ _ _ Hd Hd' Hh Hh' Hm Hm' (digits_are_digit_or_dot _ Hs)).
    rewrite (to_timedelta_cell_digits _ _ Hd Hd').
    pose proof (read_dhms_whole _ _ _ _ Hd Hd' Hh Hh' Hm Hm' Hs Hs') as Hread.
    cbv zeta in Hread. rewrite Hread.
    rewrite !two_digits_value, digits_value_py_str by assumption.
    replace (secs / 86400 * 86400000000000 + hh * (1000000000 * 3600)
             + mm * (1000000000 * 60) + ss * 1000000000)
      with (secs * 1000000000) by lia.
    now rewrite Hin.
Qed.

Lemma reported_cells_maps_nil {A B} (na : list string) (g : B -> cell) (h : B -> option A)
    (l : list B) :
  (forall b, In b l -> reported na (g b, h b) = false) ->
  reported_cells na (map g l) (map h l) = [].
Proof.
  unfold reported_cells. induction l as [|b l IH]; intros H; [reflexivity|].
  cbn [map combine filter]. rewrite (H b (or_introl eq_refl)).
  apply IH. intros b' Hb'. apply H. now right.
Qed.

(** X20.  Formatting a column of durations that are null or not negative and
    reading the texts back with the batch parser gives the whole seconds of
    every duration (null for null), logging and raising nothing under every
    policy; formatting that column gives the same texts again. *)
Theorem format_then_batch_parse :
  forall (v : list timedelta64) (check_na : string),
    (forall ns, In (Some ns) v -> 0 <= ns /\ in_int64 ns = true) ->
    let whole := map (option_map (fun ns => ns / 1000000000 * 1000000000)) v in
    util_slurm_duration_to_duration (map Some (util_timedelta_to_slurm_duration v))
      check_na None
    = ([], Return whole)
    /\ util_timedelta_to_slurm_duration whole = util_timedelta_to_slurm_duration v.
Proof.
  intros v check_na Hv whole. subst whole. split.
  - rewrite batch_unfold, formatter_cellwise, !map_map.
    assert (Hcells : map (fun c => duration_cell (Some (format_cell c))) v
                     = map (option_map (fun ns => ns / 1000000000 * 1000000000)) v).
    { apply map_ext_in. intros [ns|] Hc; cbn [format_cell option_map]; [|reflexivity].
      destruct (Hv ns Hc) as [H0 Hr]. now apply duration_cell_canonical. }
    rewrite Hcells. rewrite check_na_unfold. cbn [markers].
    rewrite <- Hcells.
    rewrite (reported_cells_maps_nil default_na_is
               (fun c => option_map duration_literal (Some (format_cell c)))
               (fun c => duration_cell (Some (format_cell c)))).
    + rewrite Hcells. destruct (check_na =? "ignore"); reflexivity.
    + intros [ns|] Hc; cbn [format_cell option_map]; [|reflexivity].
      destruct (Hv ns Hc) as [H0 Hr]. rewrite (duration_cell_canonical ns H0 Hr).
      cbn [reported]. now destruct (duration_literal (canonical_form ns)).
  - rewrite !formatter_cellwise, map_map. apply map_ext. intros [ns|]; [|reflexivity].
    cbn [option_map format_cell]. apply canonical_form_seconds.
Qed.

Lemma format_then_batch_parse_witness :
  util_slurm_duration_to_duration
    (map Some (util_timedelta_to_slurm_duration [Some 183845500000000; None; Some 0]))
    "error" None
  = ([], Return [Some 183845000000000; None; Some 0]).
Proof.
  refine (proj1 (format_then_batch_parse [Some 183845500000000; None; Some 0] "error" _)).
  intros ns [E|[E|[E|[]]]]; inversion E; subst ns; split; (lia || reflexivity).
Defined.

(** * Properties of the helpers around the terminal, files and processes *)

(** ** The progress bar *)

Lemma repeat_string_length (n : nat) (s : string) :
  String.length (repeat_string n s) = (n * String.length s)%nat.
Proof.
  induction n as [|n IH]; [reflexivity|].
  cbn [repeat_string]. rewrite length_append, IH. lia.
Qed.

Lemma str_mul_length (c : ascii) (n : Z) :
  Z.of_nat (String.length (str_mul (String c "") n)) = Z.max 0 n.
Proof. unfold str_mul. rewrite repeat_string_length. cbn [String.length]. lia. Qed.

(** X21.  For a total other than 0, a fill of one character and a length
    that is not negative, [print_progress_bar] writes one line: prefix, the
    bar between bars, the percentage and the suffix, followed by a line feed
    of its own exactly when [iteration] equals [total].  The bar is
    [length * iteration // total] fill characters, then dashes; it is
    [length] characters wide exactly when that number lies between 0 and
    [length], as it does for [0 <= iteration <= total]; past the total the bar
    grows wider than [length]. *)
Theorem progress_bar_line :
  forall (percent_text : Z -> Z -> Z -> failure + string)
         (iteration total : Z) (prefix suffix : string) (decimals length : Z)
         (fill : ascii) (print_end percent : string) (z : option string),
    total <> 0 -> 0 <= length ->
    percent_text decimals iteration total = inr percent ->
    let k := length * iteration / total in
    let bar := str_mul (String fill "") k ++ str_mul "-" (length - k) in
    print_progress_bar percent_text iteration total prefix suffix decimals length
      (String fill "") print_end z
    = (Printed [PStr (carriage_return ++ prefix ++ " |" ++ bar ++ "| " ++ percent
                      ++ "% " ++ suffix)] print_end
       :: (if (iteration =? total)%Z then [Printed [] newline] else []), z, inr tt)
    /\ Z.of_nat (String.length bar) = Z.max 0 k + Z.max 0 (length - k)
    /\ (Z.of_nat (String.length bar) = length <-> 0 <= k <= length)
    /\ (0 < total -> 0 <= iteration <= total -> 0 <= k <= length)
    /\ (iteration = total -> k = length).
Proof.
  intros percent_text iteration total prefix suffix decimals length fill print_end percent z
    Htotal Hlength Hpercent k bar.
  assert (Hbar : Z.of_nat (String.length bar) = Z.max 0 k + Z.max 0 (length - k)).
  { unfold bar. rewrite length_append, Nat2Z.inj_add, !str_mul_length. reflexivity. }
  split; [|split; [exact Hbar|split; [|split]]].
  - unfold print_progress_bar, sys_bind, sys_lift, floordiv. rewrite Hpercent.
    destruct (Z.eqb_spec total 0) as [E|_]; [contradiction|].
    cbn. fold k. fold bar. destruct (iteration =? total)%Z; reflexivity.
  - rewrite Hbar. lia.
  - intros Hpos Hit. unfold k. split.
    + apply Z.div_pos; nia.
    + apply Z.div_le_upper_bound; nia.
  - intros ->. unfold k. now apply Z.div_mul.
Qed.

Lemma progress_bar_line_witness :
  print_progress_bar (fun _ _ _ => inr "50.0") 1 2 "Progress:" "Complete" 1 4 "#" "" None
  = ([Printed [PStr (carriage_return ++ "Progress: |##--| 50.0% Complete")] ""], None, inr tt).
Proof.
  exact (proj1 (progress_bar_line (fun _ _ _ => inr "50.0") 1 2 "Progress:" "Complete" 1 4
                  "#" "" "50.0" None ltac:(lia) ltac:(lia) eq_refl)).
Defined.

(** X22.  With a total of 0, [print_progress_bar] raises before it writes
    anything. *)
Theorem progress_bar_zero_total :
  forall (percent_text : Z -> Z -> Z -> failure + string)
         (iteration : Z) (prefix suffix : string) (decimals length : Z)
         (fill print_end : string) (z : option string),
    exists e : failure,
      print_progress_bar percent_text iteration 0 prefix suffix decimals length fill print_end z
      = ([], z, inl e).
Proof.
  intros. unfold print_progress_bar, sys_bind, sys_lift, floordiv.
  destruct (percent_text decimals iteration 0) as [e|percent].
  - exists e. reflexivity.
  - exists ZeroDivisionError. reflexivity.
Qed.

(** ** Choosing how to open a file *)

(** X23.  [get_file_open] chooses another function than the built-in [open]
    exactly for the extensions listed in [SUPPORTED_COMPRESSION]. *)
Theorem get_file_open_supported :
  forall filename : string,
    get_file_open filename <> builtin_open
    <-> In (snd (splitext filename)) SUPPORTED_COMPRESSION.
Proof.
  intros filename. unfold get_file_open, SUPPORTED_COMPRESSION.
  cbn [existsb In]. generalize (snd (splitext filename)). intros ext.
  repeat match goal with
  | |- context [ext =? ?k] =>
      destruct (String.eqb_spec ext k) as [->|?];
        [split; [intros _; tauto | intros _; cbn; discriminate]|]
  end.
  cbn [orb]. split; [intros H; now contradiction H | intros H; exfalso; intuition congruence].
Qed.

Lemma rfind_from_app (c : ascii) (a b : string) (i last : Z) :
  rfind_from c (a ++ b) i last
  = rfind_from c b (i + Z.of_nat (String.length a)) (rfind_from c a i last).
Proof.
  revert i last. induction a as [|x a IH]; intros i last.
  - cbn. f_equal. lia.
  - cbn [append rfind_from String.length]. rewrite IH. f_equal. lia.
Qed.

Lemma rfind_from_none (c : ascii) (b : string) (i last : Z) :
  mem_ascii c b = false -> rfind_from c b i last = last.
Proof.
  revert i last. induction b as [|x b IH]; intros i last H; [reflexivity|].
  cbn [mem_ascii] in H. apply orb_false_iff in H as [Hx Hb].
  cbn [rfind_from]. rewrite Ascii.eqb_sym, Hx. now apply IH.
Qed.

Lemma rfind_last (c : ascii) (a b : string) :
  mem_ascii c b = false ->
  rfind c (a ++ String c b) = Z.of_nat (String.length a).
Proof.
  intros H. unfold rfind. rewrite rfind_from_app. cbn [rfind_from].
  rewrite Ascii.eqb_refl. rewrite rfind_from_none by assumption. lia.
Qed.

Lemma substring_prefix (a b : string) : substring 0 (String.length a) (a ++ b) = a.
Proof.
  induction a as [|x a IH]; cbn; [destruct b; reflexivity | now rewrite IH].
Qed.

Lemma substring_whole (b : string) : substring 0 (String.length b) b = b.
Proof. induction b as [|x b IH]; cbn; [reflexivity | now rewrite IH]. Qed.

Lemma substring_suffix (a b : string) (n : nat) :
  n = String.length b -> substring (String.length a) n (a ++ b) = b.
Proof.
  intros ->. induction a as [|x a IH]; cbn [String.length append substring].
  - apply substring_whole.
  - exact IH.
Qed.

Lemma slice_empty (p : string) : slice p 0 0 = "".
Proof. destruct p; reflexivity. Qed.

Lemma substring_at (a r : string) (x : ascii) :
  substring (String.length a) 1 (a ++ String x r) = String x "".
Proof.
  induction a as [|y a IH]; cbn [String.length append substring].
  - destruct r; reflexivity.
  - exact IH.
Qed.

Lemma name_before_dot_spec (a base rest : string) :
  name_before_dot (a ++ base ++ rest) (Z.of_nat (String.length a)) (String.length base)
  = negb (all_chars is_dot base).
Proof.
  revert a. induction base as [|x base IH]; intros a; [reflexivity|].
  cbn [String.length name_before_dot all_chars append].
  assert (E : slice (a ++ String x (base ++ rest)) (Z.of_nat (String.length a))
                (Z.of_nat (String.length a) + 1) = String x "").
  { unfold slice. rewrite Nat2Z.id.
    replace (Z.to_nat (Z.of_nat (String.length a) + 1) - String.length a)%nat with 1%nat by lia.
    apply substring_at. }
  rewrite E. unfold is_dot at 1. cbn [String.eqb].
  destruct (Ascii.eqb x "."); cbn [negb andb]; [|reflexivity].
  specialize (IH (a ++ String x "")).
  rewrite append_assoc in IH. cbn [append] in IH.
  rewrite length_append in IH. cbn [String.length] in IH.
  replace (Z.of_nat (String.length a) + 1) with (Z.of_nat (String.length a + 1)) by lia.
  exact IH.
Qed.

Lemma splitext_of_name (prefix base e : string) :
  prefix = "" \/ (exists d, prefix = d ++ "/") ->
  mem_ascii "/" base = false -> mem_ascii "/" e = false -> mem_ascii "." e = false ->
  splitext (prefix ++ base ++ "." ++ e)
  = if all_chars is_dot base then (prefix ++ base ++ "." ++ e, "")
    else (prefix ++ base, "." ++ e).
Proof.
  intros Hprefix Hbase He He'.
  assert (Hsep : rfind "/" (prefix ++ base ++ "." ++ e) = Z.of_nat (String.length prefix) - 1).
  { assert (Hrest : mem_ascii "/" (base ++ "." ++ e) = false).
    { rewrite mem_ascii_append, Hbase. cbn. exact He. }
    destruct Hprefix as [->|[d ->]].
    - cbn [append String.length]. unfold rfind. now rewrite rfind_from_none.
    - rewrite append_assoc. cbn [append]. rewrite rfind_last by assumption.
      rewrite length_append. cbn [String.length]. lia. }
  assert (Hdot : rfind "." (prefix ++ base ++ "." ++ e)
                 = Z.of_nat (String.length (prefix ++ base))).
  { rewrite <- append_assoc. cbn [append]. now apply rfind_last. }
  unfold splitext. rewrite Hsep, Hdot.
  replace (Z.of_nat (String.length prefix) - 1 + 1) with (Z.of_nat (String.length prefix)) by lia.
  replace (Z.to_nat (Z.of_nat (String.length (prefix ++ base)) - Z.of_nat (String.length prefix)))
    with (String.length base) by (rewrite length_append; lia).
  rewrite name_before_dot_spec.
  assert (Hgt : (Z.of_nat (String.length (prefix ++ base))
                 >? Z.of_nat (String.length prefix) - 1)%Z = true).
  { rewrite Z.gtb_ltb. apply Z.ltb_lt. rewrite length_append. lia. }
  rewrite Hgt. cbn [andb].
  destruct (all_chars is_dot base); cbn [negb].
  - now rewrite slice_empty.
  - unfold slice, slice_from. rewrite Nat2Z.id. cbn [Z.to_nat]. rewrite Nat.sub_0_r.
    rewrite <- append_assoc. rewrite substring_prefix.
    rewrite substring_suffix; [reflexivity|].
    rewrite length_append. lia.
Qed.

(** X24.  [get_file_open] goes by the text after the last dot of the last
    path component: ["bz2"], ["lz4"], ["xz"], ["gz"], ["zstd"] and ["zst"]
    choose their decompressing [open], anything else the built-in one.  A
    name with nothing but dots before its last dot (".gz") has no extension
    and is opened with the built-in [open]. *)
Theorem get_file_open_by_name :
  forall prefix base e : string,
    prefix = "" \/ (exists d, prefix = d ++ "/") ->
    mem_ascii "/" base = false -> mem_ascii "/" e = false -> mem_ascii "." e = false ->
    get_file_open (prefix ++ base ++ "." ++ e)
    = if all_chars is_dot base then builtin_open else opener_of e.
Proof.
  intros prefix base e Hprefix Hbase He He'.
  unfold get_file_open. rewrite (splitext_of_name prefix base e Hprefix Hbase He He').
  destruct (all_chars is_dot base); [reflexivity|].
  cbn [snd append String.eqb Ascii.eqb Bool.eqb existsb]. unfold opener_of.
  rewrite orb_false_r. reflexivity.
Qed.

Lemma get_file_open_by_name_witness :
  get_file_open "logs/slurm.log.gz" = gzip_open
  /\ get_file_open "logs/.gz" = builtin_open.
Proof.
  split.
  - exact (get_file_open_by_name "logs/" "slurm.log" "gz"
             (or_intror (ex_intro _ "logs" eq_refl)) eq_refl eq_refl eq_refl).
  - exact (get_file_open_by_name "logs/" "" "gz"
             (or_intror (ex_intro _ "logs" eq_refl)) eq_refl eq_refl eq_refl).
Defined.

Lemma rfind_from_bound (c : ascii) (p : string) (i last : Z) :
  rfind_from c p i last = last
  \/ i <= rfind_from c p i last < i + Z.of_nat (String.length p).
Proof.
  revert i last. induction p as [|x p IH]; intros i last; [now left|].
  cbn [rfind_from String.length].
  destruct (IH (i + 1) (if Ascii.eqb x c then i else last)) as [E|E].
  - rewrite E. destruct (Ascii.eqb x c); [right; lia | now left].
  - right. lia.
Qed.

(** X25.  A name whose last path component holds no dot has no extension,
    whatever dots its directories hold ("backup.gz/jobs"): [get_file_open]
    chooses the built-in [open]. *)
Theorem get_file_open_without_extension :
  forall prefix base : string,
    prefix = "" \/ (exists d, prefix = d ++ "/") ->
    mem_ascii "/" base = false -> mem_ascii "." base = false ->
    get_file_open (prefix ++ base) = builtin_open.
Proof.
  intros prefix base Hprefix Hslash Hdot.
  assert (Hext : snd (splitext (prefix ++ base)) = "").
  { unfold splitext.
    assert (Hle : (rfind "." (prefix ++ base) >? rfind "/" (prefix ++ base))%Z = false).
    { rewrite Z.gtb_ltb. apply Z.ltb_ge.
      destruct Hprefix as [->|[d ->]].
      - cbn [append]. unfold rfind. rewrite !rfind_from_none by assumption. lia.
      - rewrite append_assoc. cbn [append]. rewrite (rfind_last "/" d base Hslash).
        unfold rfind. rewrite rfind_from_app.
        rewrite rfind_from_none by (cbn [mem_ascii Ascii.eqb Bool.eqb orb andb]; exact Hdot).
        destruct (rfind_from_bound "." d 0 (-1)) as [E|E]; lia. }
    rewrite Hle. cbn [andb snd]. apply slice_empty. }
  unfold get_file_open. now rewrite Hext.
Qed.

Lemma get_file_open_without_extension_witness :
  get_file_open "backup.gz/jobs" = builtin_open.
Proof.
  exact (get_file_open_without_extension "backup.gz/" "jobs"
           (or_intror (ex_intro _ "backup.gz" eq_refl)) eq_refl eq_refl).
Defined.

(** ** The zstd wrappers *)

(** X26.  [get_find_compressor] tests the compression the wrong way round:
    for "zstd" it raises NotImplementedError.  For any other name it returns
    the location stored in [ZSTD_LOC] when there is one and otherwise fails
    on the unbound name [subprocess]; it never runs [which] and never stores
    a location. *)
Theorem get_find_compressor_outcome :
  forall (compression : string) (z : option string),
    get_find_compressor compression z
    = if compression =? "zstd" then ([], z, inl (NotImplementedError only_zstd))
      else match z with
           | Some loc => ([], z, inr (Some loc))
           | None => ([], z, inl (NameError "subprocess"))
           end.
Proof.
  intros compression z. unfold get_find_compressor.
  destruct (compression =? "zstd"); [reflexivity|]. destruct z; reflexivity.
Qed.

(** X27.  [compress] and [decompress] never return, never remove a file and
    never start a process.  A compression other than "zstd", or no
    [compressor_loc], ends in NotImplementedError; with a [compressor_loc]
    both log "compressing <filename>" and then fail on an unbound name:
    [compress] on [self] when the [.zst] file exists and on [subprocess] when
    it does not, [decompress] on [self] either way. *)
Theorem compress_never_returns :
  forall (path_exists : string -> bool) (filename : string) (overwrite : bool)
         (compressor_loc : option string) (compression : string) (keep : bool)
         (threads : option Z) (z : option string),
    compress path_exists filename overwrite compressor_loc compression keep threads z
    = (if negb (compression =? "zstd") then ([], z, inl (NotImplementedError only_zstd))
       else match compressor_loc with
            | None => ([], z, inl (NotImplementedError only_zstd))
            | Some _ =>
                ([Logged DEBUG ("compressing " ++ filename)], z,
                 inl (NameError (if path_exists (filename ++ ".zst") then "self"
                                 else "subprocess")))
            end)
    /\ decompress path_exists filename overwrite compressor_loc compression keep threads z
       = (if negb (compression =? "zstd") then ([], z, inl (NotImplementedError only_zstd))
          else match compressor_loc with
               | None => ([], z, inl (NotImplementedError only_zstd))
               | Some _ =>
                   ([Logged DEBUG ("compressing " ++ filename)], z, inl (NameError "self"))
               end).
Proof.
  intros. unfold compress, decompress.
  destruct (compression =? "zstd") eqn:E; cbn [negb]; [|split; reflexivity].
  apply String.eqb_eq in E. subst compression.
  destruct compressor_loc as [loc|]; [|split; reflexivity].
  unfold sys_bind, sys_ret, log_debug, emit. cbn [List.app].
  destruct (path_exists (filename ++ ".zst")), keep; split; reflexivity.
Qed.

(** ** Shell pipelines *)

Lemma str_split_cons (sep : ascii) (s : string) :
  exists x l, str_split sep s = x :: l.
Proof.
  induction s as [|c s [x [l IH]]]; cbn [str_split]; [eauto|].
  destruct (Ascii.eqb c sep); [eauto|]. rewrite IH. eauto.
Qed.

Lemma str_split_length (sep : ascii) (s : string) :
  List.length (str_split sep s) = S (count_char sep s).
Proof.
  induction s as [|c s IH]; [reflexivity|]. cbn [str_split count_char].
  destruct (Ascii.eqb c sep); cbn [List.length]; [now rewrite IH|].
  destruct (str_split sep s); cbn [List.length] in *; [discriminate | exact IH].
Qed.

Lemma concat_str_split (sep : ascii) (s : string) :
  String.concat (String sep "") (str_split sep s) = s.
Proof.
  induction s as [|c s IH]; [reflexivity|]. cbn [str_split].
  destruct (str_split_cons sep s) as (x & l & E). rewrite E in *.
  destruct (Ascii.eqb_spec c sep) as [->|Hc].
  - change (String.concat (String sep "") ("" :: x :: l))
      with (String sep (String.concat (String sep "") (x :: l))).
    now rewrite IH.
  - rewrite <- IH. destruct l; reflexivity.
Qed.

Lemma stages_rejoin (command : string) :
  String.concat "|" (map (String.concat " ") (stages command)) = command.
Proof.
  unfold stages. rewrite map_map.
  rewrite (map_ext _ (fun x => x) (concat_str_split " ")), map_id.
  apply concat_str_split.
Qed.

Section ProcessFacts.

Variable popen_error : list string -> option failure.
Variable piped_output : list (list string) -> failure + string.

Lemma eval_shell_loop_runs (values : list string) (len index : nat)
    (started : list (list string)) (z : option string) :
  values <> [] -> (index + List.length values = len)%nat ->
  (forall v, In v values -> popen_error (str_split " " v) = None) ->
  eval_shell_loop popen_error piped_output false len index values started z
  = ((started_from index (map (str_split " ") values) ++ [Communicated (len - 1)])%list, z,
     match piped_output (started ++ map (str_split " ") values)%list with
     | inl e => inl e
     | inr text => inr (Some (text, None))
     end).
Proof.
  revert index started. induction values as [|v values IH]; intros index started Hne Hlen Hok;
    [contradiction|].
  cbn [eval_shell_loop map started_from List.length] in *.
  unfold sys_bind at 1. unfold sys_ret at 1. cbn beta iota.
  assert (Hpopen : forall stdin, Popen popen_error (str_split " " v) stdin z
                                 = ([Started (str_split " " v) stdin], z, inr tt)).
  { intros stdin. unfold Popen. now rewrite (Hok v (or_introl eq_refl)). }
  unfold sys_bind at 1.
  assert (Hstart : (if (index =? 0)%nat then Popen popen_error (str_split " " v) None
                    else Popen popen_error (str_split " " v) (Some (index - 1)%nat)) z
                   = ([Started (str_split " " v) (match index with O => None | S i => Some i end)],
                      z, inr tt)).
  { destruct index as [|i]; cbn [Nat.eqb]; rewrite Hpopen; [reflexivity|].
    now replace (S i - 1)%nat with i by lia. }
  rewrite Hstart. cbn [List.app].
  destruct values as [|v' values].
  - assert (E : (Z.of_nat index =? Z.of_nat len - 1)%Z = true) by (apply Z.eqb_eq; cbn in Hlen; lia).
    rewrite E. unfold sys_bind, emit, sys_lift, sys_ret. cbn [map List.app started_from].
    replace (len - 1)%nat with index by (cbn in Hlen; lia).
    destruct (piped_output (started ++ [str_split " " v])%list); reflexivity.
  - assert (E : (Z.of_nat index =? Z.of_nat len - 1)%Z = false)
      by (apply Z.eqb_neq; cbn in Hlen; lia).
    rewrite E. rewrite (IH (S index) (started ++ [str_split " " v])%list).
    + rewrite <- app_assoc. reflexivity.
    + discriminate.
    + cbn [List.length] in *. lia.
    + intros w Hw. apply Hok. now right.
Qed.

End ProcessFacts.

(** X28.  When the system starts every stage, [eval_shell_cmd] starts one
    process for each piece of the command between bars, one more than there
    are bars, in order, the first on the caller's input and each next one on
    the output of the one before; it waits for the last one and returns its
    output with [None] for the errors.  The arguments of a stage are its
    piece cut at every blank: joining them with blanks and the stages with
    bars gives the command back, so quotes are not honoured and blanks are
    not merged. *)
Theorem eval_shell_cmd_pipeline :
  forall (popen_error : list string -> option failure)
         (piped_output : list (list string) -> failure + string)
         (command text : string) (z : option string),
    (forall args, In args (stages command) -> popen_error args = None) ->
    piped_output (stages command) = inr text ->
    eval_shell_cmd popen_error piped_output command false z
    = ((started_from 0 (stages command) ++ [Communicated (count_char "|" command)])%list, z,
       inr (Some (text, None)))
    /\ List.length (stages command) = S (count_char "|" command)
    /\ String.concat "|" (map (String.concat " ") (stages command)) = command.
Proof.
  intros popen_error piped_output command text z Hok Hout.
  split; [|split].
  - unfold eval_shell_cmd. unfold sys_bind at 1. unfold sys_ret at 1. cbn beta iota.
    rewrite eval_shell_loop_runs.
    + fold (stages command). cbn [List.app]. rewrite Hout.
      rewrite str_split_length. now rewrite Nat.sub_1_r.
    + destruct (str_split_cons "|" command) as (x & l & E). rewrite E. discriminate.
    + reflexivity.
    + intros v Hv. apply Hok. unfold stages. now apply in_map.
  - unfold stages. rewrite length_map. apply str_split_length.
  - apply stages_rejoin.
Qed.

Lemma eval_shell_cmd_pipeline_witness :
  eval_shell_cmd (fun _ => None) (fun _ => inr "3") "cat jobs.log|wc -l" false None
  = ([Started ["cat"; "jobs.log"] None; Started ["wc"; "-l"] (Some 0%nat); Communicated 1],
     None, inr (Some ("3", None))).
Proof.
  exact (proj1 (eval_shell_cmd_pipeline (fun _ => None) (fun _ => inr "3")
                  "cat jobs.log|wc -l" "3" None (fun _ _ => eq_refl) eq_refl)).
Defined.

Lemma str_split_app (sep : ascii) (a b : string) :
  str_split sep (a ++ String sep b) = (str_split sep a ++ str_split sep b)%list.
Proof.
  induction a as [|c a IH]; cbn [append str_split].
  - now rewrite Ascii.eqb_refl.
  - destruct (Ascii.eqb c sep); rewrite IH; [reflexivity|].
    destruct (str_split_cons sep a) as (x & l & E). now rewrite E.
Qed.

Section PipelineFails.

Variable popen_error : list string -> option failure.
Variable piped_output : list (list string) -> failure + string.

Lemma eval_shell_loop_fails (debug : bool) (pre : list string) (v : string) (post : list string)
    (len index : nat) (started : list (list string)) (z : option string) :
  (index + List.length (pre ++ v :: post) = len)%nat ->
  popen_error (str_split " " v) <> None ->
  exists l e,
    eval_shell_loop popen_error piped_output debug len index (pre ++ v :: post) started z
    = (l, z, inl e).
Proof.
  revert index started. induction pre as [|w pre IH]; intros index started Hlen Hv.
  - cbn [List.app eval_shell_loop]. destruct (popen_error (str_split " " v)) as [e|] eqn:E;
      [|contradiction].
    assert (Hp : forall stdin, Popen popen_error (str_split " " v) stdin z = ([], z, inl e)).
    { intros stdin. unfold Popen. now rewrite E. }
    unfold sys_bind, print, emit, sys_ret, sys_raise.
    destruct debug, (index =? 0)%nat; rewrite Hp; eauto.
  - cbn [List.app eval_shell_loop].
    assert (E : (Z.of_nat index =? Z.of_nat len - 1)%Z = false).
    { apply Z.eqb_neq. cbn [List.app List.length] in Hlen. rewrite length_app in Hlen.
      cbn [List.length] in Hlen. lia. }
    rewrite E.
    destruct (IH (S index) (started ++ [str_split " " w])%list) as (l & e & Hl);
      [cbn [List.app List.length] in Hlen; lia | exact Hv |].
    unfold Popen, sys_bind, print, sys_ret, sys_raise, emit.
    destruct debug, (index =? 0)%nat, (popen_error (str_split " " w)) as [e'|];
      cbn [List.app]; try rewrite Hl; eauto.
Qed.

End PipelineFails.

(** X29.  A command with a blank after a bar makes the stage after that bar
    start with an empty program name.  On a system that starts no program of
    that name (Popen raises), [eval_shell_cmd] raises on every such command,
    as on ["cat jobs.log | wc -l"]. *)
Theorem eval_shell_cmd_blank_after_bar :
  forall (popen_error : list string -> option failure)
         (piped_output : list (list string) -> failure + string),
    (forall rest, popen_error ("" :: rest) <> None) ->
    forall (a b : string) (debug : bool) (z : option string),
    exists l e,
      eval_shell_cmd popen_error piped_output (a ++ "| " ++ b) debug z = (l, z, inl e).
Proof.
  intros popen_error piped_output Hempty a b debug z.
  unfold eval_shell_cmd. cbn [append]. rewrite str_split_app.
  destruct (str_split_cons "|" b) as (x & post & E).
  assert (Hb : str_split "|" (String " " b) = String " " x :: post).
  { cbn [str_split]. now rewrite E. }
  rewrite Hb.
  destruct (eval_shell_loop_fails popen_error piped_output debug (str_split "|" a)
              (String " " x) post
              (List.length (str_split "|" a ++ String " " x :: post)) 0 [] z eq_refl)
    as (l & e & Hl).
  - cbn [str_split]. rewrite Ascii.eqb_refl. apply Hempty.
  - unfold sys_bind, print, emit, sys_ret. destruct debug; rewrite Hl; eauto.
Qed.

Lemma eval_shell_cmd_blank_after_bar_witness :
  exists l e,
    eval_shell_cmd
      (fun args => match args with
                   | "" :: _ => Some (LibraryError "FileNotFoundError")
                   | _ => None
                   end)
      (fun _ => inr "3") "cat jobs.log | wc -l" false None
    = (l, None, inl e).
Proof.
  refine (eval_shell_cmd_blank_after_bar
            (fun args => match args with
                         | "" :: _ => Some (LibraryError "FileNotFoundError")
                         | _ => None
                         end)
            (fun _ => inr "3") _ "cat jobs.log " "wc -l" false None).
  intros rest. discriminate.
Defined.

Section Debugging.

Variable popen_error : list string -> option failure.
Variable piped_output : list (list string) -> failure + string.

Lemma eval_shell_loop_debug (values : list string) (len index : nat)
    (started : list (list string)) (z : option string) :
  let '(l, z', r) := eval_shell_loop popen_error piped_output true len index values started z in
  eval_shell_loop popen_error piped_output false len index values started z
  = (without_prints l, z', r).
Proof.
  revert index started. induction values as [|v values IH]; intros index started;
    [reflexivity|].
  cbn [eval_shell_loop]. specialize (IH (S index) (started ++ [str_split " " v])%list).
  unfold Popen, sys_bind, print, sys_ret, sys_raise, sys_lift, emit in *.
  destruct (index =? 0)%nat, (popen_error (str_split " " v)) as [e|];
    try reflexivity;
    (destruct (Z.of_nat index =? Z.of_nat len - 1)%Z;
     [destruct (piped_output (started ++ [str_split " " v])%list); reflexivity|]);
    destruct (eval_shell_loop popen_error piped_output true len (S index) values
                (started ++ [str_split " " v])%list z) as [[l z'] r];
    rewrite IH; reflexivity.
Qed.

End Debugging.

(** X30.  The debug flag of [eval_shell_cmd] only adds output: with it the
    call starts the same processes, leaves [ZSTD_LOC] alone and returns or
    raises the same as without it. *)
Theorem eval_shell_cmd_debug :
  forall (popen_error : list string -> option failure)
         (piped_output : list (list string) -> failure + string)
         (command : string) (z : option string),
    let '(l, z', r) := eval_shell_cmd popen_error piped_output command true z in
    eval_shell_cmd popen_error piped_output command false z = (without_prints l, z', r).
Proof.
  intros popen_error piped_output command z. unfold eval_shell_cmd.
  pose proof (eval_shell_loop_debug popen_error piped_output (str_split "|" command)
                (List.length (str_split "|" command)) 0 [] z) as H.
  unfold sys_bind, print, sys_ret, emit.
  destruct (eval_shell_loop popen_error piped_output true _ 0 _ [] z) as [[l z'] r].
  rewrite H. reflexivity.
Qed.
